(** * Pipeline & Peril: the game-state engine, embedded and verified

    A shallow embedding of the engine in
    [digital/pygame/src/engine/advanced_game_state.py] (and of the parts of
    [digital/pygame/src/engine/game_state.py] that the same properties
    mention), followed by the properties themselves.

    Conventions of the embedding:
    - Python [int] is [Z]; [//] is [Z.div], [%] is [Z.modulo], [&] is
      [Z.land], all of which agree with Python on negative operands when the
      divisor is positive.
    - Python [float] is idealised as an exact rational ([Q]); no rounding is
      modelled.  Where the two sides of an equation between such values are
      computed differently, it is stated with [==].
    - A Python class is a module holding a record [t] and its methods; a
      method that mutates [self] returns the new [self].
    - An exception is a value of [exn]; a method that may raise returns a
      [result].
    - Field constraints declared on the classes ([Field(ge=.., le=..)] with
      [validate_assignment=True], [attrs] validators) are checked where the
      source assigns the field. *)

From Stdlib Require Import ZArith QArith Qminmax List String Lia Bool.
From Stdlib Require Import DecimalString ZifyNat.
From stdpp Require Import gmap strings list.

Open Scope Z_scope.

(** ** Exceptions and results *)

Inductive exn : Type :=
  | ValidationError   (* pydantic: a field or model validator rejected a value *)
  | ValueError        (* attrs validator *)
  | IndexError        (* list index out of range *)
  | ZeroDivisionError.

Inductive result (A : Type) : Type :=
  | Ok (a : A)
  | Raise (e : exn).
Arguments Ok {A} a.
Arguments Raise {A} e.

Definition bind {A B : Type} (r : result A) (k : A -> result B) : result B :=
  match r with
  | Ok a => k a
  | Raise e => Raise e
  end.

Definition result_map {A B : Type} (f : A -> B) (r : result A) : result B :=
  match r with
  | Ok a => Ok (f a)
  | Raise e => Raise e
  end.

Declare Scope result_scope.
Delimit Scope result_scope with result.
Notation "'do' x <- r ; k" := (bind r (fun x => k))
  (at level 10, x pattern, r at level 100, k at level 200) : result_scope.
Open Scope result_scope.

(** ** Python built-ins used by the engine *)

(** [range(lo, hi)] *)
Definition py_range (lo hi : Z) : list Z := seqZ lo (hi - lo).

(** [xs[i]] with Python's negative indices: the position read, or [None]
    where Python raises [IndexError]. *)
Definition py_index {A : Type} (xs : list A) (i : Z) : option nat :=
  let n := Z.of_nat (length xs) in
  if (0 <=? i) && (i <? n) then Some (Z.to_nat i)
  else if (- n <=? i) && (i <? 0) then Some (Z.to_nat (n + i))
  else None.

(** [a / b] on two [int]s (true division) *)
Definition py_truediv (a b : Z) : result Q :=
  if b =? 0 then Raise ZeroDivisionError
  else Ok (inject_Z a / inject_Z b)%Q.

(** [str(n)] for an [int] *)
Definition py_str_int (n : Z) : string := NilZero.string_of_int (Z.to_int n).

(** [sum(xs)] over floats: starts from [0] and adds left to right *)
Definition py_sum (xs : list Q) : Q := fold_left Qplus xs 0%Q.

(** [max(xs, key=...)] on a list already paired with its keys: the first
    element whose key is maximal; [None] for [default=None] on an empty
    list. *)
Fixpoint py_max_by {A : Type} (best : Q * A) (xs : list (Q * A)) : A :=
  match xs with
  | [] => snd best
  | x :: xs' =>
      match (fst x ?= fst best)%Q with
      | Gt => py_max_by x xs'
      | _ => py_max_by best xs'
      end
  end.

Definition py_max_key {A : Type} (xs : list (Q * A)) : option A :=
  match xs with
  | [] => None
  | x :: xs' => Some (py_max_by x xs')
  end.

(** ** Spatial model: [HexCoordinate] *)

Module HexCoordinate.

Record t : Type := mk { row : Z; col : Z }.

(** cached on an immutable value, so the cache is not observable *)
Definition cube_coords (self : t) : Z * Z * Z :=
  let x := col self - (row self - Z.land (row self) 1) / 2 in
  let z := row self in
  let y := - x - z in
  (x, y, z).

Definition distance_to (self other : t) : Z :=
  let '(x1, y1, z1) := cube_coords self in
  let '(x2, y2, z2) := cube_coords other in
  (Z.abs (x1 - x2) + Z.abs (y1 - y2) + Z.abs (z1 - z2)) / 2.

Definition even_row_offsets : list (Z * Z) :=
  [(-1, -1); (-1, 0); (0, -1); (0, 1); (1, -1); (1, 0)].

Definition odd_row_offsets : list (Z * Z) :=
  [(-1, 0); (-1, 1); (0, -1); (0, 1); (1, 0); (1, 1)].

Definition base_offsets (self : t) : list (Z * Z) :=
  if row self mod 2 =? 0 then even_row_offsets else odd_row_offsets.

Definition shifted (self : t) (r : Z) (d : Z * Z) : t :=
  mk (row self + fst d * r) (col self + snd d * r).

(** the generator, as the list of what it yields, in order *)
Definition neighbors (self : t) (radius : Z) : list t :=
  flat_map (fun r => List.map (shifted self r) (base_offsets self))
           (py_range 1 (radius + 1)).

End HexCoordinate.

(** ** Resource economy and services *)

Module ResourceCosts.

(** frozen pydantic model *)
Record t : Type := mk { cpu : Z; memory : Z; storage : Z; capacity : Z }.

Definition total_cost (self : t) : Z := cpu self + memory self + storage self.

(** the declared field constraints, which every instance satisfies *)
Definition valid (self : t) : Prop :=
  0 <= cpu self <= 10 /\ 0 <= memory self <= 10 /\
  0 <= storage self <= 10 /\ 1 <= capacity self <= 20.

End ResourceCosts.

Module ServiceType.

Inductive t : Type :=
  | COMPUTE | DATABASE | CACHE | QUEUE | LOAD_BALANCER | API_GATEWAY.

Definition value (self : t) : string :=
  match self with
  | COMPUTE => "compute"
  | DATABASE => "database"
  | CACHE => "cache"
  | QUEUE => "queue"
  | LOAD_BALANCER => "load_balancer"
  | API_GATEWAY => "api_gateway"
  end.

Definition costs (self : t) : ResourceCosts.t :=
  match self with
  | COMPUTE => ResourceCosts.mk 2 2 1 5
  | DATABASE => ResourceCosts.mk 1 2 3 3
  | CACHE => ResourceCosts.mk 1 3 1 8
  | QUEUE => ResourceCosts.mk 1 1 2 6
  | LOAD_BALANCER => ResourceCosts.mk 2 1 1 10
  | API_GATEWAY => ResourceCosts.mk 1 1 1 7
  end.

End ServiceType.

Module Service.

Record t : Type := mk {
  service_type : ServiceType.t;
  location : HexCoordinate.t;
  owner_id : Z;
  id : string;
  current_load : Z;
  connections : gset string;
  bugs : Z;
  upgrades : Z
}.

(** the [attrs] validators [ge(0)] of the three counters *)
Definition valid (self : t) : Prop :=
  0 <= current_load self /\ 0 <= bugs self /\ 0 <= upgrades self.

Definition max_capacity (self : t) : Z :=
  let base := ResourceCosts.capacity (ServiceType.costs (service_type self)) in
  base + upgrades self * 2.

Definition available_capacity (self : t) : Z :=
  let max_cap := max_capacity self in
  let bug_penalty := bugs self * 1 in
  Z.max 0 (max_cap - current_load self - bug_penalty).

Definition can_handle_load (self : t) (load : Z) : bool :=
  load <=? available_capacity self.

(** [self.current_load = v], validated by [ge(0)] *)
Definition set_current_load (self : t) (v : Z) : result t :=
  if 0 <=? v
  then Ok (mk (service_type self) (location self) (owner_id self) (id self)
              v (connections self) (bugs self) (upgrades self))
  else Raise ValueError.

Definition add_load (self : t) (load : Z) : result (bool * t) :=
  if can_handle_load self load then
    do self' <- set_current_load self (current_load self + load);
    Ok (true, self')
  else Ok (false, self).

End Service.

Module PlayerResources.

Record t : Type := mk { cpu : Z; memory : Z; storage : Z }.

Definition default : t := mk 5 5 5.

(** [Field(ge=0, le=100)] on each of the three fields *)
Definition in_bounds (v : Z) : bool := (0 <=? v) && (v <=? 100).

Definition valid (self : t) : Prop :=
  0 <= cpu self <= 100 /\ 0 <= memory self <= 100 /\ 0 <= storage self <= 100.

Definition total_resources (self : t) : Z := cpu self + memory self + storage self.

Definition can_afford (self : t) (costs : ResourceCosts.t) : bool :=
  (ResourceCosts.cpu costs <=? cpu self) &&
  (ResourceCosts.memory costs <=? memory self) &&
  (ResourceCosts.storage costs <=? storage self).

(** assignments under [validate_assignment=True] *)
Definition set_cpu (self : t) (v : Z) : result t :=
  if in_bounds v then Ok (mk v (memory self) (storage self))
  else Raise ValidationError.

Definition set_memory (self : t) (v : Z) : result t :=
  if in_bounds v then Ok (mk (cpu self) v (storage self))
  else Raise ValidationError.

Definition set_storage (self : t) (v : Z) : result t :=
  if in_bounds v then Ok (mk (cpu self) (memory self) v)
  else Raise ValidationError.

Definition spend (self : t) (costs : ResourceCosts.t) : result (bool * t) :=
  if can_afford self costs then
    do s1 <- set_cpu self (cpu self - ResourceCosts.cpu costs);
    do s2 <- set_memory s1 (memory s1 - ResourceCosts.memory costs);
    do s3 <- set_storage s2 (storage s2 - ResourceCosts.storage costs);
    Ok (true, s3)
  else Ok (false, self).

End PlayerResources.

(** ** Players *)

Module Player.

(** [average_uptime] is a [functools.cached_property]: the first read
    stores its value on the instance and later reads return the stored
    value.  [average_uptime_cache] is that slot. *)
Record t : Type := mk {
  id : Z;
  name : string;
  resources : PlayerResources.t;
  actions_remaining : Z;
  services : list string;
  uptime_history : list Q;       (* deque(maxlen=50), oldest first *)
  current_uptime : Q;
  character_ability_used : bool;
  average_uptime_cache : option Q
}.

(** [Player(id=.., name=..)] with every other field at its default *)
Definition new (id : Z) (name : string) : t :=
  mk id name PlayerResources.default 3 [] [] 100%Q false None.

Definition with_services (self : t) (v : list string) : t :=
  mk (id self) (name self) (resources self) (actions_remaining self) v
     (uptime_history self) (current_uptime self)
     (character_ability_used self) (average_uptime_cache self).

Definition with_average_uptime_cache (self : t) (v : option Q) : t :=
  mk (id self) (name self) (resources self) (actions_remaining self)
     (services self) (uptime_history self) (current_uptime self)
     (character_ability_used self) v.

(** [self.actions_remaining = v], validated by [in_(range(0, 6))] *)
Definition set_actions_remaining (self : t) (v : Z) : result t :=
  if (0 <=? v) && (v <? 6)
  then Ok (mk (id self) (name self) (resources self) v (services self)
              (uptime_history self) (current_uptime self)
              (character_ability_used self) (average_uptime_cache self))
  else Raise ValueError.

Definition set_character_ability_used (self : t) (v : bool) : t :=
  mk (id self) (name self) (resources self) (actions_remaining self)
     (services self) (uptime_history self) (current_uptime self)
     v (average_uptime_cache self).

(** the body of [average_uptime], evaluated on a cache miss *)
Definition compute_average_uptime (self : t) : Q :=
  match uptime_history self with
  | [] => current_uptime self
  | _ :: _ =>
      (py_sum (uptime_history self)
       / inject_Z (Z.of_nat (length (uptime_history self))))%Q
  end.

(** reading [self.average_uptime] *)
Definition average_uptime (self : t) : Q * t :=
  match average_uptime_cache self with
  | Some v => (v, self)
  | None =>
      let v := compute_average_uptime self in
      (v, with_average_uptime_cache self (Some v))
  end.

(** reading [self.performance_score] *)
Definition performance_score (self : t) : Q * t :=
  let service_count := Z.of_nat (length (services self)) in
  if service_count =? 0 then (0%Q, self)
  else
    let base_score := (current_uptime self * inject_Z service_count)%Q in
    let '(avg, self') := average_uptime self in
    let history_bonus := (avg * (1 # 10))%Q in
    let resource_bonus :=
      (inject_Z (PlayerResources.total_resources (resources self'))
       * (5 # 100))%Q in
    (fold_left Qplus [base_score; history_bonus; resource_bonus] 0%Q, self').

(** [deque(maxlen=50).append]: a full deque drops its oldest entry *)
Definition deque_append (maxlen : nat) (d : list Q) (x : Q) : list Q :=
  if (maxlen <=? length d)%nat then drop 1 d ++ [x] else d ++ [x].

Definition record_uptime (self : t) (uptime : Q) : t :=
  mk (id self) (name self) (resources self) (actions_remaining self)
     (services self) (deque_append 50 (uptime_history self) uptime)
     uptime (character_ability_used self) (average_uptime_cache self).

End Player.

(** ** Metrics *)

Module GameMetrics.

Record t : Type := mk {
  total_requests : Z;
  cascade_failures : Z;
  chaos_events : Z;
  services_built : Z;
  connections_created : Z
}.

Definition default : t := mk 0 0 0 0 0.

(** [Field(ge=0)] on every counter *)
Definition valid (self : t) : Prop :=
  0 <= total_requests self /\ 0 <= cascade_failures self /\
  0 <= chaos_events self /\ 0 <= services_built self /\
  0 <= connections_created self.

Definition set_total_requests (self : t) (v : Z) : result t :=
  if 0 <=? v
  then Ok (mk v (cascade_failures self) (chaos_events self)
              (services_built self) (connections_created self))
  else Raise ValidationError.

Definition set_cascade_failures (self : t) (v : Z) : result t :=
  if 0 <=? v
  then Ok (mk (total_requests self) v (chaos_events self)
              (services_built self) (connections_created self))
  else Raise ValidationError.

Definition set_chaos_events (self : t) (v : Z) : result t :=
  if 0 <=? v
  then Ok (mk (total_requests self) (cascade_failures self) v
              (services_built self) (connections_created self))
  else Raise ValidationError.

Definition set_services_built (self : t) (v : Z) : result t :=
  if 0 <=? v
  then Ok (mk (total_requests self) (cascade_failures self)
              (chaos_events self) v (connections_created self))
  else Raise ValidationError.

(** a computed field: evaluated at each read, there is no slot for it *)
Definition failure_rate (self : t) : result Q :=
  if total_requests self =? 0 then Ok 0%Q
  else
    do ratio <- py_truediv (cascade_failures self) (total_requests self);
    Ok (ratio * 100)%Q.

End GameMetrics.

(** ** The orchestrator: [AdvancedGameState] *)

(** the six phase names, shared by both engines ([Literal[...]] in the
    advanced one, the enum [GamePhase] in the basic one) *)
Module GamePhase.

Inductive t : Type := SETUP | TRAFFIC | ACTION | RESOLUTION | CHAOS | END.

Definition value (self : t) : string :=
  match self with
  | SETUP => "setup"
  | TRAFFIC => "traffic"
  | ACTION => "action"
  | RESOLUTION => "resolution"
  | CHAOS => "chaos"
  | END => "end"
  end.

Definition eqb (a b : t) : bool :=
  match a, b with
  | SETUP, SETUP | TRAFFIC, TRAFFIC | ACTION, ACTION
  | RESOLUTION, RESOLUTION | CHAOS, CHAOS | END, END => true
  | _, _ => false
  end.

End GamePhase.

(** values stored under ["parameters"] in an action-log entry *)
#[warnings="-register-all"]
Inductive pyval : Type :=
  | PStr (s : string)
  | PInt (n : Z)
  | PDict (items : list (string * pyval)).

Module LogEntry.

(** one [dict] appended by [log_action], key by key *)
Record t : Type := mk {
  timestamp : string;
  round : Z;
  phase : GamePhase.t;
  action_type : string;
  player_id : Z;
  parameters : pyval;
  game_state_hash : Z
}.

End LogEntry.

(** What the Python process supplies and the engine reads: the wall clock
    behind [datetime.now()] and the (per-process salted) [hash] of a
    [str]. *)
Module World.

Record t : Type := mk {
  clock : nat -> string;     (* isoformat of the n-th reading of the clock *)
  clock_reads : nat;         (* readings taken so far *)
  str_hash : string -> Z
}.

(** [datetime.now().isoformat()] *)
Definition now_isoformat (w : t) : string * t :=
  (clock w (clock_reads w), mk (clock w) (S (clock_reads w)) (str_hash w)).

(** [hash(s)] for a [str] *)
Definition hash (w : t) (s : string) : Z := str_hash w s.

End World.

Module AdvancedGameState.

Record t : Type := mk {
  game_id : string;
  round : Z;
  phase : GamePhase.t;
  players : list Player.t;
  services : gmap string Service.t;
  grid_width : Z;
  grid_height : Z;
  entropy : Z;
  metrics : GameMetrics.t;
  action_log : list LogEntry.t;
  current_player_index : Z
}.

(** in-place mutations of owned objects: no assignment to a field of the
    model, hence no validation *)
Definition with_players (self : t) (v : list Player.t) : t :=
  mk (game_id self) (round self) (phase self) v (services self)
     (grid_width self) (grid_height self) (entropy self) (metrics self)
     (action_log self) (current_player_index self).

Definition with_services (self : t) (v : gmap string Service.t) : t :=
  mk (game_id self) (round self) (phase self) (players self) v
     (grid_width self) (grid_height self) (entropy self) (metrics self)
     (action_log self) (current_player_index self).

Definition with_metrics (self : t) (v : GameMetrics.t) : t :=
  mk (game_id self) (round self) (phase self) (players self) (services self)
     (grid_width self) (grid_height self) (entropy self) v
     (action_log self) (current_player_index self).

Definition with_action_log (self : t) (v : list LogEntry.t) : t :=
  mk (game_id self) (round self) (phase self) (players self) (services self)
     (grid_width self) (grid_height self) (entropy self) (metrics self)
     v (current_player_index self).

(** [0 <= row < grid_height and 0 <= col < grid_width] *)
Definition in_grid (self : t) (loc : HexCoordinate.t) : bool :=
  (0 <=? HexCoordinate.row loc) && (HexCoordinate.row loc <? grid_height self) &&
  (0 <=? HexCoordinate.col loc) && (HexCoordinate.col loc <? grid_width self).

(** the model validator, [true] where the source returns [self] and
    [false] where it raises *)
Definition validate_game_state (self : t) : bool :=
  negb (Z.of_nat (length (players self)) <=? current_player_index self) &&
  forallb (fun kv => in_grid self (Service.location (snd kv)))
          (map_to_list (services self)).

(** the field constraints of the model *)
Definition fields_valid (self : t) : Prop :=
  1 <= round self <= 50 /\ 4 <= grid_width self <= 20 /\
  4 <= grid_height self <= 20 /\ 0 <= entropy self <= 20 /\
  0 <= current_player_index self.

(** a validated instance *)
Definition valid (self : t) : Prop :=
  fields_valid self /\ validate_game_state self = true.

(** assignment to a field under [validate_assignment=True]: the field
    constraint, then the model validator, on the updated model *)
Definition assign (field_ok : bool) (self' : t) : result t :=
  if field_ok && validate_game_state self' then Ok self'
  else Raise ValidationError.

Definition set_round (self : t) (v : Z) : result t :=
  assign ((1 <=? v) && (v <=? 50))
    (mk (game_id self) v (phase self) (players self) (services self)
        (grid_width self) (grid_height self) (entropy self) (metrics self)
        (action_log self) (current_player_index self)).

Definition set_phase (self : t) (v : GamePhase.t) : result t :=
  assign true
    (mk (game_id self) (round self) v (players self) (services self)
        (grid_width self) (grid_height self) (entropy self) (metrics self)
        (action_log self) (current_player_index self)).

Definition set_entropy (self : t) (v : Z) : result t :=
  assign ((0 <=? v) && (v <=? 20))
    (mk (game_id self) (round self) (phase self) (players self)
        (services self) (grid_width self) (grid_height self) v
        (metrics self) (action_log self) (current_player_index self)).

Definition set_current_player_index (self : t) (v : Z) : result t :=
  assign (0 <=? v)
    (mk (game_id self) (round self) (phase self) (players self)
        (services self) (grid_width self) (grid_height self) (entropy self)
        (metrics self) (action_log self) v).

(** the items of the computed [service_grid] dict; only membership of a
    location among its keys is ever asked *)
Definition service_grid (self : t) : list (HexCoordinate.t * string) :=
  List.map (fun kv => (Service.location (snd kv), fst kv))
           (map_to_list (services self)).

Definition hex_eqb (a b : HexCoordinate.t) : bool :=
  (HexCoordinate.row a =? HexCoordinate.row b) &&
  (HexCoordinate.col a =? HexCoordinate.col b).

(** [loc in self.service_grid] *)
Definition in_service_grid (self : t) (loc : HexCoordinate.t) : bool :=
  existsb (fun item => hex_eqb (fst item) loc) (service_grid self).

Definition is_game_over (self : t) : bool :=
  (20 <? round self) ||
  forallb (fun p => Qle_bool (Player.current_uptime p) 0) (players self) ||
  GamePhase.eqb (phase self) GamePhase.END.

(** [max(self.players, key=lambda p: p.performance_score, default=None)]
    once the game is over; reading the scores fills the players'
    [average_uptime] caches. *)
Definition get_winner (self : t) : option Player.t * t :=
  if negb (is_game_over self) then (None, self)
  else
    let scored := List.map Player.performance_score (players self) in
    (py_max_key scored, with_players self (List.map snd scored)).

Definition reset_player (p : Player.t) : result Player.t :=
  do p1 <- Player.set_actions_remaining p 3;
  Ok (Player.set_character_ability_used p1 false).

(** the [for player in self.players] loop of [_end_round] *)
Fixpoint reset_players (ps : list Player.t) : result (list Player.t) :=
  match ps with
  | [] => Ok []
  | p :: ps' =>
      do p' <- reset_player p;
      do rest <- reset_players ps';
      Ok (p' :: rest)
  end.

Definition _end_round (self : t) : result t :=
  do s1 <- set_round self (round self + 1);
  do s2 <- set_phase s1 GamePhase.TRAFFIC;
  do s3 <- set_current_player_index s2 0;
  do ps <- reset_players (players s3);
  Ok (with_players s3 ps).

Definition next_phase (self : t) : result t :=
  match phase self with
  | GamePhase.SETUP => set_phase self GamePhase.TRAFFIC
  | GamePhase.TRAFFIC => set_phase self GamePhase.ACTION
  | GamePhase.ACTION => set_phase self GamePhase.RESOLUTION
  | GamePhase.RESOLUTION => set_phase self GamePhase.CHAOS
  | GamePhase.CHAOS => _end_round self
  | GamePhase.END => Ok self
  end.

Section Logging.

(** [str(self.model_dump())]: the text of the dump of the whole model.
    Nothing below depends on its shape. *)
Variable model_dump_str : t -> string.

Definition log_action (w : World.t) (self : t) (action_type : string)
    (player_id : Z) (parameters : pyval) : World.t * t :=
  let '(ts, w1) := World.now_isoformat w in
  let action :=
    LogEntry.mk ts (round self) (phase self) action_type player_id
                parameters (World.hash w1 (model_dump_str self)) in
  (w1, with_action_log self (action_log self ++ [action])).

Definition build_parameters (service : Service.t) : pyval :=
  PDict [("service_type",
           PStr (ServiceType.value (Service.service_type service)));
         ("location",
           PDict [("row", PInt (HexCoordinate.row (Service.location service)));
                  ("col", PInt (HexCoordinate.col (Service.location service)))]);
         ("service_id", PStr (Service.id service))].

(** The body runs inside [try: ... except Exception: return False]:
    an exception raised part-way is swallowed and the mutations made
    before it stay. *)
Definition add_service (w : World.t) (self : t) (service : Service.t)
    : bool * World.t * t :=
  if negb (in_grid self (Service.location service)) then (false, w, self)
  else if in_service_grid self (Service.location service) then (false, w, self)
  else
    let s1 := with_services self
                (<[Service.id service := service]> (services self)) in
    match py_index (players s1) (Service.owner_id service) with
    | None => (false, w, s1)                       (* IndexError, caught *)
    | Some i =>
        let s2 :=
          with_players s1
            (alter (fun p => Player.with_services p
                               (Player.services p ++ [Service.id service]))
                   i (players s1)) in
        match GameMetrics.set_services_built (metrics s2)
                (GameMetrics.services_built (metrics s2) + 1) with
        | Raise _ => (false, w, s2)                (* caught *)
        | Ok m =>
            let s3 := with_metrics s2 m in
            let '(w', s4) :=
              log_action w s3 "build_service" (Service.owner_id service)
                         (build_parameters service) in
            (true, w', s4)
        end
    end.

End Logging.

End AdvancedGameState.

(** ** Driving the phase machine *)

(** [k] successive calls of [next_phase] *)
Fixpoint next_phase_n (k : nat) (game : AdvancedGameState.t)
    : result AdvancedGameState.t :=
  match k with
  | O => Ok game
  | S k' => do g <- next_phase_n k' game; AdvancedGameState.next_phase g
  end.

(** no victory yet: the game is not over before any of the first [k]
    calls *)
Definition no_victory_before (k : nat) (game : AdvancedGameState.t) : Prop :=
  forall (j : nat) (g : AdvancedGameState.t),
    (j < k)%nat -> next_phase_n j game = Ok g ->
    AdvancedGameState.is_game_over g = false.

(** ** The phase handlers of the simulation loop *)

Definition handle_traffic_phase (game : AdvancedGameState.t)
    : result AdvancedGameState.t :=
  let traffic :=
    fold_left Z.add
      (List.map (fun player => Z.of_nat (length (Player.services player)) * 2)
                (AdvancedGameState.players game))
      0 in
  let m := AdvancedGameState.metrics game in
  do m' <- GameMetrics.set_total_requests m (GameMetrics.total_requests m + traffic);
  Ok (AdvancedGameState.with_metrics game m').

Definition handle_resolution_phase (w : World.t) (game : AdvancedGameState.t)
    : AdvancedGameState.t :=
  let resolve (player : Player.t) : Player.t :=
    match Player.services player with
    | [] => player
    | _ :: _ =>
        let base_uptime :=
          Qmin 100 (inject_Z (Z.of_nat (length (Player.services player)) * 20)) in
        let noise :=
          World.hash w (py_str_int (AdvancedGameState.round game)) mod 20 - 10 in
        let uptime := Qmax 0 (base_uptime + inject_Z noise) in
        Player.record_uptime player uptime
    end in
  AdvancedGameState.with_players game
    (List.map resolve (AdvancedGameState.players game)).

Definition handle_chaos_phase (w : World.t) (game : AdvancedGameState.t)
    : result AdvancedGameState.t :=
  do g1 <-
    (if 3 <? AdvancedGameState.entropy game then
       let chaos_roll :=
         World.hash w (py_str_int (AdvancedGameState.round game
                                   * AdvancedGameState.entropy game)) mod 8 + 1 in
       let m := AdvancedGameState.metrics game in
       do m1 <-
         (if (chaos_roll =? 7) || (chaos_roll =? 8)
          then GameMetrics.set_cascade_failures m
                 (GameMetrics.cascade_failures m + 1)
          else Ok m);                   (* cases 1 to 6 only write to the log *)
       do m2 <- GameMetrics.set_chaos_events m1 (GameMetrics.chaos_events m1 + 1);
       Ok (AdvancedGameState.with_metrics game m2)
     else Ok game);
  AdvancedGameState.set_entropy g1
    (Z.min 10 (AdvancedGameState.entropy g1 + 1)).

(** ** Runs: a game driven by a sequence of external actions *)

Inductive action : Type :=
  | AddService (service : Service.t)
  | LogAction (action_type : string) (player_id : Z) (parameters : pyval)
  | NextPhase
  | HandleTraffic
  | HandleResolution
  | HandleChaos.

Section Runs.

Variable model_dump_str : AdvancedGameState.t -> string.

Definition step (wg : World.t * AdvancedGameState.t) (a : action)
    : result (World.t * AdvancedGameState.t) :=
  let '(w, g) := wg in
  match a with
  | AddService service =>
      let '(_, w', g') := AdvancedGameState.add_service model_dump_str w g service in
      Ok (w', g')
  | LogAction action_type player_id parameters =>
      Ok (AdvancedGameState.log_action model_dump_str w g
            action_type player_id parameters)
  | NextPhase =>
      do g' <- AdvancedGameState.next_phase g; Ok (w, g')
  | HandleTraffic =>
      do g' <- handle_traffic_phase g; Ok (w, g')
  | HandleResolution => Ok (w, handle_resolution_phase w g)
  | HandleChaos =>
      do g' <- handle_chaos_phase w g; Ok (w, g')
  end.

(** an uncaught exception ends the run *)
Fixpoint run (wg : World.t * AdvancedGameState.t) (actions : list action)
    : result (World.t * AdvancedGameState.t) :=
  match actions with
  | [] => Ok wg
  | a :: rest => do wg' <- step wg a; run wg' rest
  end.

End Runs.

(** ** The basic engine ([game_state.py]): the methods the properties name *)

Module Basic.

Inductive ResourceType : Type := CPU | MEMORY | STORAGE.

Module ServiceCosts.
(** a plain dataclass: no validation *)
Record t : Type := mk { cpu : Z; memory : Z; storage : Z; capacity : Z }.
End ServiceCosts.

Module Player.

(** [resources] is a dict holding the three keys of [ResourceType] *)
Record t : Type := mk {
  id : Z;
  name : string;
  resources : ResourceType -> Z;
  actions_remaining : Z;
  services : list string;
  uptime_history : list Q;
  current_uptime : Q;
  character_ability_used : bool
}.

Definition can_afford (self : t) (costs : ServiceCosts.t) : bool :=
  (ServiceCosts.cpu costs <=? resources self CPU) &&
  (ServiceCosts.memory costs <=? resources self MEMORY) &&
  (ServiceCosts.storage costs <=? resources self STORAGE).

(** [self.resources[k] -= v] *)
Definition sub_resource (self : t) (k : ResourceType) (v : Z) : t :=
  mk (id self) (name self)
     (fun k' =>
        match k, k' with
        | CPU, CPU | MEMORY, MEMORY | STORAGE, STORAGE => resources self k' - v
        | _, _ => resources self k'
        end)
     (actions_remaining self) (services self) (uptime_history self)
     (current_uptime self) (character_ability_used self).

Definition spend_resources (self : t) (costs : ServiceCosts.t) : bool * t :=
  if can_afford self costs then
    let s1 := sub_resource self CPU (ServiceCosts.cpu costs) in
    let s2 := sub_resource s1 MEMORY (ServiceCosts.memory costs) in
    let s3 := sub_resource s2 STORAGE (ServiceCosts.storage costs) in
    (true, s3)
  else (false, self).

Definition reset (self : t) : t :=
  mk (id self) (name self) (resources self) 3 (services self)
     (uptime_history self) (current_uptime self) false.

End Player.

Module GameState.

(** the fields read or written by [next_phase], [is_game_over] and
    [get_winner]; the grid, the services, the metrics and the action
    log are owned by the same object but not touched by these three *)
Record t : Type := mk {
  round : Z;
  phase : GamePhase.t;
  players : list Player.t;
  entropy : Z;
  current_player_index : Z
}.

Definition phase_order : list GamePhase.t :=
  [GamePhase.TRAFFIC; GamePhase.ACTION; GamePhase.RESOLUTION; GamePhase.CHAOS].

(** [phase_order.index(p)] where [p in phase_order] *)
Fixpoint index_of (p : GamePhase.t) (l : list GamePhase.t) : option nat :=
  match l with
  | [] => None
  | q :: l' => if GamePhase.eqb q p then Some 0%nat
               else option_map S (index_of p l')
  end.

Definition next_phase (self : t) : t :=
  if GamePhase.eqb (phase self) GamePhase.SETUP then
    mk (round self) GamePhase.TRAFFIC (players self) (entropy self)
       (current_player_index self)
  else
    match index_of (phase self) phase_order with
    | Some current_index =>
        if (current_index =? length phase_order - 1)%nat then
          mk (round self + 1) GamePhase.TRAFFIC
             (List.map Player.reset (players self)) (entropy self) 0
        else
          mk (round self)
             (nth (current_index + 1) phase_order GamePhase.END)
             (players self) (entropy self) (current_player_index self)
    | None => self
    end.

Definition is_game_over (self : t) : bool :=
  (20 <? round self) ||
  forallb (fun p => Qle_bool (Player.current_uptime p) 0) (players self).

(** [sum(p.current_uptime for p in self.players) / len(self.players)] *)
Definition mean_uptime (self : t) : result Q :=
  if Z.of_nat (length (players self)) =? 0 then Raise ZeroDivisionError
  else Ok (py_sum (List.map Player.current_uptime (players self))
           / inject_Z (Z.of_nat (length (players self))))%Q.

(** the competitive scan: strictly better scores replace the best so far *)
Fixpoint best_of (best_player : option Player.t) (best_score : Q)
    (ps : list Player.t) : option Player.t :=
  match ps with
  | [] => best_player
  | player :: ps' =>
      let score :=
        (Player.current_uptime player
         * inject_Z (Z.of_nat (length (Player.services player))))%Q in
      match (score ?= best_score)%Q with
      | Gt => best_of (Some player) score ps'
      | _ => best_of best_player best_score ps'
      end
  end.

Definition competitive (self : t) : option Player.t :=
  best_of None (-1)%Q (players self).

(** [None] is returned both when the game is not over and for a
    cooperative victory *)
Definition get_winner (self : t) : result (option Player.t) :=
  if negb (is_game_over self) then Ok None
  else if 10 <=? round self then
    do avg_uptime <- mean_uptime self;
    match (avg_uptime ?= 80)%Q with
    | Gt => Ok None                            (* cooperative victory *)
    | _ => Ok (competitive self)
    end
  else Ok (competitive self).

End GameState.

End Basic.

(** ** The specification's formulas, in its own words *)

Module Spec.

(** "the mean of the uptime history, falling back to [current_uptime]
    when the history is empty" *)
Definition average_uptime (p : Player.t) : Q :=
  match Player.uptime_history p with
  | [] => Player.current_uptime p
  | h => (py_sum h / inject_Z (Z.of_nat (length h)))%Q
  end.

(** "current_uptime * owned_service_count + 0.1 * average_uptime
    + 0.05 * total_resources" *)
Definition performance_score (p : Player.t) : Q :=
  (Player.current_uptime p * inject_Z (Z.of_nat (length (Player.services p)))
   + (1 # 10) * average_uptime p
   + (5 # 100) * inject_Z (PlayerResources.total_resources (Player.resources p)))%Q.

(** "Traffic, Action, Resolution, Chaos, Traffic, ...": the phase after
    [k] calls of [next_phase] from Setup *)
Definition phase_cycle (k : nat) : GamePhase.t :=
  match k with
  | O => GamePhase.SETUP
  | S j =>
      match (j mod 4)%nat with
      | 0%nat => GamePhase.TRAFFIC
      | 1%nat => GamePhase.ACTION
      | 2%nat => GamePhase.RESOLUTION
      | _ => GamePhase.CHAOS
      end
  end.

(** "the arithmetic mean of all players' current_uptime" *)
Definition mean_uptime (uptimes : list Q) : Q :=
  (py_sum uptimes / inject_Z (Z.of_nat (length uptimes)))%Q.

(** the transition table; End is terminal *)
Definition transition (p : GamePhase.t) : GamePhase.t :=
  match p with
  | GamePhase.SETUP => GamePhase.TRAFFIC
  | GamePhase.TRAFFIC => GamePhase.ACTION
  | GamePhase.ACTION => GamePhase.RESOLUTION
  | GamePhase.RESOLUTION => GamePhase.CHAOS
  | GamePhase.CHAOS => GamePhase.TRAFFIC
  | GamePhase.END => GamePhase.END
  end.

(** rollovers (Chaos to Traffic) among the first [k] calls from Setup *)
Definition rollovers (k : nat) : Z := Z.of_nat ((k - 1) / 4).

End Spec.


(** ** What two runs are compared on *)

Module Observation.

(** an action-log entry without its [timestamp] and [game_state_hash] *)
Definition content (e : LogEntry.t)
    : Z * GamePhase.t * string * Z * pyval :=
  (LogEntry.round e, LogEntry.phase e, LogEntry.action_type e,
   LogEntry.player_id e, LogEntry.parameters e).

(** the game state without its action log *)
Definition core (g : AdvancedGameState.t) : AdvancedGameState.t :=
  AdvancedGameState.with_action_log g [].

(** equal in every field but the action log, whose entries agree on
    everything but [timestamp] and [game_state_hash] *)
Definition same_game (g1 g2 : AdvancedGameState.t) : Prop :=
  core g1 = core g2 /\
  List.map content (AdvancedGameState.action_log g1)
  = List.map content (AdvancedGameState.action_log g2).

(** two processes whose [hash] agrees on every [str] *)
Definition same_salt (w1 w2 : World.t) : Prop :=
  forall s : string, World.hash w1 s = World.hash w2 s.

Definition same_outcome
    (r1 r2 : result (World.t * AdvancedGameState.t)) : Prop :=
  match r1, r2 with
  | Ok (w1, g1), Ok (w2, g2) => same_salt w1 w2 /\ same_game g1 g2
  | Raise e1, Raise e2 => e1 = e2
  | _, _ => False
  end.

End Observation.

(** what [reset_player] makes of a player *)
Definition reset_of (p : Player.t) : Player.t :=
  Player.mk (Player.id p) (Player.name p) (Player.resources p) 3
            (Player.services p) (Player.uptime_history p)
            (Player.current_uptime p) false (Player.average_uptime_cache p).

(** ** Proof automation *)

(** unfolds a distance between two concrete-shaped coordinates down to
    integer arithmetic *)
Ltac unfold_distance :=
  unfold HexCoordinate.distance_to, HexCoordinate.cube_coords,
         HexCoordinate.shifted;
  cbn [HexCoordinate.row HexCoordinate.col fst snd].

(** ** Spatial model, continued: [HexCoordinate.path_to] *)

(** [min(xs, key=...)] on a list already paired with its keys: the first
    element whose key is minimal; [None] for [default=None] on an empty
    list. *)
Fixpoint py_min_by {A : Type} (best : Z * A) (xs : list (Z * A)) : A :=
  match xs with
  | [] => snd best
  | x :: xs' =>
      if fst x <? fst best then py_min_by x xs' else py_min_by best xs'
  end.

Definition py_min_key {A : Type} (xs : list (Z * A)) : option A :=
  match xs with
  | [] => None
  | x :: xs' => Some (py_min_by x xs')
  end.

Module HexPath.

(** [min(neighbors, key=lambda n: n.distance_to(target), default=None)] *)
Definition closest_neighbor (current target : HexCoordinate.t)
    : option HexCoordinate.t :=
  py_min_key
    (List.map (fun n => (HexCoordinate.distance_to n target, n))
              (HexCoordinate.neighbors current 1)).

(** The [while current != target] loop of [path_to], run for at most
    [fuel] iterations; [None] when the fuel does not suffice.  A coordinate
    object is always truthy, so the [else: break] arm is taken only on
    an empty neighbour list. *)
Fixpoint path_to_loop (fuel : nat) (current target : HexCoordinate.t)
    : option (list HexCoordinate.t) :=
  if AdvancedGameState.hex_eqb current target then Some []
  else
    match fuel with
    | O => None
    | S fuel' =>
        match closest_neighbor current target with
        | Some closest =>
            option_map (cons closest) (path_to_loop fuel' closest target)
        | None => Some []
        end
    end.

(** a walk: every coordinate of the path is adjacent to the one before *)
Fixpoint is_walk (start : HexCoordinate.t) (path : list HexCoordinate.t) : Prop :=
  match path with
  | [] => True
  | n :: rest => HexCoordinate.distance_to start n = 1 /\ is_walk n rest
  end.

(** the six unit steps in cube coordinates, in the order of the two offset
    tables *)
Definition cube_directions : list (Z * Z * Z) :=
  [(0, 1, -1); (1, 0, -1); (-1, 1, 0); (1, -1, 0); (-1, 0, 1); (0, -1, 1)].

Definition cube_add (a d : Z * Z * Z) : Z * Z * Z :=
  let '(x, y, z) := a in
  let '(dx, dy, dz) := d in
  (x + dx, y + dy, z + dz).

(** [|x| + |y| + |z|], twice the hex length of a cube vector *)
Definition cube_norm (v : Z * Z * Z) : Z :=
  let '(x, y, z) := v in Z.abs x + Z.abs y + Z.abs z.

Definition cube_sub (a b : Z * Z * Z) : Z * Z * Z :=
  let '(x1, y1, z1) := a in
  let '(x2, y2, z2) := b in
  (x1 - x2, y1 - y2, z1 - z2).

End HexPath.

(** ** What a game keeps along a run *)

Module Invariants.

(** no two services of the game stand on the same hex *)
Definition unique_locations (g : AdvancedGameState.t) : Prop :=
  forall (id1 id2 : string) (s1 s2 : Service.t),
    AdvancedGameState.services g !! id1 = Some s1 ->
    AdvancedGameState.services g !! id2 = Some s2 ->
    Service.location s1 = Service.location s2 ->
    id1 = id2.

(** every id in a player's service list is a key of the services map *)
Definition listed_services_exist (g : AdvancedGameState.t) : Prop :=
  forall (p : Player.t) (id : string),
    In p (AdvancedGameState.players g) -> In id (Player.services p) ->
    is_Some (AdvancedGameState.services g !! id).

(** counter by counter, [m] is at most [m'] *)
Definition metrics_le (m m' : GameMetrics.t) : Prop :=
  GameMetrics.total_requests m <= GameMetrics.total_requests m' /\
  GameMetrics.cascade_failures m <= GameMetrics.cascade_failures m' /\
  GameMetrics.chaos_events m <= GameMetrics.chaos_events m' /\
  GameMetrics.services_built m <= GameMetrics.services_built m' /\
  GameMetrics.connections_created m <= GameMetrics.connections_created m'.

(** the action log is ordered by round and no entry is from a round
    after the current one *)
Definition log_by_round (g : AdvancedGameState.t) : Prop :=
  (forall (i j : nat) (e1 e2 : LogEntry.t),
     (i <= j)%nat ->
     AdvancedGameState.action_log g !! i = Some e1 ->
     AdvancedGameState.action_log g !! j = Some e2 ->
     LogEntry.round e1 <= LogEntry.round e2) /\
  (forall e, In e (AdvancedGameState.action_log g) ->
             LogEntry.round e <= AdvancedGameState.round g).

End Invariants.

(** ** The simulation: [simulate_game_async] and the loops it drives *)

Module Simulation.

(** the source of [uuid.uuid4()]: the ids it will hand out, and how many
    have been drawn *)
Record ids : Type := mk_ids { uuid4 : nat -> string; drawn : nat }.

Definition fresh (u : ids) : string * ids :=
  (uuid4 u (drawn u), mk_ids (uuid4 u) (S (drawn u))).

(** what the loops thread: the clock and hash salt, the id source, the
    game *)
Definition state : Type := World.t * ids * AdvancedGameState.t.

(** [Service(service_type=.., location=.., owner_id=..)]: the id comes
    from the factory, the counters start at their defaults *)
Definition new_service (u : ids) (service_type : ServiceType.t)
    (location : HexCoordinate.t) (owner_id : Z) : Service.t * ids :=
  let '(i, u') := fresh u in
  (Service.mk service_type location owner_id i 0 ∅ 0 0, u').

(** [Player(id=.., name=..)], with the [min_len(1)] validator of [name] *)
Definition new_player (id : Z) (name : string) : result Player.t :=
  if (1 <=? String.length name)%nat then Ok (Player.new id name)
  else Raise ValueError.

(** [[Player(id=i, name=name) for i, name in enumerate(names)]], counting
    from [i] *)
Fixpoint new_players (i : Z) (names : list string) : result (list Player.t) :=
  match names with
  | [] => Ok []
  | name :: rest =>
      do p <- new_player i name;
      do ps <- new_players (i + 1) rest;
      Ok (p :: ps)
  end.

(** [player.resources = r] on the player object *)
Definition with_resources (self : Player.t) (r : PlayerResources.t) : Player.t :=
  Player.mk (Player.id self) (Player.name self) r
            (Player.actions_remaining self) (Player.services self)
            (Player.uptime_history self) (Player.current_uptime self)
            (Player.character_ability_used self)
            (Player.average_uptime_cache self).

(** [itertools.product(range(h), range(w))], in the order it yields *)
Definition product_range (h w : Z) : list (Z * Z) :=
  flat_map (fun row => List.map (fun col => (row, col)) (py_range 0 w))
           (py_range 0 h).

(** [AdvancedGameState()]: every field at its default, then the model
    validator *)
Definition new_game (u : ids) : result AdvancedGameState.t * ids :=
  let '(game_id, u') := fresh u in
  (AdvancedGameState.assign true
     (AdvancedGameState.mk game_id 1 GamePhase.SETUP [] ∅ 8 6 0
                           GameMetrics.default [] 0),
   u').

(** [game.players = v] under [validate_assignment=True] *)
Definition set_players (self : AdvancedGameState.t) (v : list Player.t)
    : result AdvancedGameState.t :=
  AdvancedGameState.assign true (AdvancedGameState.with_players self v).

(** [doomed a r]: a player with [a] actions left and resources [r] who
    will come to a point where an action is left, the total is at least 4
    and a compute service cannot be paid for, however many builds succeed
    before *)
Inductive doomed : Z -> PlayerResources.t -> Prop :=
  | doomed_now (a : Z) (r : PlayerResources.t) :
      0 < a ->
      4 <= PlayerResources.total_resources r ->
      PlayerResources.can_afford r (ServiceType.costs ServiceType.COMPUTE)
      = false ->
      doomed a r
  | doomed_after_build (a : Z) (r r' : PlayerResources.t) :
      0 < a <= 6 ->
      4 <= PlayerResources.total_resources r ->
      PlayerResources.spend r (ServiceType.costs ServiceType.COMPUTE)
      = Ok (true, r') ->
      doomed (a - 1) r' ->
      doomed a r.

(** what a loop that may not return yields: [None] when the fuel ran out *)
Definition outcome : Type := option (result state).

Definition and_then (o : outcome) (k : state -> outcome) : outcome :=
  match o with
  | None => None
  | Some (Raise e) => Some (Raise e)
  | Some (Ok st) => k st
  end.

Section Loops.

Variable model_dump_str : AdvancedGameState.t -> string.

(** the [for i, service_type in enumerate(starting_types)] loop of
    [initialize_player_services], counting from [i] *)
Fixpoint initialize_from (i : Z) (types : list ServiceType.t) (player_id : Z)
    (st : state) : state :=
  match types with
  | [] => st
  | service_type :: rest =>
      let '(w, u, g) := st in
      let coord := HexCoordinate.mk (player_id * 2) (i * 2) in
      let '(service, u1) := new_service u service_type coord player_id in
      let '(_, w1, g1) :=
        AdvancedGameState.add_service model_dump_str w g service in
      initialize_from (i + 1) rest player_id (w1, u1, g1)
  end.

Definition starting_types : list ServiceType.t :=
  [ServiceType.COMPUTE; ServiceType.DATABASE; ServiceType.LOAD_BALANCER].

Definition initialize_player_services (player_id : Z) (st : state) : state :=
  initialize_from 0 starting_types player_id st.

(** The [for row, col in itertools.product(..)] loop of
    [handle_action_phase] for the player object at position [k] of
    [game.players].  A [Service] is constructed, and an id drawn, for every
    free hex the loop visits; the loop is left at the first hex where
    [spend] succeeds.  [None] at [k] cannot happen: the list is not
    resized while the phase runs. *)
Fixpoint try_build (coords : list (Z * Z)) (k : nat) (st : state)
    : result state :=
  match coords with
  | [] => Ok st
  | (row, col) :: rest =>
      let '(w, u, g) := st in
      let coord := HexCoordinate.mk row col in
      if AdvancedGameState.in_service_grid g coord then try_build rest k st
      else
        match AdvancedGameState.players g !! k with
        | None => Ok st
        | Some player =>
            let '(service, u1) :=
              new_service u ServiceType.COMPUTE coord (Player.id player) in
            let costs := ServiceType.costs (Service.service_type service) in
            do paid <- PlayerResources.spend (Player.resources player) costs;
            if fst paid then
              let g1 :=
                AdvancedGameState.with_players g
                  (alter (fun p => with_resources p (snd paid)) k
                         (AdvancedGameState.players g)) in
              let '(_, w1, g2) :=
                AdvancedGameState.add_service model_dump_str w g1 service in
              match AdvancedGameState.players g2 !! k with
              | None => Ok (w1, u1, g2)
              | Some p2 =>
                  do p3 <- Player.set_actions_remaining p2
                             (Player.actions_remaining p2 - 1);
                  Ok (w1, u1,
                      AdvancedGameState.with_players g2
                        (<[k := p3]> (AdvancedGameState.players g2)))
              end
            else try_build rest k (w, u1, g)
        end
  end.

(** The [while player.actions_remaining > 0] loop for the player at
    position [k], run for at most [fuel] iterations.  The [else: break]
    belongs to [if total_resources >= 4]. *)
Fixpoint player_turn (fuel : nat) (k : nat) (st : state) : outcome :=
  let '(w, u, g) := st in
  match AdvancedGameState.players g !! k with
  | None => Some (Ok st)
  | Some player =>
      if 0 <? Player.actions_remaining player then
        if 4 <=? PlayerResources.total_resources (Player.resources player) then
          match fuel with
          | O => None
          | S fuel' =>
              match try_build
                      (product_range (AdvancedGameState.grid_height g)
                                     (AdvancedGameState.grid_width g))
                      k st with
              | Raise e => Some (Raise e)
              | Ok st' => player_turn fuel' k st'
              end
          end
        else Some (Ok st)
      else Some (Ok st)
  end.

(** the [for player in game.players] loop, over the positions [ks] *)
Fixpoint for_players (fuel : nat) (ks : list nat) (st : state) : outcome :=
  match ks with
  | [] => Some (Ok st)
  | k :: rest =>
      and_then (player_turn fuel k st) (for_players fuel rest)
  end.

Definition handle_action_phase (fuel : nat) (st : state) : outcome :=
  for_players fuel
    (seq 0 (length (AdvancedGameState.players (snd st)))) st.

(** the tasks of [asyncio.gather]: none of them awaits, so each runs to
    its end in the order of creation *)
Fixpoint initialize_all (ps : list Player.t) (st : state) : state :=
  match ps with
  | [] => st
  | player :: rest =>
      initialize_all rest (initialize_player_services (Player.id player) st)
  end.

(** The [while not game.is_game_over()] loop, run for at most [fuel]
    iterations; the progress bar, the status display and the sleep are
    left out. *)
Fixpoint game_loop (fuel : nat) (st : state) : outcome :=
  let '(w, u, g) := st in
  if AdvancedGameState.is_game_over g then Some (Ok st)
  else
    match fuel with
    | O => None
    | S fuel' =>
        let handled : outcome :=
          match AdvancedGameState.phase g with
          | GamePhase.TRAFFIC =>
              Some (do g' <- handle_traffic_phase g; Ok (w, u, g'))
          | GamePhase.ACTION => handle_action_phase fuel' st
          | GamePhase.RESOLUTION => Some (Ok (w, u, handle_resolution_phase w g))
          | GamePhase.CHAOS =>
              Some (do g' <- handle_chaos_phase w g; Ok (w, u, g'))
          | _ => Some (Ok st)
          end in
        and_then handled
          (fun '(w1, u1, g1) =>
             match AdvancedGameState.next_phase g1 with
             | Raise e => Some (Raise e)
             | Ok g2 => game_loop fuel' (w1, u1, g2)
             end)
    end.

Definition simulate_game_async (fuel : nat) (player_names : list string)
    (w : World.t) (u : ids) : outcome :=
  let '(made, u1) := new_game u in
  match made with
  | Raise e => Some (Raise e)
  | Ok game =>
      match new_players 0 player_names with
      | Raise e => Some (Raise e)
      | Ok ps =>
          match set_players game ps with
          | Raise e => Some (Raise e)
          | Ok game1 =>
              game_loop fuel
                (initialize_all (AdvancedGameState.players game1) (w, u1, game1))
          end
      end
  end.

End Loops.

End Simulation.

(** ** The basic engine ([game_state.py]): grid, services and set-up *)

(** values stored in an action-log entry of the basic engine *)
#[warnings="-register-all"]
Inductive pyobj : Type :=
  | OStr (s : string)
  | OInt (n : Z)
  | OList (items : list pyobj)
  | ODict (items : list (string * pyobj)).

Module BasicEngine.

(** [ServiceCosts.get_costs]: every service type is a key of the table *)
Definition get_costs (service_type : ServiceType.t) : Basic.ServiceCosts.t :=
  match service_type with
  | ServiceType.COMPUTE => Basic.ServiceCosts.mk 2 2 1 5
  | ServiceType.DATABASE => Basic.ServiceCosts.mk 1 2 3 3
  | ServiceType.CACHE => Basic.ServiceCosts.mk 1 3 1 8
  | ServiceType.QUEUE => Basic.ServiceCosts.mk 1 1 2 6
  | ServiceType.LOAD_BALANCER => Basic.ServiceCosts.mk 2 1 1 10
  | ServiceType.API_GATEWAY => Basic.ServiceCosts.mk 1 1 1 7
  end.

(** The basic [HexCoordinate] is a dataclass with the same two fields;
    as a dict key it is compared and hashed as the pair [(row, col)]. *)
Module Hex.

Definition key (c : HexCoordinate.t) : Z * Z :=
  (HexCoordinate.row c, HexCoordinate.col c).

Definition neighbors (self : HexCoordinate.t) : list HexCoordinate.t :=
  let offsets :=
    if HexCoordinate.row self mod 2 =? 0
    then [(-1, -1); (-1, 0); (0, -1); (0, 1); (1, -1); (1, 0)]
    else [(-1, 0); (-1, 1); (0, -1); (0, 1); (1, 0); (1, 1)] in
  List.map (fun d => HexCoordinate.mk (HexCoordinate.row self + fst d)
                                      (HexCoordinate.col self + snd d))
           offsets.

Definition offset_to_cube (coord : HexCoordinate.t) : Z * Z * Z :=
  let x := HexCoordinate.col coord
           - (HexCoordinate.row coord - Z.land (HexCoordinate.row coord) 1) / 2 in
  let z := HexCoordinate.row coord in
  let y := - x - z in
  (x, y, z).

Definition distance (self other : HexCoordinate.t) : Z :=
  let '(x1, y1, z1) := offset_to_cube self in
  let '(x2, y2, z2) := offset_to_cube other in
  (Z.abs (x1 - x2) + Z.abs (y1 - y2) + Z.abs (z1 - z2)) / 2.

End Hex.

Module Service.

Record t : Type := mk {
  id : string;
  service_type : ServiceType.t;
  location : HexCoordinate.t;
  owner_id : Z;
  current_capacity : Z;
  max_capacity : Z;
  connections : gset string;
  bugs : Z;
  upgrades : Z
}.

Definition with_id (self : t) (v : string) : t :=
  mk v (service_type self) (location self) (owner_id self)
     (current_capacity self) (max_capacity self) (connections self)
     (bugs self) (upgrades self).

(** [__post_init__]: an empty id is replaced by a generated one *)
Definition post_init (u : Simulation.ids) (self : t) : t * Simulation.ids :=
  if String.eqb (id self) "" then
    let '(i, u') := Simulation.fresh u in (with_id self i, u')
  else (self, u).

Definition can_handle_load (self : t) (load : Z) : bool :=
  load <=? current_capacity self.

Definition add_load (self : t) (load : Z) : bool * t :=
  if can_handle_load self load then
    (true,
     mk (id self) (service_type self) (location self) (owner_id self)
        (current_capacity self - load) (max_capacity self) (connections self)
        (bugs self) (upgrades self))
  else (false, self).

Definition connect_to (self : t) (other_service_id : string) : t :=
  mk (id self) (service_type self) (location self) (owner_id self)
     (current_capacity self) (max_capacity self)
     ({[ other_service_id ]} ∪ connections self) (bugs self) (upgrades self).

End Service.

Module Grid.

Record t : Type := mk {
  width : Z;
  height : Z;
  services : gmap (Z * Z) string
}.

Definition default : t := mk 8 6 ∅.

Definition is_valid_coordinate (self : t) (coord : HexCoordinate.t) : bool :=
  (0 <=? HexCoordinate.row coord) && (HexCoordinate.row coord <? height self) &&
  ((0 <=? HexCoordinate.col coord) && (HexCoordinate.col coord <? width self)).

Definition is_empty (self : t) (coord : HexCoordinate.t) : bool :=
  match services self !! Hex.key coord with
  | Some _ => false
  | None => true
  end.

Definition place_service (self : t) (coord : HexCoordinate.t)
    (service_id : string) : bool * t :=
  if is_valid_coordinate self coord && is_empty self coord then
    (true, mk (width self) (height self)
              (<[Hex.key coord := service_id]> (services self)))
  else (false, self).

(** [self.services.pop(coord, None)] *)
Definition remove_service (self : t) (coord : HexCoordinate.t)
    : option string * t :=
  (services self !! Hex.key coord,
   mk (width self) (height self) (delete (Hex.key coord) (services self))).

Definition get_adjacent_services (self : t) (coord : HexCoordinate.t)
    : list string :=
  flat_map (fun neighbor =>
              match services self !! Hex.key neighbor with
              | Some service_id => [service_id]
              | None => []
              end)
           (Hex.neighbors coord).

End Grid.

Module Metrics.

Record t : Type := mk {
  total_requests_handled : Z;
  cascade_failures : Z;
  chaos_events_triggered : Z;
  services_built : Z;
  connections_created : Z;
  average_uptime : Q
}.

Definition default : t := mk 0 0 0 0 0 100.

Definition with_services_built (self : t) (v : Z) : t :=
  mk (total_requests_handled self) (cascade_failures self)
     (chaos_events_triggered self) v (connections_created self)
     (average_uptime self).

Definition update_average_uptime (self : t) (player_uptimes : list Q) : t :=
  match player_uptimes with
  | [] => self
  | _ :: _ =>
      mk (total_requests_handled self) (cascade_failures self)
         (chaos_events_triggered self) (services_built self)
         (connections_created self)
         (py_sum player_uptimes
          / inject_Z (Z.of_nat (length player_uptimes)))%Q
  end.

End Metrics.

Module LogEntry.

Record t : Type := mk {
  timestamp : string;
  round : Z;
  phase : string;
  action_type : string;
  player_id : Z;
  parameters : pyobj;
  result : pyobj
}.

End LogEntry.

(** [Player(id=.., name=..)]: a dataclass, nothing is validated *)
Definition new_player (id : Z) (name : string) : Basic.Player.t :=
  Basic.Player.mk id name (fun _ => 5) 3 [] [] 100%Q false.

Definition with_player_services (self : Basic.Player.t) (v : list string)
    : Basic.Player.t :=
  Basic.Player.mk (Basic.Player.id self) (Basic.Player.name self)
                  (Basic.Player.resources self)
                  (Basic.Player.actions_remaining self) v
                  (Basic.Player.uptime_history self)
                  (Basic.Player.current_uptime self)
                  (Basic.Player.character_ability_used self).

(** [xs.remove(x)]: the first occurrence goes *)
Fixpoint list_remove (x : string) (xs : list string) : list string :=
  match xs with
  | [] => []
  | y :: ys => if String.eqb y x then ys else y :: list_remove x ys
  end.

(** [x in xs] *)
Definition list_mem (x : string) (xs : list string) : bool :=
  existsb (String.eqb x) xs.

Module GameState.

Record t : Type := mk {
  game_id : string;
  round : Z;
  phase : GamePhase.t;
  players : list Basic.Player.t;
  grid : Grid.t;
  services : gmap string Service.t;
  metrics : Metrics.t;
  entropy : Z;
  current_player_index : Z;
  action_log : list LogEntry.t
}.

(** the part of the state that [next_phase], [is_game_over] and
    [get_winner] work on *)
Definition core (self : t) : Basic.GameState.t :=
  Basic.GameState.mk (round self) (phase self) (players self) (entropy self)
                     (current_player_index self).

Definition with_players (self : t) (v : list Basic.Player.t) : t :=
  mk (game_id self) (round self) (phase self) v (grid self) (services self)
     (metrics self) (entropy self) (current_player_index self)
     (action_log self).

Definition with_grid (self : t) (v : Grid.t) : t :=
  mk (game_id self) (round self) (phase self) (players self) v (services self)
     (metrics self) (entropy self) (current_player_index self)
     (action_log self).

Definition with_services (self : t) (v : gmap string Service.t) : t :=
  mk (game_id self) (round self) (phase self) (players self) (grid self) v
     (metrics self) (entropy self) (current_player_index self)
     (action_log self).

Definition with_metrics (self : t) (v : Metrics.t) : t :=
  mk (game_id self) (round self) (phase self) (players self) (grid self)
     (services self) v (entropy self) (current_player_index self)
     (action_log self).

Definition with_current_player_index (self : t) (v : Z) : t :=
  mk (game_id self) (round self) (phase self) (players self) (grid self)
     (services self) (metrics self) (entropy self) v (action_log self).

(** [self.players[self.current_player_index]] *)
Definition get_current_player (self : t) : result Basic.Player.t :=
  match py_index (players self) (current_player_index self) with
  | Some i =>
      match players self !! i with
      | Some p => Ok p
      | None => Raise IndexError
      end
  | None => Raise IndexError
  end.

(** [%] with a positive right operand is [Z.modulo]; [len] is never
    negative *)
Definition next_player (self : t) : result t :=
  let n := Z.of_nat (length (players self)) in
  if n =? 0 then Raise ZeroDivisionError
  else Ok (with_current_player_index self
             ((current_player_index self + 1) mod n)).

(** No [try] here: where the owner index is out of range the
    [IndexError] leaves the method after the grid and the services dict
    were written.  The state returned is the one the caller is left
    with. *)
Definition add_service (self : t) (service : Service.t) : t * result bool :=
  let '(placed, grid') :=
    Grid.place_service (grid self) (Service.location service)
                       (Service.id service) in
  if placed then
    let s1 := with_grid self grid' in
    let s2 := with_services s1
                (<[Service.id service := service]> (services s1)) in
    match py_index (players s2) (Service.owner_id service) with
    | None => (s2, Raise IndexError)
    | Some i =>
        let s3 :=
          with_players s2
            (alter (fun p => with_player_services p
                               (Basic.Player.services p ++ [Service.id service]))
                   i (players s2)) in
        (with_metrics s3
           (Metrics.with_services_built (metrics s3)
              (Metrics.services_built (metrics s3) + 1)),
         Ok true)
    end
  else (self, Ok false).

Definition remove_service (self : t) (service_id : string) : t * result bool :=
  match services self !! service_id with
  | None => (self, Ok false)
  | Some service =>
      let s1 :=
        with_grid self
          (snd (Grid.remove_service (grid self) (Service.location service))) in
      let s2 := with_services s1 (delete service_id (services s1)) in
      match py_index (players s2) (Service.owner_id service) with
      | None => (s2, Raise IndexError)
      | Some i =>
          match players s2 !! i with
          | None => (s2, Raise IndexError)
          | Some p =>
              if list_mem service_id (Basic.Player.services p) then
                (with_players s2
                   (<[i := with_player_services p
                             (list_remove service_id (Basic.Player.services p))]>
                      (players s2)),
                 Ok true)
              else (s2, Ok true)
          end
      end
  end.

(** [result or {}]: [None] and an empty dict both give [{}] *)
Definition result_or_empty (result : option pyobj) : pyobj :=
  match result with
  | None => ODict []
  | Some (ODict []) => ODict []
  | Some (OList []) => ODict []
  | Some (OStr EmptyString) => ODict []
  | Some (OInt 0) => ODict []
  | Some v => v
  end.

Definition log_action (w : World.t) (self : t) (action_type : string)
    (player_id : Z) (parameters : pyobj) (result : option pyobj)
    : World.t * t :=
  let '(ts, w1) := World.now_isoformat w in
  let action :=
    LogEntry.mk ts (round self) (GamePhase.value (phase self)) action_type
                player_id parameters (result_or_empty result) in
  (w1,
   mk (game_id self) (round self) (phase self) (players self) (grid self)
      (services self) (metrics self) (entropy self)
      (current_player_index self) (action_log self ++ [action])).

End GameState.

(** *** [create_initial_game_state] *)

Definition starting_positions : list HexCoordinate.t :=
  [HexCoordinate.mk 1 1; HexCoordinate.mk 1 6;
   HexCoordinate.mk 4 1; HexCoordinate.mk 4 6].

Definition starting_services : list ServiceType.t :=
  [ServiceType.COMPUTE; ServiceType.DATABASE; ServiceType.LOAD_BALANCER].

(** the players appended by the first loop, numbered from [i] *)
Fixpoint new_players (i : Z) (names : list string) : list Basic.Player.t :=
  match names with
  | [] => []
  | name :: rest => new_player i name :: new_players (i + 1) rest
  end.

(** the loop [for j, service_type in enumerate(starting_services)],
    counting from [j] *)
Fixpoint place_starting (j : Z) (types : list ServiceType.t)
    (base_coord : HexCoordinate.t) (owner_id : Z)
    (st : Simulation.ids * GameState.t)
    : result (Simulation.ids * GameState.t) :=
  match types with
  | [] => Ok st
  | service_type :: rest =>
      let '(u, g) := st in
      let coord := HexCoordinate.mk (HexCoordinate.row base_coord)
                                    (HexCoordinate.col base_coord + j) in
      if Grid.is_valid_coordinate (GameState.grid g) coord then
        let costs := get_costs service_type in
        let '(i, u1) := Simulation.fresh u in
        let '(service, u2) :=
          Service.post_init u1
            (Service.mk i service_type coord owner_id
                        (Basic.ServiceCosts.capacity costs)
                        (Basic.ServiceCosts.capacity costs) ∅ 0 0) in
        match GameState.add_service g service with
        | (g1, Ok _) => place_starting (j + 1) rest base_coord owner_id (u2, g1)
        | (_, Raise e) => Raise e
        end
      else place_starting (j + 1) rest base_coord owner_id st
  end.

(** the loop [for i, player in enumerate(game_state.players)], counting
    from [i], over the ids of the players still to visit *)
Fixpoint place_all (i : nat) (owner_ids : list Z)
    (st : Simulation.ids * GameState.t)
    : result (Simulation.ids * GameState.t) :=
  match owner_ids with
  | [] => Ok st
  | owner_id :: rest =>
      do st' <-
        match starting_positions !! i with
        | Some base_coord =>
            place_starting 0 starting_services base_coord owner_id st
        | None => Ok st
        end;
      place_all (S i) rest st'
  end.

Definition create_initial_game_state (player_names : list string)
    (w : World.t) (u : Simulation.ids)
    : result (World.t * Simulation.ids * GameState.t) :=
  let '(game_id, u0) := Simulation.fresh u in
  let g0 :=
    GameState.mk game_id 1 GamePhase.SETUP (new_players 0 player_names)
                 Grid.default ∅ Metrics.default 0 0 [] in
  do st <- place_all 0 (List.map Basic.Player.id (GameState.players g0))
                     (u0, g0);
  let '(w', g') :=
    GameState.log_action w (snd st) "game_start" (-1)
      (ODict [("players", OList (List.map OStr player_names))]) None in
  Ok (w', fst st, g').

(** the [m] hexes of row [r] from column [c] on, as grid keys *)
Fixpoint row_cells (r c : Z) (m : nat) : list (Z * Z) :=
  match m with
  | O => []
  | S m' => (r, c) :: row_cells r (c + 1) m'
  end.

(** inside the default grid of 8 columns and 6 rows *)
Definition in_default_grid (loc : Z * Z) : bool :=
  (0 <=? fst loc) && (fst loc <? 6) && ((0 <=? snd loc) && (snd loc <? 8)).

(** the hexes on which the player at position [i] gets a starting
    service: three in a row from the [i]-th starting position, as far as
    they lie in the default grid *)
Definition starting_cells (i : nat) : list (Z * Z) :=
  match starting_positions !! i with
  | Some base_coord =>
      List.filter in_default_grid
                  (row_cells (HexCoordinate.row base_coord)
                             (HexCoordinate.col base_coord)
                             (length starting_services))
  | None => []
  end.

(** what placing starting services for the player at position [i] may
    change: the ids [ids] are appended to that player's list and counted
    in [services_built]; the grid keeps its size *)
Definition placed_row (g g' : GameState.t) (i : nat) (ids : list string)
    : Prop :=
  GameState.players g'
  = alter (fun p => with_player_services p (Basic.Player.services p ++ ids))
          i (GameState.players g) /\
  Metrics.services_built (GameState.metrics g')
  = Metrics.services_built (GameState.metrics g) + Z.of_nat (length ids) /\
  Grid.width (GameState.grid g') = Grid.width (GameState.grid g) /\
  Grid.height (GameState.grid g') = Grid.height (GameState.grid g) /\
  GameState.game_id g' = GameState.game_id g /\
  GameState.round g' = GameState.round g /\
  GameState.phase g' = GameState.phase g /\
  GameState.entropy g' = GameState.entropy g /\
  GameState.current_player_index g' = GameState.current_player_index g /\
  GameState.action_log g' = GameState.action_log g.

(** the grid is the index of the services by location: a hex holds an id
    exactly when the service stored under that id stands there *)
Definition grid_in_step (g : GameState.t) : Prop :=
  forall (loc : Z * Z) (service_id : string),
    Grid.services (GameState.grid g) !! loc = Some service_id <->
    exists s, GameState.services g !! service_id = Some s /\
              Hex.key (Service.location s) = loc.

End BasicEngine.

(** [k] successive calls of the basic [next_player] *)
Fixpoint basic_next_player_n (k : nat) (g : BasicEngine.GameState.t)
    : result BasicEngine.GameState.t :=
  match k with
  | O => Ok g
  | S k' => do g' <- basic_next_player_n k' g; BasicEngine.GameState.next_player g'
  end.
(** ** Sample values *)

Module Samples.

(** a fresh compute service at [(0, 0)] owned by player 0 *)
Definition compute_service : Service.t :=
  Service.mk ServiceType.COMPUTE (HexCoordinate.mk 0 0) 0 "svc1" 0 ∅ 0 0.

(** [Service(service_type=ServiceType.DATABASE, location=HexCoordinate(0, 0),
    owner_id=0, id="db", bugs=5)]: capacity 3, five bugs *)
Definition buggy_database : Service.t :=
  Service.mk ServiceType.DATABASE (HexCoordinate.mk 0 0) 0 "db" 0 ∅ 5 0.

(** [Player(id=0, name="Alice")], who owns no service yet *)
Definition alice : Player.t := Player.new 0 "Alice".

(** Alice once she owns the service ["svc1"] *)
Definition alice_with_service : Player.t :=
  Player.with_services alice ["svc1"].

Definition bob : Player.t := Player.new 1 "Bob".

(** a new game on the default 8 x 6 grid with Alice and Bob *)
Definition new_game : AdvancedGameState.t :=
  AdvancedGameState.mk "game-1" 1 GamePhase.SETUP [alice; bob] ∅ 8 6 0
                       GameMetrics.default [] 0.

(** the game after Alice has built [compute_service] at [(0, 0)] *)
Definition game_with_service : AdvancedGameState.t :=
  AdvancedGameState.mk "game-1" 1 GamePhase.SETUP [alice_with_service; bob]
                       {[ "svc1" := compute_service ]} 8 6 0
                       (GameMetrics.mk 0 0 0 1 0) [] 0.

(** a second service aimed at the same hex *)
Definition second_service : Service.t :=
  Service.mk ServiceType.CACHE (HexCoordinate.mk 0 0) 1 "svc2" 0 ∅ 0 0.

(** the same game in its Chaos phase with [entropy = 10] *)
Definition chaos_game_entropy_10 : AdvancedGameState.t :=
  AdvancedGameState.mk "game-1" 1 GamePhase.CHAOS [alice; bob] ∅ 8 6 10
                       GameMetrics.default [] 0.

(** a service for a player that does not exist: [owner_id = 7] *)
Definition orphan_service : Service.t :=
  Service.mk ServiceType.COMPUTE (HexCoordinate.mk 1 1) 7 "svc7" 0 ∅ 0 0.

(** two processes: same hash salt, clocks that read differently *)
Definition morning : World.t :=
  World.mk (fun _ => "2025-01-01T09:00:00") 0
           (fun s => Z.of_nat (String.length s)).

Definition evening : World.t :=
  World.mk (fun _ => "2025-01-01T21:00:00") 0
           (fun s => Z.of_nat (String.length s)).

(** a stand-in for the text of the model dump *)
Definition dump (g : AdvancedGameState.t) : string :=
  py_str_int (AdvancedGameState.round g).

(** three players with [current_uptime] 85, 82 and 88 *)
Definition ann : Player.t :=
  Player.mk 0 "Ann" PlayerResources.default 3 [] [] 85 false None.
Definition ben : Player.t :=
  Player.mk 1 "Ben" PlayerResources.default 3 [] [] 82 false None.
Definition cat : Player.t :=
  Player.mk 2 "Cat" PlayerResources.default 3 [] [] 88 false None.

(** a game that is over ([phase = "end"]) at round 10 with these three *)
Definition finished_game : AdvancedGameState.t :=
  AdvancedGameState.mk "game-2" 10 GamePhase.END [ann; ben; cat] ∅ 8 6 0
                       GameMetrics.default [] 0.

(** the same three players in the basic engine, the game being over
    because round 21 has been reached *)
Definition basic_player (id : Z) (name : string) (uptime : Q) : Basic.Player.t :=
  Basic.Player.mk id name (fun _ => 5) 3 [] [] uptime false.

Definition basic_finished_game : Basic.GameState.t :=
  Basic.GameState.mk 21 GamePhase.TRAFFIC
    [basic_player 0 "Ann" 85; basic_player 1 "Ben" 82; basic_player 2 "Cat" 88]
    0 0.

End Samples.


(** ** Sample values, continued *)

Module Samples2.

(** a short run of a new game: one build, one phase change, one traffic
    phase *)
Definition actions : list action :=
  [AddService Samples.compute_service; NextPhase; HandleTraffic].

(** where that run ends when it starts in the morning *)
Definition final : World.t * AdvancedGameState.t :=
  match run Samples.dump (Samples.morning, Samples.new_game) actions with
  | Ok wg => wg
  | Raise _ => (Samples.morning, Samples.new_game)
  end.

End Samples2.

Module Samples3.

(** an id source that hands out ["id-0"], ["id-1"], ... *)
Definition ids : Simulation.ids :=
  Simulation.mk_ids (fun n => String.append "id-" (py_str_int (Z.of_nat n))) 0.

(** Alice after two builds: 1 CPU, 1 memory, 3 storage and one action
    left *)
Definition spent_alice : Player.t :=
  Player.mk 0 "Alice" (PlayerResources.mk 1 1 3) 1 [] [] 100%Q false None.

(** a game in its action phase whose first player is [spent_alice] *)
Definition stuck_game : AdvancedGameState.t :=
  AdvancedGameState.mk "game-1" 1 GamePhase.ACTION
                       [spent_alice; Samples.bob] ∅ 8 6 0
                       GameMetrics.default [] 0.

(** a new game on the default grid with four players: the starting
    services of players 0 to 3 go to the rows 0, 2, 4 and 6, and the grid
    has six rows *)
Definition carol : Player.t := Player.new 2 "Carol".
Definition dave : Player.t := Player.new 3 "Dave".

Definition four_player_game : AdvancedGameState.t :=
  AdvancedGameState.mk "game-3" 1 GamePhase.SETUP
                       [Samples.alice; Samples.bob; carol; dave] ∅ 8 6 0
                       GameMetrics.default [] 0.

End Samples3.

Module Samples4.

(** a basic game with two players and nothing built *)
Definition basic_game : BasicEngine.GameState.t :=
  BasicEngine.GameState.mk "game-4" 1 GamePhase.SETUP
    [BasicEngine.new_player 0 "Alice"; BasicEngine.new_player 1 "Bob"]
    BasicEngine.Grid.default ∅ BasicEngine.Metrics.default 0 0 [].

(** a compute service for Alice at [(1, 1)] *)
Definition basic_service : BasicEngine.Service.t :=
  BasicEngine.Service.mk "svc1" ServiceType.COMPUTE (HexCoordinate.mk 1 1) 0
                         5 5 ∅ 0 0.

End Samples4.

Module Samples5.

(** a basic game that ended after round 20 with uptimes of 60 and 70 *)
Definition tired_player (id : Z) (name : string) (uptime : Q)
    (services : list string) : Basic.Player.t :=
  Basic.Player.mk id name (fun _ => 5) 3 services [] uptime false.

Definition tired_game : Basic.GameState.t :=
  Basic.GameState.mk 21 GamePhase.TRAFFIC
    [tired_player 0 "Ann" 60 ["a1"]; tired_player 1 "Ben" 70 ["b1"; "b2"]]
    0 0.

End Samples5.
(** * Properties *)

(** ** Spatial model *)

Lemma land_1_parity (r : Z) : Z.land r 1 = r mod 2.
Proof. exact (Z.land_ones r 1 ltac:(lia)). Qed.

Lemma cube_x_floor (r : Z) : (r - r mod 2) / 2 = r / 2.
Proof. Z.to_euclidean_division_equations; lia. Qed.

Lemma half_is_one (s : Z) : s / 2 = 1 -> s = 2 \/ s = 3.
Proof. intros H. Z.to_euclidean_division_equations; lia. Qed.

Lemma parity_split (r : Z) :
  exists a, (r = 2 * a /\ r mod 2 = 0 /\ r / 2 = a) \/
            (r = 2 * a + 1 /\ r mod 2 = 1 /\ r / 2 = a).
Proof. exists (r / 2). Z.to_euclidean_division_equations; lia. Qed.

Lemma in_py_range (lo hi k : Z) : In k (py_range lo hi) <-> lo <= k < hi.
Proof. unfold py_range. rewrite <- list_elem_of_In, elem_of_seqZ. lia. Qed.

(** what the generator yields: every table offset scaled by every
    [k = 1 .. radius] *)
Lemma in_neighbors (c n : HexCoordinate.t) (radius : Z) :
  In n (HexCoordinate.neighbors c radius) <->
  exists k d, 1 <= k <= radius /\ In d (HexCoordinate.base_offsets c) /\
              n = HexCoordinate.shifted c k d.
Proof.
  unfold HexCoordinate.neighbors. rewrite in_flat_map. split.
  - intros (k & Hk & Hn). apply in_map_iff in Hn as (d & <- & Hd).
    apply in_py_range in Hk. exists k, d. repeat split; [lia | lia | done].
  - intros (k & d & Hk & Hd & ->). exists k. split.
    + apply in_py_range. lia.
    + apply in_map. exact Hd.
Qed.

Lemma distance_of_neighbor (c : HexCoordinate.t) (d : Z * Z) :
  In d (HexCoordinate.base_offsets c) ->
  HexCoordinate.distance_to c (HexCoordinate.shifted c 1 d) = 1.
Proof.
  destruct c as [r q]. unfold HexCoordinate.base_offsets.
  cbn [HexCoordinate.row]. intros Hd.
  destruct (Z.eqb_spec (r mod 2) 0) as [He | Ho];
    cbn in Hd; intuition subst; unfold_distance;
    rewrite ?land_1_parity, ?cube_x_floor;
    Z.to_euclidean_division_equations; lia.
Qed.

Lemma neighbor_of_distance (c n : HexCoordinate.t) :
  HexCoordinate.distance_to c n = 1 ->
  exists d, In d (HexCoordinate.base_offsets c) /\ n = HexCoordinate.shifted c 1 d.
Proof.
  destruct c as [r q], n as [r' q']. unfold HexCoordinate.base_offsets.
  unfold_distance. rewrite ?land_1_parity, ?cube_x_floor.
  intros Hdist%half_is_one.
  destruct (parity_split r) as (a & [(Hr & Hm & Hd) | (Hr & Hm & Hd)]);
  destruct (parity_split r') as (a' & [(Hr' & Hm' & Hd') | (Hr' & Hm' & Hd')]);
  rewrite Hm; rewrite Hd, Hd' in Hdist; clear Hm Hm' Hd Hd'; cbn [Z.eqb];
  unfold HexCoordinate.shifted; cbn [HexCoordinate.row HexCoordinate.col].
  - assert (Hc : r' = r /\ q' = q - 1 \/ r' = r /\ q' = q + 1) by lia.
    destruct Hc as [[-> ->] | [-> ->]];
      [ exists (0, -1) | exists (0, 1) ];
      (split; [cbn; tauto | cbn [fst snd]; f_equal; lia]).
  - assert (Hc : r' = r - 1 /\ q' = q - 1 \/ r' = r - 1 /\ q' = q \/
                 r' = r + 1 /\ q' = q - 1 \/ r' = r + 1 /\ q' = q) by lia.
    destruct Hc as [[-> ->] | [[-> ->] | [[-> ->] | [-> ->]]]];
      [ exists (-1, -1) | exists (-1, 0) | exists (1, -1) | exists (1, 0) ];
      (split; [cbn; tauto | cbn [fst snd]; f_equal; lia]).
  - assert (Hc : r' = r - 1 /\ q' = q \/ r' = r - 1 /\ q' = q + 1 \/
                 r' = r + 1 /\ q' = q \/ r' = r + 1 /\ q' = q + 1) by lia.
    destruct Hc as [[-> ->] | [[-> ->] | [[-> ->] | [-> ->]]]];
      [ exists (-1, 0) | exists (-1, 1) | exists (1, 0) | exists (1, 1) ];
      (split; [cbn; tauto | cbn [fst snd]; f_equal; lia]).
  - assert (Hc : r' = r /\ q' = q - 1 \/ r' = r /\ q' = q + 1) by lia.
    destruct Hc as [[-> ->] | [-> ->]];
      [ exists (0, -1) | exists (0, 1) ];
      (split; [cbn; tauto | cbn [fst snd]; f_equal; lia]).
Qed.

(** C8, as stated, fails: with [radius = 2] the generator also yields the
    hexes of [radius = 1].  At [c = (0, 0)] it yields [(-1, -1)], which is
    at distance 1 from [c], not 2. *)
Lemma neighbors_radius_2_not_at_distance_2 :
  ~ (forall (c n : HexCoordinate.t) (radius : Z),
       1 <= radius ->
       In n (HexCoordinate.neighbors c radius) ->
       HexCoordinate.distance_to c n = radius).
Proof.
  intros H.
  specialize (H (HexCoordinate.mk 0 0) (HexCoordinate.mk (-1) (-1)) 2).
  assert (Hd : HexCoordinate.distance_to (HexCoordinate.mk 0 0)
                 (HexCoordinate.mk (-1) (-1)) = 1) by reflexivity.
  rewrite Hd in H. enough (1 = 2) by lia.
  apply H; [lia | vm_compute; tauto].
Qed.

(** C8, amended: [neighbors(c, radius=1)] yields exactly the hexes at
    distance 1 from [c]; for any radius the generator yields, for each
    [k = 1 .. radius], the six offsets of the row-parity table scaled by
    [k] (so the hexes of radius 1 are always among them). *)
Theorem neighbors_radius_1_is_ring_1 :
  (forall c n : HexCoordinate.t,
     In n (HexCoordinate.neighbors c 1) <-> HexCoordinate.distance_to c n = 1) /\
  (forall (c n : HexCoordinate.t) (radius : Z),
     In n (HexCoordinate.neighbors c radius) <->
     exists k d, 1 <= k <= radius /\ In d (HexCoordinate.base_offsets c) /\
                 n = HexCoordinate.shifted c k d).
Proof.
  split; [| exact in_neighbors].
  intros c n. rewrite in_neighbors. split.
  - intros (k & d & Hk & Hd & ->). assert (k = 1) as -> by lia.
    by apply distance_of_neighbor.
  - intros (d & Hd & ->)%neighbor_of_distance. exists 1, d.
    repeat split; [lia | lia | done].
Qed.

(** ** Resource economy *)

Lemma in_bounds_true (v : Z) : 0 <= v <= 100 -> PlayerResources.in_bounds v = true.
Proof. unfold PlayerResources.in_bounds. lia. Qed.

(** C5: [spend] is atomic.  On a pool and a cost record that satisfy their
    declared field constraints: when the pool has at least the cost in
    every dimension, [spend] returns true and subtracts exactly the cost
    from each of cpu, memory and storage; otherwise it returns false with
    the pool unchanged, and [can_afford] is false as well.  No exception is
    raised in either case. *)
Theorem spend_atomic (pool : PlayerResources.t) (costs : ResourceCosts.t) :
  PlayerResources.valid pool ->
  ResourceCosts.valid costs ->
  (ResourceCosts.cpu costs <= PlayerResources.cpu pool /\
   ResourceCosts.memory costs <= PlayerResources.memory pool /\
   ResourceCosts.storage costs <= PlayerResources.storage pool ->
   PlayerResources.spend pool costs
   = Ok (true,
         PlayerResources.mk
           (PlayerResources.cpu pool - ResourceCosts.cpu costs)
           (PlayerResources.memory pool - ResourceCosts.memory costs)
           (PlayerResources.storage pool - ResourceCosts.storage costs))) /\
  (~ (ResourceCosts.cpu costs <= PlayerResources.cpu pool /\
      ResourceCosts.memory costs <= PlayerResources.memory pool /\
      ResourceCosts.storage costs <= PlayerResources.storage pool) ->
   PlayerResources.spend pool costs = Ok (false, pool) /\
   PlayerResources.can_afford pool costs = false).
Proof.
  intros (Hc & Hm & Hs) (Kc & Km & Ks & _).
  unfold PlayerResources.spend, PlayerResources.can_afford. split.
  - intros (Ac & Am & As).
    replace (_ && _ && _) with true by lia.
    unfold PlayerResources.set_cpu. rewrite in_bounds_true by lia. cbn.
    unfold PlayerResources.set_memory. cbn. rewrite in_bounds_true by lia. cbn.
    unfold PlayerResources.set_storage. cbn. rewrite in_bounds_true by lia.
    reflexivity.
  - intros Hnot.
    replace (_ && _ && _) with false by lia. done.
Qed.

Lemma spend_atomic_witness :
  PlayerResources.valid PlayerResources.default /\
  ResourceCosts.valid (ServiceType.costs ServiceType.COMPUTE) /\
  PlayerResources.spend PlayerResources.default
    (ServiceType.costs ServiceType.COMPUTE)
  = Ok (true, PlayerResources.mk 3 3 4).
Proof.
  assert (Hp : PlayerResources.valid PlayerResources.default)
    by (unfold PlayerResources.valid; cbn; lia).
  assert (Hc : ResourceCosts.valid (ServiceType.costs ServiceType.COMPUTE))
    by (unfold ResourceCosts.valid; cbn; lia).
  split; [exact Hp |]. split; [exact Hc |].
  apply (proj1 (spend_atomic PlayerResources.default
                  (ServiceType.costs ServiceType.COMPUTE) Hp Hc)).
  cbn. lia.
Defined.

(** X8: the basic engine's [spend_resources] has the same two outcomes: it
    subtracts the whole cost when [can_afford] holds and changes nothing
    otherwise. *)
Lemma basic_spend_resources_atomic (p : Basic.Player.t) (costs : Basic.ServiceCosts.t) :
  (Basic.Player.can_afford p costs = true ->
   exists p', Basic.Player.spend_resources p costs = (true, p') /\
     Basic.Player.resources p' Basic.CPU
       = Basic.Player.resources p Basic.CPU - Basic.ServiceCosts.cpu costs /\
     Basic.Player.resources p' Basic.MEMORY
       = Basic.Player.resources p Basic.MEMORY - Basic.ServiceCosts.memory costs /\
     Basic.Player.resources p' Basic.STORAGE
       = Basic.Player.resources p Basic.STORAGE - Basic.ServiceCosts.storage costs) /\
  (Basic.Player.can_afford p costs = false ->
   Basic.Player.spend_resources p costs = (false, p)).
Proof.
  unfold Basic.Player.spend_resources. split; intros ->; [| done].
  eexists. split; [reflexivity |]. cbn. done.
Qed.

(** ** Services *)

(** C6, as stated, fails in its last part: [add_load(0)] succeeds on any
    service, also on one whose bugs already exceed its capacity.  For a
    database service (capacity 3) with 5 bugs, [add_load(0)] returns true
    and leaves [current_load + bugs = 5 > 3]. *)
Lemma add_load_zero_on_overloaded_service :
  ~ (forall (svc svc' : Service.t) (n : Z),
       0 <= n -> Service.valid svc ->
       Service.add_load svc n = Ok (true, svc') ->
       Service.current_load svc' + Service.bugs svc'
       <= ResourceCosts.capacity (ServiceType.costs (Service.service_type svc'))
          + Service.upgrades svc' * 2).
Proof.
  intros H.
  pose (svc := Samples.buggy_database).
  specialize (H svc svc 0).
  assert (Hbad : Service.current_load svc + Service.bugs svc
                 <= ResourceCosts.capacity
                      (ServiceType.costs (Service.service_type svc))
                    + Service.upgrades svc * 2).
  { apply H; [lia | unfold Service.valid; cbn; lia | reflexivity]. }
  cbn in Hbad. lia.
Qed.

(** C6, amended: for a service whose counters are non-negative and a load
    [n >= 0], [add_load(n)] returns true and adds exactly [n] to
    [current_load] when [available_capacity >= n], and returns false with
    the service unchanged otherwise ([available_capacity] being
    [max(0, max_capacity - current_load - bugs)]); after a successful
    [add_load(n)] with [n >= 1], or on a service that was within its
    capacity before, [current_load + bugs <= base_capacity(type) +
    upgrades * 2]. *)
Theorem add_load_iff_capacity (svc : Service.t) (n : Z) :
  0 <= n ->
  Service.valid svc ->
  Service.available_capacity svc
  = Z.max 0 (Service.max_capacity svc - Service.current_load svc - Service.bugs svc) /\
  (n <= Service.available_capacity svc ->
   Service.add_load svc n
   = Ok (true,
         Service.mk (Service.service_type svc) (Service.location svc)
           (Service.owner_id svc) (Service.id svc)
           (Service.current_load svc + n)
           (Service.connections svc) (Service.bugs svc) (Service.upgrades svc))) /\
  (Service.available_capacity svc < n ->
   Service.add_load svc n = Ok (false, svc)) /\
  (forall svc',
     Service.add_load svc n = Ok (true, svc') ->
     1 <= n \/ Service.current_load svc + Service.bugs svc <= Service.max_capacity svc ->
     Service.current_load svc' + Service.bugs svc'
     <= ResourceCosts.capacity (ServiceType.costs (Service.service_type svc'))
        + Service.upgrades svc' * 2).
Proof.
  intros Hn (Hl & Hb & Hu).
  assert (Hyes : n <= Service.available_capacity svc ->
            Service.add_load svc n
            = Ok (true,
                  Service.mk (Service.service_type svc) (Service.location svc)
                    (Service.owner_id svc) (Service.id svc)
                    (Service.current_load svc + n)
                    (Service.connections svc) (Service.bugs svc)
                    (Service.upgrades svc))).
  { intros Hcap. unfold Service.add_load, Service.can_handle_load.
    replace (n <=? _) with true by lia.
    unfold Service.set_current_load.
    replace (0 <=? _) with true by lia. reflexivity. }
  assert (Hno : Service.available_capacity svc < n ->
            Service.add_load svc n = Ok (false, svc)).
  { intros Hcap. unfold Service.add_load, Service.can_handle_load.
    replace (n <=? _) with false by lia. reflexivity. }
  split; [| split; [exact Hyes | split; [exact Hno |]]].
  - unfold Service.available_capacity. f_equal. lia.
  - intros svc' Hadd Hpre.
    destruct (Z_le_gt_dec n (Service.available_capacity svc)) as [Hcap | Hcap].
    + rewrite (Hyes Hcap) in Hadd. injection Hadd as <-.
      cbn [Service.current_load Service.bugs Service.upgrades Service.service_type].
      unfold Service.available_capacity, Service.max_capacity in *. lia.
    + rewrite Hno in Hadd by lia. discriminate.
Qed.

Lemma add_load_iff_capacity_witness :
  0 <= 2 /\ Service.valid Samples.compute_service /\
  Service.add_load Samples.compute_service 2
  = Ok (true, Service.mk ServiceType.COMPUTE (HexCoordinate.mk 0 0) 0
                         "svc1" 2 ∅ 0 0).
Proof.
  pose (svc := Samples.compute_service).
  assert (Hv : Service.valid svc) by (unfold Service.valid; cbn; lia).
  split; [lia |]. split; [exact Hv |].
  apply (proj1 (proj2 (add_load_iff_capacity svc 2 ltac:(lia) Hv))).
  apply Z.leb_le. reflexivity.
Defined.

(** ** Players *)

Lemma compute_average_uptime_spec (p : Player.t) :
  Player.compute_average_uptime p = Spec.average_uptime p.
Proof.
  unfold Player.compute_average_uptime, Spec.average_uptime.
  by destruct (Player.uptime_history p).
Qed.

Lemma performance_score_no_services (p : Player.t) :
  Player.services p = [] -> Player.performance_score p = (0%Q, p).
Proof. unfold Player.performance_score. by intros ->. Qed.

(** the score of a player who owns a service, whatever the cache holds *)
Lemma performance_score_with_services (p : Player.t) :
  Player.services p <> [] ->
  fst (Player.performance_score p)
  == Player.current_uptime p * inject_Z (Z.of_nat (length (Player.services p)))
     + (1 # 10) * fst (Player.average_uptime p)
     + (5 # 100) * inject_Z (PlayerResources.total_resources (Player.resources p)).
Proof.
  intros Hs. unfold Player.performance_score.
  destruct (Z.eqb_spec (Z.of_nat (length (Player.services p))) 0) as [He | _].
  { destruct (Player.services p); [done | cbn in He; lia]. }
  assert (Hres : Player.resources (snd (Player.average_uptime p))
                 = Player.resources p).
  { unfold Player.average_uptime. by destruct (Player.average_uptime_cache p). }
  destruct (Player.average_uptime p) as [avg p'] eqn:Havg.
  cbn [fst snd fold_left] in *. rewrite Hres. ring.
Qed.

(** C7, as stated, fails for a player without services: the score is
    then [0.0], not [0.1 * average_uptime + 0.05 * total_resources].  For a
    new player (uptime 100, resources 5/5/5) the formula gives 10.75. *)
Lemma performance_score_zero_services_not_formula :
  ~ (forall p : Player.t,
       fst (Player.performance_score p) == Spec.performance_score p).
Proof.
  intros H. specialize (H Samples.alice). vm_compute in H. discriminate H.
Qed.

(** C7, amended: a player who owns no service has [performance_score]
    [0.0]; for a player who owns at least one service, and whose
    [average_uptime] has not been read (and so cached) before,
    [performance_score] equals [current_uptime * owned_service_count
    + 0.1 * average_uptime + 0.05 * total_resources], where
    [average_uptime] is the mean of the uptime history and falls back to
    [current_uptime] when the history is empty. *)
Theorem performance_score_amended (p : Player.t) :
  (Player.services p = [] -> fst (Player.performance_score p) = 0%Q) /\
  (Player.services p <> [] ->
   Player.average_uptime_cache p = None ->
   fst (Player.performance_score p) == Spec.performance_score p).
Proof.
  split.
  - intros Hs. by rewrite performance_score_no_services.
  - intros Hs Hcache. rewrite performance_score_with_services by done.
    unfold Player.average_uptime. rewrite Hcache. cbn [fst].
    rewrite compute_average_uptime_spec. reflexivity.
Qed.

Lemma performance_score_amended_witness :
  Player.services Samples.alice_with_service <> [] /\
  Player.average_uptime_cache Samples.alice_with_service = None /\
  fst (Player.performance_score Samples.alice_with_service)
  == Spec.performance_score Samples.alice_with_service.
Proof.
  assert (Hs : Player.services Samples.alice_with_service <> []) by discriminate.
  assert (Hc : Player.average_uptime_cache Samples.alice_with_service = None)
    by reflexivity.
  split; [exact Hs |]. split; [exact Hc |].
  exact (proj2 (performance_score_amended Samples.alice_with_service) Hs Hc).
Defined.

(** X2: [record_uptime(v)] sets [current_uptime] to [v] and pushes [v] onto
    the history, which never grows beyond its 50 entries: a full history
    loses its oldest entry. *)
Theorem record_uptime_bounded_history (p : Player.t) (v : Q) :
  (length (Player.uptime_history p) <= 50)%nat ->
  Player.current_uptime (Player.record_uptime p v) = v /\
  (length (Player.uptime_history (Player.record_uptime p v)) <= 50)%nat /\
  last (Player.uptime_history (Player.record_uptime p v)) = Some v /\
  ((length (Player.uptime_history p) < 50)%nat ->
   Player.uptime_history (Player.record_uptime p v)
   = Player.uptime_history p ++ [v]) /\
  (length (Player.uptime_history p) = 50%nat ->
   Player.uptime_history (Player.record_uptime p v)
   = drop 1 (Player.uptime_history p) ++ [v]).
Proof.
  intros Hlen. cbn [Player.record_uptime Player.current_uptime
                    Player.uptime_history].
  unfold Player.deque_append.
  split; [reflexivity |].
  destruct (Nat.leb_spec 50 (length (Player.uptime_history p))) as [Hfull | Hroom].
  - split; [rewrite length_app, length_drop; cbn; lia |].
    split; [apply last_snoc |]. split; [lia | done].
  - split; [rewrite length_app; cbn; lia |].
    split; [apply last_snoc |]. split; [done | lia].
Qed.

Lemma record_uptime_bounded_history_witness :
  (length (Player.uptime_history Samples.alice) <= 50)%nat /\
  Player.current_uptime (Player.record_uptime Samples.alice 90) = 90%Q /\
  Player.uptime_history (Player.record_uptime Samples.alice 90) = [90%Q].
Proof.
  assert (Hlen : (length (Player.uptime_history Samples.alice) <= 50)%nat)
    by (cbn; lia).
  split; [exact Hlen |].
  destruct (record_uptime_bounded_history Samples.alice 90 Hlen)
    as (Hcur & _ & _ & Hroom & _).
  split; [exact Hcur |]. apply Hroom. cbn. lia.
Defined.

(** ** Metrics *)


(** ** Validated assignments on the game state *)

Lemma set_phase_ok (g : AdvancedGameState.t) (p : GamePhase.t) :
  AdvancedGameState.validate_game_state g = true ->
  AdvancedGameState.set_phase g p
  = Ok (AdvancedGameState.mk
          (AdvancedGameState.game_id g) (AdvancedGameState.round g) p
          (AdvancedGameState.players g) (AdvancedGameState.services g)
          (AdvancedGameState.grid_width g) (AdvancedGameState.grid_height g)
          (AdvancedGameState.entropy g) (AdvancedGameState.metrics g)
          (AdvancedGameState.action_log g)
          (AdvancedGameState.current_player_index g)).
Proof.
  intros Hv. unfold AdvancedGameState.set_phase, AdvancedGameState.assign.
  replace (AdvancedGameState.validate_game_state _) with true; done.
Qed.

Lemma set_round_ok (g : AdvancedGameState.t) (v : Z) :
  AdvancedGameState.validate_game_state g = true -> 1 <= v <= 50 ->
  AdvancedGameState.set_round g v
  = Ok (AdvancedGameState.mk
          (AdvancedGameState.game_id g) v (AdvancedGameState.phase g)
          (AdvancedGameState.players g) (AdvancedGameState.services g)
          (AdvancedGameState.grid_width g) (AdvancedGameState.grid_height g)
          (AdvancedGameState.entropy g) (AdvancedGameState.metrics g)
          (AdvancedGameState.action_log g)
          (AdvancedGameState.current_player_index g)).
Proof.
  intros Hv Hr. unfold AdvancedGameState.set_round, AdvancedGameState.assign.
  replace (AdvancedGameState.validate_game_state _) with true by done.
  replace ((1 <=? v) && (v <=? 50)) with true by lia. done.
Qed.

Lemma set_entropy_ok (g : AdvancedGameState.t) (v : Z) :
  AdvancedGameState.validate_game_state g = true -> 0 <= v <= 20 ->
  AdvancedGameState.set_entropy g v
  = Ok (AdvancedGameState.mk
          (AdvancedGameState.game_id g) (AdvancedGameState.round g)
          (AdvancedGameState.phase g)
          (AdvancedGameState.players g) (AdvancedGameState.services g)
          (AdvancedGameState.grid_width g) (AdvancedGameState.grid_height g)
          v (AdvancedGameState.metrics g)
          (AdvancedGameState.action_log g)
          (AdvancedGameState.current_player_index g)).
Proof.
  intros Hv Hr. unfold AdvancedGameState.set_entropy, AdvancedGameState.assign.
  replace (AdvancedGameState.validate_game_state _) with true by done.
  replace ((0 <=? v) && (v <=? 20)) with true by lia. done.
Qed.

(** ** Chaos engine *)

(** C3, as stated, fails: the cap written in [handle_chaos_phase] is 10,
    not 20.  From [entropy = 10] a Chaos phase leaves [entropy = 10],
    where [min(20, entropy + 1)] is 11. *)
Lemma chaos_entropy_cap_is_not_20 :
  ~ (forall (w : World.t) (g g' : AdvancedGameState.t),
       AdvancedGameState.valid g ->
       GameMetrics.valid (AdvancedGameState.metrics g) ->
       handle_chaos_phase w g = Ok g' ->
       AdvancedGameState.entropy g'
       = Z.min 20 (AdvancedGameState.entropy g + 1)).
Proof.
  intros H.
  specialize (H Samples.morning Samples.chaos_game_entropy_10
                (AdvancedGameState.mk "game-1" 1 GamePhase.CHAOS
                   [Samples.alice; Samples.bob] ∅ 8 6 10
                   (GameMetrics.mk 0 0 1 0 0) [] 0)).
  assert (Hbad : 10 = Z.min 20 (10 + 1)).
  { apply H.
    - split; [unfold AdvancedGameState.fields_valid; cbn; lia | reflexivity].
    - unfold GameMetrics.valid; cbn; lia.
    - vm_compute. reflexivity. }
  lia.
Qed.

(** C3, amended: on a validated game state, every Chaos phase completes
    and updates the entropy counter exactly once, in both branches, to
    [min(10, entropy + 1)]; nothing but the entropy and the metrics
    changes.  Consequently entropy is at most 10 (hence at most 20) after a
    Chaos phase, and increases by exactly 1 per Chaos phase while it is
    below 10. *)
Theorem handle_chaos_phase_entropy (w : World.t) (g : AdvancedGameState.t) :
  AdvancedGameState.valid g ->
  GameMetrics.valid (AdvancedGameState.metrics g) ->
  exists g',
    handle_chaos_phase w g = Ok g' /\
    AdvancedGameState.entropy g' = Z.min 10 (AdvancedGameState.entropy g + 1) /\
    g' = AdvancedGameState.mk
           (AdvancedGameState.game_id g) (AdvancedGameState.round g)
           (AdvancedGameState.phase g)
           (AdvancedGameState.players g) (AdvancedGameState.services g)
           (AdvancedGameState.grid_width g) (AdvancedGameState.grid_height g)
           (Z.min 10 (AdvancedGameState.entropy g + 1))
           (AdvancedGameState.metrics g')
           (AdvancedGameState.action_log g)
           (AdvancedGameState.current_player_index g) /\
    AdvancedGameState.entropy g' <= 10 /\
    (AdvancedGameState.entropy g < 10 ->
     AdvancedGameState.entropy g' = AdvancedGameState.entropy g + 1).
Proof.
  intros ((Hr & Hw & Hh & He & Hi) & Hv) (Mt & Mc & Me & Ms & Mn).
  unfold handle_chaos_phase.
  destruct (3 <? AdvancedGameState.entropy g).
  - set (roll := World.hash w _ mod 8 + 1).
    set (m := AdvancedGameState.metrics g) in *.
    assert (Hm1 : exists m1,
               (if (roll =? 7) || (roll =? 8)
                then GameMetrics.set_cascade_failures m
                       (GameMetrics.cascade_failures m + 1)
                else Ok m) = Ok m1 /\ 0 <= GameMetrics.chaos_events m1).
    { destruct ((roll =? 7) || (roll =? 8)).
      - unfold GameMetrics.set_cascade_failures.
        replace (0 <=? _) with true by lia. eexists. split; [done |]. cbn. lia.
      - exists m. split; [done | lia]. }
    destruct Hm1 as (m1 & -> & Hm1). cbn [bind].
    unfold GameMetrics.set_chaos_events.
    replace (0 <=? _) with true by lia. cbn [bind].
    rewrite set_entropy_ok; [| done | cbn; lia].
    eexists. split; [reflexivity |]. cbn. repeat split; lia.
  - cbn [bind]. rewrite set_entropy_ok; [| done | lia].
    eexists. split; [reflexivity |]. cbn. repeat split; lia.
Qed.

Lemma handle_chaos_phase_entropy_witness :
  AdvancedGameState.valid Samples.chaos_game_entropy_10 /\
  GameMetrics.valid (AdvancedGameState.metrics Samples.chaos_game_entropy_10) /\
  exists g',
    handle_chaos_phase Samples.morning Samples.chaos_game_entropy_10 = Ok g' /\
    AdvancedGameState.entropy g' = 10.
Proof.
  assert (Hv : AdvancedGameState.valid Samples.chaos_game_entropy_10).
  { split; [unfold AdvancedGameState.fields_valid; cbn; lia | reflexivity]. }
  assert (Hm : GameMetrics.valid
                 (AdvancedGameState.metrics Samples.chaos_game_entropy_10)).
  { unfold GameMetrics.valid; cbn; lia. }
  split; [exact Hv |]. split; [exact Hm |].
  destruct (handle_chaos_phase_entropy Samples.morning
              Samples.chaos_game_entropy_10 Hv Hm)
    as (g' & Hrun & Hent & _).
  exists g'. split; [exact Hrun | exact Hent].
Defined.

(** X5: the metrics side of a Chaos phase on a validated game state: with
    [entropy > 3] one chaos event is counted, the roll lies in 1..8 and a
    roll of 7 or 8 also counts a cascade failure; with [entropy <= 3] the
    metrics stay as they are. *)
Theorem handle_chaos_phase_metrics (w : World.t) (g : AdvancedGameState.t) :
  AdvancedGameState.valid g ->
  GameMetrics.valid (AdvancedGameState.metrics g) ->
  exists g',
    handle_chaos_phase w g = Ok g' /\
    let m := AdvancedGameState.metrics g in
    let m' := AdvancedGameState.metrics g' in
    let roll :=
      World.hash w (py_str_int (AdvancedGameState.round g
                                * AdvancedGameState.entropy g)) mod 8 + 1 in
    1 <= roll <= 8 /\
    GameMetrics.total_requests m' = GameMetrics.total_requests m /\
    GameMetrics.services_built m' = GameMetrics.services_built m /\
    GameMetrics.connections_created m' = GameMetrics.connections_created m /\
    GameMetrics.chaos_events m'
    = GameMetrics.chaos_events m
      + (if 3 <? AdvancedGameState.entropy g then 1 else 0) /\
    GameMetrics.cascade_failures m'
    = GameMetrics.cascade_failures m
      + (if (3 <? AdvancedGameState.entropy g) && (7 <=? roll) then 1 else 0).
Proof.
  intros ((Hr & Hw & Hh & He & Hi) & Hv) (Mt & Mc & Me & Ms & Mn).
  unfold handle_chaos_phase.
  set (roll := World.hash w _ mod 8 + 1).
  assert (Hroll : 1 <= roll <= 8).
  { subst roll. pose proof (Z.mod_pos_bound
      (World.hash w (py_str_int (AdvancedGameState.round g
                                 * AdvancedGameState.entropy g))) 8). lia. }
  destruct (3 <? AdvancedGameState.entropy g).
  - set (m := AdvancedGameState.metrics g) in *.
    destruct (Z_le_gt_dec 7 roll) as [Hhigh | Hlow].
    + replace ((roll =? 7) || (roll =? 8)) with true by lia.
      unfold GameMetrics.set_cascade_failures.
      replace (0 <=? _) with true by lia. cbn [bind].
      unfold GameMetrics.set_chaos_events.
      replace (0 <=? _) with true by (cbn; lia). cbn [bind].
      rewrite set_entropy_ok; [| done | cbn; lia].
      eexists. split; [reflexivity |]. cbn.
      replace (7 <=? roll) with true by lia. repeat split; lia.
    + replace ((roll =? 7) || (roll =? 8)) with false by lia.
      cbn [bind]. unfold GameMetrics.set_chaos_events.
      replace (0 <=? _) with true by lia. cbn [bind].
      rewrite set_entropy_ok; [| done | cbn; lia].
      eexists. split; [reflexivity |]. cbn.
      replace (7 <=? roll) with false by lia. repeat split; lia.
  - cbn [bind]. rewrite set_entropy_ok; [| done | lia].
    eexists. split; [reflexivity |]. cbn. repeat split; lia.
Qed.

Lemma handle_chaos_phase_metrics_witness :
  AdvancedGameState.valid Samples.chaos_game_entropy_10 /\
  GameMetrics.valid (AdvancedGameState.metrics Samples.chaos_game_entropy_10) /\
  exists g',
    handle_chaos_phase Samples.morning Samples.chaos_game_entropy_10 = Ok g' /\
    GameMetrics.chaos_events (AdvancedGameState.metrics g') = 1.
Proof.
  assert (Hv : AdvancedGameState.valid Samples.chaos_game_entropy_10).
  { split; [unfold AdvancedGameState.fields_valid; cbn; lia | reflexivity]. }
  assert (Hm : GameMetrics.valid
                 (AdvancedGameState.metrics Samples.chaos_game_entropy_10)).
  { unfold GameMetrics.valid; cbn; lia. }
  split; [exact Hv |]. split; [exact Hm |].
  destruct (handle_chaos_phase_metrics Samples.morning
              Samples.chaos_game_entropy_10 Hv Hm)
    as (g' & Hrun & _ & _ & _ & _ & Hchaos & _).
  exists g'. split; [exact Hrun | exact Hchaos].
Defined.

(** ** Turn phase machine *)

Lemma reset_players_ok (ps : list Player.t) :
  AdvancedGameState.reset_players ps = Ok (List.map reset_of ps).
Proof.
  induction ps as [| p ps IH]; [done |].
  cbn [AdvancedGameState.reset_players]. rewrite IH. reflexivity.
Qed.

Lemma reset_of_all (ps : list Player.t) :
  Forall (fun p => Player.actions_remaining p = 3 /\
                   Player.character_ability_used p = false)
         (List.map reset_of ps).
Proof. induction ps; constructor; auto. Qed.

(** the model validator reads the number of players, the current player
    index, the services and the grid size, and nothing else *)
Lemma validate_game_state_ext (g g' : AdvancedGameState.t) :
  length (AdvancedGameState.players g') = length (AdvancedGameState.players g) ->
  AdvancedGameState.current_player_index g' = AdvancedGameState.current_player_index g ->
  AdvancedGameState.services g' = AdvancedGameState.services g ->
  AdvancedGameState.grid_width g' = AdvancedGameState.grid_width g ->
  AdvancedGameState.grid_height g' = AdvancedGameState.grid_height g ->
  AdvancedGameState.validate_game_state g' = AdvancedGameState.validate_game_state g.
Proof.
  destruct g, g'. unfold AdvancedGameState.validate_game_state,
    AdvancedGameState.in_grid. cbn. intros -> -> -> -> ->. reflexivity.
Qed.

Lemma validate_has_player (g : AdvancedGameState.t) :
  AdvancedGameState.valid g ->
  AdvancedGameState.validate_game_state
    (AdvancedGameState.mk
       (AdvancedGameState.game_id g) (AdvancedGameState.round g)
       (AdvancedGameState.phase g) (AdvancedGameState.players g)
       (AdvancedGameState.services g) (AdvancedGameState.grid_width g)
       (AdvancedGameState.grid_height g) (AdvancedGameState.entropy g)
       (AdvancedGameState.metrics g) (AdvancedGameState.action_log g) 0) = true.
Proof.
  intros ((_ & _ & _ & _ & Hi) & Hv).
  unfold AdvancedGameState.validate_game_state in *.
  apply andb_true_iff in Hv as [Hidx Hsvc]. apply andb_true_iff. split.
  - cbn. apply negb_true_iff in Hidx. apply negb_true_iff. lia.
  - exact Hsvc.
Qed.

Lemma end_round_ok (g : AdvancedGameState.t) :
  AdvancedGameState.valid g ->
  AdvancedGameState.round g < 50 ->
  AdvancedGameState._end_round g
  = Ok (AdvancedGameState.mk
          (AdvancedGameState.game_id g) (AdvancedGameState.round g + 1)
          GamePhase.TRAFFIC (List.map reset_of (AdvancedGameState.players g))
          (AdvancedGameState.services g) (AdvancedGameState.grid_width g)
          (AdvancedGameState.grid_height g) (AdvancedGameState.entropy g)
          (AdvancedGameState.metrics g) (AdvancedGameState.action_log g) 0).
Proof.
  intros Hvalid Hr. pose proof (validate_has_player g Hvalid) as H0.
  destruct Hvalid as ((Hr1 & _) & Hv).
  unfold AdvancedGameState._end_round.
  rewrite set_round_ok by (done || lia). cbn [bind].
  rewrite set_phase_ok by done. cbn [bind].
  unfold AdvancedGameState.set_current_player_index, AdvancedGameState.assign.
  cbn -[AdvancedGameState.validate_game_state AdvancedGameState.reset_players].
  replace (AdvancedGameState.validate_game_state _) with true by done.
  cbn [bind andb]. rewrite reset_players_ok. reflexivity.
Qed.

Lemma valid_after (g g' : AdvancedGameState.t) :
  AdvancedGameState.valid g ->
  1 <= AdvancedGameState.round g' <= 50 ->
  AdvancedGameState.grid_width g' = AdvancedGameState.grid_width g ->
  AdvancedGameState.grid_height g' = AdvancedGameState.grid_height g ->
  AdvancedGameState.entropy g' = AdvancedGameState.entropy g ->
  0 <= AdvancedGameState.current_player_index g' ->
  AdvancedGameState.validate_game_state g' = true ->
  AdvancedGameState.valid g'.
Proof.
  intros ((Hr & Hw & Hh & He & Hi) & Hv) Hr' Hw' Hh' He' Hi' Hv'.
  split; [| exact Hv']. unfold AdvancedGameState.fields_valid.
  rewrite Hw', Hh', He'. repeat split; lia.
Qed.

(** one call, on a validated state: the table, and the reset at the
    rollover only *)
Lemma next_phase_step (g : AdvancedGameState.t) :
  AdvancedGameState.valid g ->
  (AdvancedGameState.phase g = GamePhase.CHAOS -> AdvancedGameState.round g < 50) ->
  exists g',
    AdvancedGameState.next_phase g = Ok g' /\
    AdvancedGameState.valid g' /\
    AdvancedGameState.phase g' = Spec.transition (AdvancedGameState.phase g) /\
    (AdvancedGameState.phase g = GamePhase.CHAOS ->
     AdvancedGameState.round g' = AdvancedGameState.round g + 1 /\
     length (AdvancedGameState.players g') = length (AdvancedGameState.players g) /\
     Forall (fun p => Player.actions_remaining p = 3 /\
                      Player.character_ability_used p = false)
            (AdvancedGameState.players g')) /\
    (AdvancedGameState.phase g <> GamePhase.CHAOS ->
     AdvancedGameState.round g' = AdvancedGameState.round g /\
     AdvancedGameState.players g' = AdvancedGameState.players g).
Proof.
  intros Hvalid Hround.
  pose proof Hvalid as ((Hr & Hw & Hh & He & Hi) & Hv).
  unfold AdvancedGameState.next_phase.
  destruct (AdvancedGameState.phase g) eqn:Hp.
  1-4: rewrite set_phase_ok by done; eexists; split; [reflexivity |];
       split; [apply (valid_after g); cbn; (done || lia) |];
       split; [reflexivity |]; split; [discriminate | done].
  - specialize (Hround eq_refl).
    rewrite end_round_ok by auto. eexists. split; [reflexivity |].
    split.
    { apply (valid_after g); cbn; try done; try lia.
      rewrite <- (validate_has_player g Hvalid).
      apply validate_game_state_ext; cbn; try done. apply length_map. }
    split; [reflexivity |]. split; [| done].
    intros _. cbn. split; [done |]. split; [apply length_map | apply reset_of_all].
  - exists g. split; [reflexivity |]. split; [done |].
    split; [by rewrite Hp |]. split; [discriminate | done].
Qed.

Lemma phase_cycle_succ (k : nat) :
  Spec.phase_cycle (S k) = Spec.transition (Spec.phase_cycle k) /\
  (Spec.phase_cycle k = GamePhase.CHAOS ->
   Spec.rollovers (S k) = Spec.rollovers k + 1) /\
  (Spec.phase_cycle k <> GamePhase.CHAOS ->
   Spec.rollovers (S k) = Spec.rollovers k).
Proof.
  destruct k as [| j]; [cbn; repeat split; done |].
  unfold Spec.rollovers.
  replace (S (S j) - 1)%nat with (S j) by lia.
  replace (S j - 1)%nat with j by lia.
  assert (Hmod : (j mod 4 < 4)%nat) by (apply Nat.mod_upper_bound; lia).
  assert (Hnext :
    ((j mod 4 = 3 /\ S j mod 4 = 0 /\ S j / 4 = S (j / 4)) \/
     (j mod 4 < 3 /\ S j mod 4 = S (j mod 4) /\ S j / 4 = j / 4))%nat).
  { zify. Z.to_euclidean_division_equations. lia. }
  cbn [Spec.phase_cycle].
  destruct Hnext as [(H3 & -> & ->) | (Hlt & -> & ->)].
  - rewrite H3. cbn. repeat split; [lia | done].
  - destruct (j mod 4)%nat as [| [| [| r]]]; [| | | lia];
      cbn; repeat split; (done || lia).
Qed.

(** [k] calls from Setup, as long as the round counter stays within its
    declared bound *)
Lemma next_phase_n_cycle (k : nat) (g : AdvancedGameState.t) :
  AdvancedGameState.valid g ->
  AdvancedGameState.phase g = GamePhase.SETUP ->
  AdvancedGameState.round g + Spec.rollovers k <= 50 ->
  exists g',
    next_phase_n k g = Ok g' /\
    AdvancedGameState.valid g' /\
    AdvancedGameState.phase g' = Spec.phase_cycle k /\
    AdvancedGameState.round g' = AdvancedGameState.round g + Spec.rollovers k.
Proof.
  intros Hvalid Hsetup. induction k as [| k IH]; intros Hbound.
  - exists g. split; [reflexivity |]. split; [exact Hvalid |].
    split; [exact Hsetup |]. unfold Spec.rollovers. cbn. lia.
  - destruct (phase_cycle_succ k) as (Hnext & Hroll & Hstay).
    assert (Hmono : Spec.rollovers k <= Spec.rollovers (S k)).
    { destruct (Spec.phase_cycle k); first [rewrite Hroll by done | rewrite Hstay by done]; lia. }
    destruct IH as (gk & Hrun & Hvk & Hpk & Hrk); [lia |].
    destruct (next_phase_step gk Hvk) as (g' & Hstep & Hv' & Hp' & Hchaos & Hother).
    { intros Hc. rewrite Hpk in Hc. rewrite Hroll in Hbound by done. lia. }
    exists g'. cbn [next_phase_n]. rewrite Hrun. cbn [bind].
    split; [exact Hstep |]. split; [exact Hv' |].
    split; [by rewrite Hp', Hpk, Hnext |].
    destruct (Spec.phase_cycle k) eqn:Hcyc; rewrite Hpk in *;
      first [ rewrite Hroll by done; destruct Hchaos as [-> _]; [done | lia]
            | rewrite Hstay by done; destruct Hother as [-> _]; [done | lia] ].
Qed.

Lemma no_victory_round_bound (k : nat) (g : AdvancedGameState.t) :
  AdvancedGameState.valid g ->
  AdvancedGameState.phase g = GamePhase.SETUP ->
  no_victory_before k g ->
  AdvancedGameState.round g + Spec.rollovers k <= 50.
Proof.
  intros Hvalid Hsetup. induction k as [| k IH]; intros Hnv.
  - destruct Hvalid as ((Hr & _) & _). unfold Spec.rollovers. cbn. lia.
  - assert (Hk : AdvancedGameState.round g + Spec.rollovers k <= 50).
    { apply IH. intros j s Hj. apply Hnv. lia. }
    destruct (next_phase_n_cycle k g Hvalid Hsetup Hk)
      as (gk & Hrun & _ & Hpk & Hrk).
    pose proof (Hnv k gk ltac:(lia) Hrun) as Hover.
    unfold AdvancedGameState.is_game_over in Hover.
    apply orb_false_iff in Hover as [Hover _].
    apply orb_false_iff in Hover as [Hover _].
    destruct (phase_cycle_succ k) as (_ & Hroll & Hstay).
    destruct (Spec.phase_cycle k);
      first [rewrite Hroll by done | rewrite Hstay by done]; lia.
Qed.



(** the boundary of the rollover: the round field is declared with
    [le=50], so in Chaos at round 50 the assignment [self.round += 1] is
    rejected and the call raises *)
Lemma next_phase_round_50_rejected (g : AdvancedGameState.t) :
  AdvancedGameState.phase g = GamePhase.CHAOS ->
  AdvancedGameState.round g = 50 ->
  AdvancedGameState.next_phase g = Raise ValidationError.
Proof.
  intros Hp Hr. unfold AdvancedGameState.next_phase. rewrite Hp.
  unfold AdvancedGameState._end_round, AdvancedGameState.set_round,
    AdvancedGameState.assign.
  rewrite Hr. reflexivity.
Qed.

(** X7: the basic engine's [next_phase] follows the same table, with the
    same reset at the Chaos to Traffic rollover only. *)
Lemma basic_next_phase_table (g : Basic.GameState.t) :
  Basic.GameState.phase (Basic.GameState.next_phase g)
  = Spec.transition (Basic.GameState.phase g) /\
  (Basic.GameState.phase g = GamePhase.CHAOS ->
   Basic.GameState.round (Basic.GameState.next_phase g)
   = Basic.GameState.round g + 1 /\
   Forall (fun p => Basic.Player.actions_remaining p = 3 /\
                    Basic.Player.character_ability_used p = false)
          (Basic.GameState.players (Basic.GameState.next_phase g))) /\
  (Basic.GameState.phase g <> GamePhase.CHAOS ->
   Basic.GameState.round (Basic.GameState.next_phase g) = Basic.GameState.round g /\
   Basic.GameState.players (Basic.GameState.next_phase g)
   = Basic.GameState.players g).
Proof.
  unfold Basic.GameState.next_phase.
  destruct (Basic.GameState.phase g) eqn:Hp; cbn;
    (split; [try done; by rewrite Hp |]); (split; [| done]); try discriminate.
  intros _. split; [done |].
  induction (Basic.GameState.players g); constructor; auto.
Qed.

(** ** Adding a service *)

Lemma py_index_out_of_range {A : Type} (xs : list A) (i : Z) :
  i < - Z.of_nat (length xs) \/ Z.of_nat (length xs) <= i ->
  py_index xs i = None.
Proof.
  intros Hi. unfold py_index.
  replace ((0 <=? i) && (i <? Z.of_nat (length xs))) with false by lia.
  replace ((- Z.of_nat (length xs) <=? i) && (i <? 0)) with false by lia.
  reflexivity.
Qed.

(** C9: when the service's location is inside the grid and free but its
    [owner_id] is not a valid index into [players], [add_service] returns
    false without raising, and the service has been stored in the
    [services] map all the same; the players, the metrics (so
    [services_built]) and the action log are as before. *)
Theorem add_service_invalid_owner_keeps_service
    (dump : AdvancedGameState.t -> string) (w : World.t)
    (g : AdvancedGameState.t) (svc : Service.t) :
  AdvancedGameState.in_grid g (Service.location svc) = true ->
  AdvancedGameState.in_service_grid g (Service.location svc) = false ->
  Service.owner_id svc < - Z.of_nat (length (AdvancedGameState.players g)) \/
  Z.of_nat (length (AdvancedGameState.players g)) <= Service.owner_id svc ->
  exists g',
    AdvancedGameState.add_service dump w g svc = (false, w, g') /\
    AdvancedGameState.services g'
    = <[Service.id svc := svc]> (AdvancedGameState.services g) /\
    AdvancedGameState.services g' !! Service.id svc = Some svc /\
    AdvancedGameState.metrics g' = AdvancedGameState.metrics g /\
    AdvancedGameState.players g' = AdvancedGameState.players g /\
    AdvancedGameState.action_log g' = AdvancedGameState.action_log g.
Proof.
  intros Hgrid Hfree Howner. unfold AdvancedGameState.add_service.
  rewrite Hgrid, Hfree. cbn [negb].
  cbn [AdvancedGameState.with_services AdvancedGameState.players].
  rewrite py_index_out_of_range by exact Howner.
  eexists. split; [reflexivity |]. cbn.
  split; [reflexivity |]. split; [apply lookup_insert_eq |]. done.
Qed.

Lemma add_service_invalid_owner_keeps_service_witness :
  AdvancedGameState.in_grid Samples.new_game
    (Service.location Samples.orphan_service) = true /\
  AdvancedGameState.in_service_grid Samples.new_game
    (Service.location Samples.orphan_service) = false /\
  AdvancedGameState.services Samples.new_game !! "svc7" = None /\
  exists g',
    AdvancedGameState.add_service Samples.dump Samples.morning
      Samples.new_game Samples.orphan_service
    = (false, Samples.morning, g') /\
    AdvancedGameState.services g' !! "svc7" = Some Samples.orphan_service /\
    AdvancedGameState.metrics g' = AdvancedGameState.metrics Samples.new_game.
Proof.
  split; [reflexivity |]. split; [reflexivity |]. split; [reflexivity |].
  destruct (add_service_invalid_owner_keeps_service Samples.dump
              Samples.morning Samples.new_game Samples.orphan_service
              eq_refl eq_refl)
    as (g' & Hrun & _ & Hsvc & Hm & _).
  { right. cbn. lia. }
  exists g'. split; [exact Hrun |]. split; [exact Hsvc | exact Hm].
Defined.

(** X3: a build outside the grid or on an occupied hex fails and changes
    nothing: neither the game (so [services_built] stays) nor the clock. *)
Theorem add_service_rejected_no_change
    (dump : AdvancedGameState.t -> string) (w : World.t)
    (g : AdvancedGameState.t) (svc : Service.t) :
  AdvancedGameState.in_grid g (Service.location svc) = false \/
  AdvancedGameState.in_service_grid g (Service.location svc) = true ->
  AdvancedGameState.add_service dump w g svc = (false, w, g).
Proof.
  unfold AdvancedGameState.add_service. intros [Hout | Hocc].
  - by rewrite Hout.
  - rewrite Hocc. by destruct (negb _).
Qed.

Lemma add_service_rejected_no_change_witness :
  AdvancedGameState.in_service_grid Samples.game_with_service
    (Service.location Samples.second_service) = true /\
  AdvancedGameState.add_service Samples.dump Samples.morning
    Samples.game_with_service Samples.second_service
  = (false, Samples.morning, Samples.game_with_service).
Proof.
  assert (Hocc : AdvancedGameState.in_service_grid Samples.game_with_service
                   (Service.location Samples.second_service) = true)
    by reflexivity.
  split; [exact Hocc |].
  exact (add_service_rejected_no_change Samples.dump Samples.morning
           Samples.game_with_service Samples.second_service (or_intror Hocc)).
Defined.

(** X4: a build on a free hex of the grid for an existing player succeeds:
    the service is stored under its id, its id is appended to the owner's
    list, [services_built] grows by 1 and one entry is appended to the
    action log. *)
Theorem add_service_success
    (dump : AdvancedGameState.t -> string) (w : World.t)
    (g : AdvancedGameState.t) (svc : Service.t) (i : nat) :
  AdvancedGameState.in_grid g (Service.location svc) = true ->
  AdvancedGameState.in_service_grid g (Service.location svc) = false ->
  py_index (AdvancedGameState.players g) (Service.owner_id svc) = Some i ->
  0 <= GameMetrics.services_built (AdvancedGameState.metrics g) ->
  exists w' g' entry,
    AdvancedGameState.add_service dump w g svc = (true, w', g') /\
    AdvancedGameState.services g'
    = <[Service.id svc := svc]> (AdvancedGameState.services g) /\
    AdvancedGameState.players g'
    = alter (fun p => Player.with_services p
                        (Player.services p ++ [Service.id svc]))
            i (AdvancedGameState.players g) /\
    GameMetrics.services_built (AdvancedGameState.metrics g')
    = GameMetrics.services_built (AdvancedGameState.metrics g) + 1 /\
    AdvancedGameState.action_log g' = AdvancedGameState.action_log g ++ [entry] /\
    LogEntry.action_type entry = "build_service" /\
    LogEntry.player_id entry = Service.owner_id svc.
Proof.
  intros Hgrid Hfree Howner Hbuilt. unfold AdvancedGameState.add_service.
  rewrite Hgrid, Hfree. cbn [negb].
  cbn [AdvancedGameState.with_services AdvancedGameState.players].
  rewrite Howner.
  cbn [AdvancedGameState.with_players AdvancedGameState.metrics].
  unfold GameMetrics.set_services_built.
  replace (0 <=? _) with true by (cbn; lia).
  unfold AdvancedGameState.log_action, World.now_isoformat.
  eexists _, _, _. split; [reflexivity |]. cbn. by repeat split.
Qed.

Lemma add_service_success_witness :
  AdvancedGameState.in_grid Samples.new_game
    (Service.location Samples.compute_service) = true /\
  AdvancedGameState.in_service_grid Samples.new_game
    (Service.location Samples.compute_service) = false /\
  py_index (AdvancedGameState.players Samples.new_game)
           (Service.owner_id Samples.compute_service) = Some 0%nat /\
  exists w' g',
    AdvancedGameState.add_service Samples.dump Samples.morning
      Samples.new_game Samples.compute_service = (true, w', g') /\
    GameMetrics.services_built (AdvancedGameState.metrics g') = 1.
Proof.
  split; [reflexivity |]. split; [reflexivity |]. split; [reflexivity |].
  destruct (add_service_success Samples.dump Samples.morning Samples.new_game
              Samples.compute_service 0%nat eq_refl eq_refl eq_refl)
    as (w' & g' & entry & Hrun & _ & _ & Hbuilt & _).
  { cbn. lia. }
  exists w', g'. split; [exact Hrun | exact Hbuilt].
Defined.

(** ** Two runs of one game *)

Lemma with_action_log_own (g : AdvancedGameState.t) :
  AdvancedGameState.with_action_log g (AdvancedGameState.action_log g) = g.
Proof. by destruct g. Qed.

Lemma with_action_log_twice (g : AdvancedGameState.t) (l l' : list LogEntry.t) :
  AdvancedGameState.with_action_log (AdvancedGameState.with_action_log g l) l'
  = AdvancedGameState.with_action_log g l'.
Proof. reflexivity. Qed.

(** the operations that do not log carry the log along untouched *)
Lemma assign_relog (ok : bool) (g : AdvancedGameState.t) (l : list LogEntry.t) :
  AdvancedGameState.assign ok (AdvancedGameState.with_action_log g l)
  = result_map (fun x => AdvancedGameState.with_action_log x l)
               (AdvancedGameState.assign ok g).
Proof.
  unfold AdvancedGameState.assign.
  rewrite (validate_game_state_ext g (AdvancedGameState.with_action_log g l))
    by reflexivity.
  by destruct (ok && _).
Qed.

Lemma set_phase_relog (g : AdvancedGameState.t) (p : GamePhase.t)
    (l : list LogEntry.t) :
  AdvancedGameState.set_phase (AdvancedGameState.with_action_log g l) p
  = result_map (fun x => AdvancedGameState.with_action_log x l)
               (AdvancedGameState.set_phase g p).
Proof.
  unfold AdvancedGameState.set_phase. by rewrite <- assign_relog.
Qed.

Lemma set_round_relog (g : AdvancedGameState.t) (v : Z) (l : list LogEntry.t) :
  AdvancedGameState.set_round (AdvancedGameState.with_action_log g l) v
  = result_map (fun x => AdvancedGameState.with_action_log x l)
               (AdvancedGameState.set_round g v).
Proof.
  unfold AdvancedGameState.set_round. by rewrite <- assign_relog.
Qed.

Lemma set_entropy_relog (g : AdvancedGameState.t) (v : Z) (l : list LogEntry.t) :
  AdvancedGameState.set_entropy (AdvancedGameState.with_action_log g l) v
  = result_map (fun x => AdvancedGameState.with_action_log x l)
               (AdvancedGameState.set_entropy g v).
Proof.
  unfold AdvancedGameState.set_entropy. by rewrite <- assign_relog.
Qed.

Lemma set_current_player_index_relog (g : AdvancedGameState.t) (v : Z)
    (l : list LogEntry.t) :
  AdvancedGameState.set_current_player_index
    (AdvancedGameState.with_action_log g l) v
  = result_map (fun x => AdvancedGameState.with_action_log x l)
               (AdvancedGameState.set_current_player_index g v).
Proof.
  unfold AdvancedGameState.set_current_player_index.
  by rewrite <- assign_relog.
Qed.

Lemma end_round_relog (g : AdvancedGameState.t) (l : list LogEntry.t) :
  AdvancedGameState._end_round (AdvancedGameState.with_action_log g l)
  = result_map (fun x => AdvancedGameState.with_action_log x l)
               (AdvancedGameState._end_round g).
Proof.
  unfold AdvancedGameState._end_round.
  change (AdvancedGameState.round (AdvancedGameState.with_action_log g l))
    with (AdvancedGameState.round g).
  rewrite set_round_relog.
  destruct (AdvancedGameState.set_round g _) as [s1 |]; [| reflexivity].
  cbn [result_map bind]. rewrite set_phase_relog.
  destruct (AdvancedGameState.set_phase s1 _) as [s2 |]; [| reflexivity].
  cbn [result_map bind]. rewrite set_current_player_index_relog.
  destruct (AdvancedGameState.set_current_player_index s2 _) as [s3 |];
    [| reflexivity].
  cbn [result_map bind].
  change (AdvancedGameState.players (AdvancedGameState.with_action_log s3 l))
    with (AdvancedGameState.players s3).
  by destruct (AdvancedGameState.reset_players _).
Qed.

Lemma next_phase_relog (g : AdvancedGameState.t) (l : list LogEntry.t) :
  AdvancedGameState.next_phase (AdvancedGameState.with_action_log g l)
  = result_map (fun x => AdvancedGameState.with_action_log x l)
               (AdvancedGameState.next_phase g).
Proof.
  unfold AdvancedGameState.next_phase.
  change (AdvancedGameState.phase (AdvancedGameState.with_action_log g l))
    with (AdvancedGameState.phase g).
  destruct (AdvancedGameState.phase g);
    auto using set_phase_relog, end_round_relog.
Qed.

Lemma handle_traffic_phase_relog (g : AdvancedGameState.t) (l : list LogEntry.t) :
  handle_traffic_phase (AdvancedGameState.with_action_log g l)
  = result_map (fun x => AdvancedGameState.with_action_log x l)
               (handle_traffic_phase g).
Proof.
  unfold handle_traffic_phase.
  change (AdvancedGameState.players (AdvancedGameState.with_action_log g l))
    with (AdvancedGameState.players g).
  change (AdvancedGameState.metrics (AdvancedGameState.with_action_log g l))
    with (AdvancedGameState.metrics g).
  by destruct (GameMetrics.set_total_requests _ _).
Qed.

Lemma handle_resolution_phase_relog (w : World.t) (g : AdvancedGameState.t)
    (l : list LogEntry.t) :
  handle_resolution_phase w (AdvancedGameState.with_action_log g l)
  = AdvancedGameState.with_action_log (handle_resolution_phase w g) l.
Proof. reflexivity. Qed.

Lemma handle_chaos_phase_relog (w : World.t) (g : AdvancedGameState.t)
    (l : list LogEntry.t) :
  handle_chaos_phase w (AdvancedGameState.with_action_log g l)
  = result_map (fun x => AdvancedGameState.with_action_log x l)
               (handle_chaos_phase w g).
Proof.
  unfold handle_chaos_phase.
  change (AdvancedGameState.entropy (AdvancedGameState.with_action_log g l))
    with (AdvancedGameState.entropy g).
  change (AdvancedGameState.round (AdvancedGameState.with_action_log g l))
    with (AdvancedGameState.round g).
  change (AdvancedGameState.metrics (AdvancedGameState.with_action_log g l))
    with (AdvancedGameState.metrics g).
  destruct (3 <? AdvancedGameState.entropy g).
  - destruct (if _ : bool then _ else _) as [m1 |]; [| reflexivity].
    cbn [bind].
    destruct (GameMetrics.set_chaos_events m1 _) as [m2 |]; [| reflexivity].
    cbn [bind]. by rewrite <- set_entropy_relog.
  - cbn [bind]. by rewrite <- set_entropy_relog.
Qed.

Lemma same_game_relog (g1 g2 : AdvancedGameState.t) :
  Observation.same_game g1 g2 ->
  g2 = AdvancedGameState.with_action_log g1 (AdvancedGameState.action_log g2).
Proof.
  intros [Hcore _].
  rewrite <- (with_action_log_own g2) at 1.
  rewrite <- (with_action_log_twice g2 [] (AdvancedGameState.action_log g2)).
  rewrite <- (with_action_log_twice g1 [] (AdvancedGameState.action_log g2)).
  unfold Observation.core in Hcore. by rewrite Hcore.
Qed.

Lemma same_game_refl (g : AdvancedGameState.t) : Observation.same_game g g.
Proof. by split. Qed.

(** an operation that carries the log along maps runs that look the same
    to runs that look the same *)
Lemma frame_same_game
    (f : AdvancedGameState.t -> result AdvancedGameState.t)
    (g1 g2 : AdvancedGameState.t) :
  (forall g l,
     f (AdvancedGameState.with_action_log g l)
     = result_map (fun x => AdvancedGameState.with_action_log x l) (f g)) ->
  Observation.same_game g1 g2 ->
  match f g1, f g2 with
  | Ok a, Ok b => Observation.same_game a b
  | Raise e1, Raise e2 => e1 = e2
  | _, _ => False
  end.
Proof.
  intros Hf Hsame. pose proof Hsame as [_ Hlog].
  rewrite (same_game_relog g1 g2 Hsame), Hf.
  pose proof (Hf g1 (AdvancedGameState.action_log g1)) as Hown.
  rewrite with_action_log_own in Hown.
  destruct (f g1) as [a | e]; cbn [result_map] in *; [| reflexivity].
  injection Hown as Ha. split; [reflexivity |].
  rewrite Ha. cbn [AdvancedGameState.with_action_log AdvancedGameState.action_log].
  exact Hlog.
Qed.

Lemma log_action_same_game (dump : AdvancedGameState.t -> string)
    (w1 w2 : World.t) (g1 g2 : AdvancedGameState.t)
    (action_type : string) (player_id : Z) (parameters : pyval) :
  Observation.same_salt w1 w2 ->
  Observation.same_game g1 g2 ->
  Observation.same_outcome
    (Ok (AdvancedGameState.log_action dump w1 g1 action_type player_id parameters))
    (Ok (AdvancedGameState.log_action dump w2 g2 action_type player_id parameters)).
Proof.
  intros Hsalt Hsame. pose proof Hsame as [Hcore Hlog].
  unfold AdvancedGameState.log_action, World.now_isoformat,
    Observation.same_outcome.
  split; [exact Hsalt |]. split.
  - exact Hcore.
  - cbn [AdvancedGameState.with_action_log AdvancedGameState.action_log].
    rewrite !map_app, Hlog. f_equal. cbn. unfold Observation.content. cbn.
    assert (Hr : AdvancedGameState.round g1 = AdvancedGameState.round g2)
      by (change (AdvancedGameState.round (Observation.core g1)
                  = AdvancedGameState.round (Observation.core g2));
          by rewrite Hcore).
    assert (Hp : AdvancedGameState.phase g1 = AdvancedGameState.phase g2)
      by (change (AdvancedGameState.phase (Observation.core g1)
                  = AdvancedGameState.phase (Observation.core g2));
          by rewrite Hcore).
    by rewrite Hr, Hp.
Qed.

Lemma add_service_same_game (dump : AdvancedGameState.t -> string)
    (w1 w2 : World.t) (g1 g2 : AdvancedGameState.t) (service : Service.t) :
  Observation.same_salt w1 w2 ->
  Observation.same_game g1 g2 ->
  match AdvancedGameState.add_service dump w1 g1 service,
        AdvancedGameState.add_service dump w2 g2 service with
  | (b1, w1', g1'), (b2, w2', g2') =>
      b1 = b2 /\ Observation.same_salt w1' w2' /\ Observation.same_game g1' g2'
  end.
Proof.
  intros Hsalt Hsame. rewrite (same_game_relog g1 g2 Hsame).
  destruct Hsame as [_ Hlog].
  generalize dependent (AdvancedGameState.action_log g2). intros l2 Hlog.
  destruct g1 as [gid rnd ph ps svcs gw gh ent m l1 cpi].
  cbn [AdvancedGameState.action_log] in Hlog.
  unfold AdvancedGameState.add_service, AdvancedGameState.in_grid,
    AdvancedGameState.in_service_grid, AdvancedGameState.service_grid.
  cbn [AdvancedGameState.with_action_log AdvancedGameState.with_services
       AdvancedGameState.with_players AdvancedGameState.with_metrics
       AdvancedGameState.game_id AdvancedGameState.round
       AdvancedGameState.phase AdvancedGameState.players
       AdvancedGameState.services AdvancedGameState.grid_width
       AdvancedGameState.grid_height AdvancedGameState.entropy
       AdvancedGameState.metrics AdvancedGameState.action_log
       AdvancedGameState.current_player_index].
  destruct (negb _); [by repeat split |].
  destruct (existsb _ _); [by repeat split |].
  destruct (py_index ps _); [| by repeat split].
  destruct (GameMetrics.set_services_built _ _) as [m' |]; [| by repeat split].
  split; [reflexivity |].
  unfold AdvancedGameState.log_action, World.now_isoformat.
  split; [exact Hsalt |]. split; [reflexivity |].
  cbn. rewrite !map_app, Hlog. reflexivity.
Qed.

(** the handlers read the process only through [hash] *)
Lemma handle_resolution_phase_salt (w1 w2 : World.t) (g : AdvancedGameState.t) :
  Observation.same_salt w1 w2 ->
  handle_resolution_phase w1 g = handle_resolution_phase w2 g.
Proof.
  intros Hsalt. unfold handle_resolution_phase. f_equal.
  apply map_ext. intros p. by rewrite Hsalt.
Qed.

Lemma handle_chaos_phase_salt (w1 w2 : World.t) (g : AdvancedGameState.t) :
  Observation.same_salt w1 w2 ->
  handle_chaos_phase w1 g = handle_chaos_phase w2 g.
Proof. intros Hsalt. unfold handle_chaos_phase. by rewrite Hsalt. Qed.

Lemma step_same_outcome (dump : AdvancedGameState.t -> string)
    (w1 w2 : World.t) (g1 g2 : AdvancedGameState.t) (a : action) :
  Observation.same_salt w1 w2 ->
  Observation.same_game g1 g2 ->
  Observation.same_outcome (step dump (w1, g1) a) (step dump (w2, g2) a).
Proof.
  intros Hsalt Hsame. destruct a as [service | at_ pid params | | | |];
    cbn [step].
  - pose proof (add_service_same_game dump w1 w2 g1 g2 service Hsalt Hsame) as H.
    destruct (AdvancedGameState.add_service dump w1 g1 service) as [[b1 w1'] g1'].
    destruct (AdvancedGameState.add_service dump w2 g2 service) as [[b2 w2'] g2'].
    destruct H as (_ & Hw & Hg). by split.
  - by apply log_action_same_game.
  - pose proof (frame_same_game AdvancedGameState.next_phase g1 g2
                  next_phase_relog Hsame) as H.
    destruct (AdvancedGameState.next_phase g1), (AdvancedGameState.next_phase g2);
      cbn [bind Observation.same_outcome]; auto.
  - pose proof (frame_same_game handle_traffic_phase g1 g2
                  handle_traffic_phase_relog Hsame) as H.
    destruct (handle_traffic_phase g1), (handle_traffic_phase g2);
      cbn [bind Observation.same_outcome]; auto.
  - split; [exact Hsalt |].
    rewrite (same_game_relog g1 g2 Hsame), handle_resolution_phase_relog.
    rewrite <- (handle_resolution_phase_salt w1 w2) by exact Hsalt.
    destruct Hsame as [_ Hlog]. split; [reflexivity | exact Hlog].
  - pose proof (frame_same_game (handle_chaos_phase w1) g1 g2
                  (handle_chaos_phase_relog w1) Hsame) as H.
    rewrite <- (handle_chaos_phase_salt w1 w2) by exact Hsalt.
    destruct (handle_chaos_phase w1 g1), (handle_chaos_phase w1 g2);
      cbn [bind Observation.same_outcome]; auto.
Qed.

Lemma run_same_outcome (dump : AdvancedGameState.t -> string)
    (actions : list action) (w1 w2 : World.t) (g1 g2 : AdvancedGameState.t) :
  Observation.same_salt w1 w2 ->
  Observation.same_game g1 g2 ->
  Observation.same_outcome (run dump (w1, g1) actions) (run dump (w2, g2) actions).
Proof.
  revert w1 w2 g1 g2.
  induction actions as [| a rest IH]; intros w1 w2 g1 g2 Hsalt Hsame.
  - by split.
  - cbn [run].
    pose proof (step_same_outcome dump w1 w2 g1 g2 a Hsalt Hsame) as Hstep.
    destruct (step dump (w1, g1) a) as [[w1' g1'] | e1],
             (step dump (w2, g2) a) as [[w2' g2'] | e2];
      cbn [bind Observation.same_outcome] in *; try done.
    destruct Hstep as [Hsalt' Hsame']. by apply IH.
Qed.




(** the sample run does complete, with one service built, one entry
    logged and two requests counted *)
Example sample_run_completes :
  exists w g,
    run Samples.dump (Samples.morning, Samples.new_game)
        [AddService Samples.compute_service; NextPhase; HandleTraffic]
    = Ok (w, g) /\
    AdvancedGameState.metrics g = GameMetrics.mk 2 0 0 1 0 /\
    length (AdvancedGameState.action_log g) = 1%nat /\
    AdvancedGameState.phase g = GamePhase.TRAFFIC.
Proof.
  destruct (run Samples.dump (Samples.morning, Samples.new_game)
              [AddService Samples.compute_service; NextPhase; HandleTraffic])
    as [[w g] |] eqn:Hrun; vm_compute in Hrun; [| discriminate Hrun].
  injection Hrun as <- <-. by eexists _, _.
Qed.

(** ** Victory evaluation *)

(** C2, the code at the failing input: the game is over ([phase = "end"]),
    the round is 10 and the players' uptimes 85, 82 and 88 have mean 85,
    above 80; [AdvancedGameState.get_winner] returns a player (the first
    of the three, all scores being 0.0 without services), not the
    no-winner outcome. *)
Theorem get_winner_finished_game_returns_player :
  AdvancedGameState.is_game_over Samples.finished_game = true /\
  10 <= AdvancedGameState.round Samples.finished_game /\
  (80 < Spec.mean_uptime
          (List.map Player.current_uptime
                    (AdvancedGameState.players Samples.finished_game)))%Q /\
  fst (AdvancedGameState.get_winner Samples.finished_game) = Some Samples.ann.
Proof.
  split; [reflexivity |]. split; [cbn; lia |]. split; reflexivity.
Qed.



(** once the game is over, the advanced engine's [get_winner] returns a
    player whenever there is one: it has no no-winner outcome *)
Lemma advanced_get_winner_always_a_player (g : AdvancedGameState.t) :
  AdvancedGameState.is_game_over g = true ->
  AdvancedGameState.players g <> [] ->
  exists p, fst (AdvancedGameState.get_winner g) = Some p.
Proof.
  intros Hover Hplayers. unfold AdvancedGameState.get_winner.
  rewrite Hover. cbn [negb fst].
  destruct (AdvancedGameState.players g) as [| p ps]; [done |].
  cbn [List.map py_max_key]. eauto.
Qed.

(** the scenario of three players at 85, 82 and 88 in round 10, while the
    game is still running: [get_winner] returns [None] in both engines,
    because the game is not over *)
Example get_winner_round_10_not_over :
  fst (AdvancedGameState.get_winner
         (AdvancedGameState.mk "game-2" 10 GamePhase.CHAOS
            [Samples.ann; Samples.ben; Samples.cat] ∅ 8 6 0
            GameMetrics.default [] 0)) = None /\
  Basic.GameState.get_winner
    (Basic.GameState.mk 10 GamePhase.CHAOS
       (Basic.GameState.players Samples.basic_finished_game) 0 0) = Ok None.
Proof. split; reflexivity. Qed.

(** ** Spatial model: distance as a metric, neighbours, paths *)

Lemma distance_cube (a b : HexCoordinate.t) :
  HexCoordinate.distance_to a b
  = HexPath.cube_norm
      (HexPath.cube_sub (HexCoordinate.cube_coords a) (HexCoordinate.cube_coords b))
    / 2.
Proof.
  unfold HexCoordinate.distance_to, HexPath.cube_norm, HexPath.cube_sub.
  destruct (HexCoordinate.cube_coords a) as [[x1 y1] z1].
  by destruct (HexCoordinate.cube_coords b) as [[x2 y2] z2].
Qed.

Lemma cube_coords_sum (c : HexCoordinate.t) :
  let '(x, y, z) := HexCoordinate.cube_coords c in x + y + z = 0.
Proof. unfold HexCoordinate.cube_coords. lia. Qed.

Lemma cube_coords_inj (a b : HexCoordinate.t) :
  HexCoordinate.cube_coords a = HexCoordinate.cube_coords b -> a = b.
Proof.
  destruct a as [r q], b as [r' q']. unfold HexCoordinate.cube_coords.
  cbn [HexCoordinate.row HexCoordinate.col]. intros H.
  injection H as Hx _ Hz. subst r'. f_equal. lia.
Qed.

(** the six neighbours, in table order, are the six unit cube steps *)
Lemma cube_coords_neighbors (c : HexCoordinate.t) :
  List.map HexCoordinate.cube_coords (HexCoordinate.neighbors c 1)
  = List.map (HexPath.cube_add (HexCoordinate.cube_coords c)) HexPath.cube_directions.
Proof.
  destruct c as [r q].
  unfold HexCoordinate.neighbors, HexCoordinate.base_offsets.
  cbn [HexCoordinate.row].
  change (py_range 1 (1 + 1)) with [1]. cbn [flat_map]. rewrite app_nil_r.
  destruct (parity_split r) as (a & [(Hr & Hm & Hd) | (Hr & Hm & Hd)]);
    rewrite Hm; cbn [Z.eqb];
    unfold HexCoordinate.even_row_offsets, HexCoordinate.odd_row_offsets,
      HexPath.cube_directions, HexCoordinate.cube_coords, HexCoordinate.shifted,
      HexPath.cube_add;
    cbn [List.map HexCoordinate.row HexCoordinate.col fst snd];
    rewrite ?land_1_parity, ?cube_x_floor;
    repeat (f_equal; try (Z.to_euclidean_division_equations; lia)).
Qed.

Lemma cube_norm_even (x y z : Z) :
  x + y + z = 0 ->
  HexPath.cube_norm (x, y, z) = 2 * (HexPath.cube_norm (x, y, z) / 2).
Proof.
  unfold HexPath.cube_norm. intros. Z.to_euclidean_division_equations; lia.
Qed.

(** some unit step brings a non-zero cube vector closer to the origin *)
Lemma cube_norm_descent (x y z : Z) :
  x + y + z = 0 -> ~ (x = 0 /\ y = 0 /\ z = 0) ->
  exists d, In d HexPath.cube_directions /\
    HexPath.cube_norm (HexPath.cube_add (x, y, z) d)
    = HexPath.cube_norm (x, y, z) - 2.
Proof.
  intros Hsum Hnz.
  assert (Hs : (0 < x /\ y < 0) \/ (0 < x /\ z < 0) \/ (x < 0 /\ 0 < y) \/
               (x < 0 /\ 0 < z) \/ (0 < y /\ z < 0) \/ (y < 0 /\ 0 < z)) by lia.
  unfold HexPath.cube_directions, HexPath.cube_norm, HexPath.cube_add.
  destruct Hs as [? | [? | [? | [? | [? | ?]]]]];
    [ exists (-1, 1, 0) | exists (-1, 0, 1) | exists (1, -1, 0)
    | exists (1, 0, -1) | exists (0, -1, 1) | exists (0, 1, -1) ];
    (split; [cbn; tauto | lia]).
Qed.

(** no unit step changes the norm by more than 2 *)
Lemma cube_norm_step (x y z : Z) (d : Z * Z * Z) :
  In d HexPath.cube_directions ->
  HexPath.cube_norm (x, y, z) - 2 <= HexPath.cube_norm (HexPath.cube_add (x, y, z) d)
  <= HexPath.cube_norm (x, y, z) + 2.
Proof.
  unfold HexPath.cube_directions, HexPath.cube_norm, HexPath.cube_add.
  cbn [In]. intros Hd.
  repeat (destruct Hd as [<- | Hd]; [lia |]). done.
Qed.

Lemma distance_nonneg (a b : HexCoordinate.t) : 0 <= HexCoordinate.distance_to a b.
Proof.
  rewrite distance_cube. apply Z.div_pos; [| lia].
  destruct (HexPath.cube_sub _ _) as [[x y] z]. unfold HexPath.cube_norm. lia.
Qed.

Lemma distance_sym (a b : HexCoordinate.t) :
  HexCoordinate.distance_to a b = HexCoordinate.distance_to b a.
Proof.
  unfold HexCoordinate.distance_to.
  destruct (HexCoordinate.cube_coords a) as [[x1 y1] z1].
  destruct (HexCoordinate.cube_coords b) as [[x2 y2] z2].
  f_equal. lia.
Qed.

Lemma distance_zero_iff (a b : HexCoordinate.t) :
  HexCoordinate.distance_to a b = 0 <-> a = b.
Proof.
  split.
  - intros Hd. apply cube_coords_inj.
    pose proof (cube_coords_sum a) as Ha. pose proof (cube_coords_sum b) as Hb.
    rewrite distance_cube in Hd.
    destruct (HexCoordinate.cube_coords a) as [[x1 y1] z1].
    destruct (HexCoordinate.cube_coords b) as [[x2 y2] z2].
    cbn [HexPath.cube_sub] in Hd.
    pose proof (cube_norm_even (x1 - x2) (y1 - y2) (z1 - z2) ltac:(lia)) as He.
    rewrite Hd in He. unfold HexPath.cube_norm in He.
    repeat f_equal; lia.
  - intros ->. rewrite distance_cube.
    destruct (HexCoordinate.cube_coords b) as [[x y] z].
    cbn [HexPath.cube_sub HexPath.cube_norm].
    replace (x - x) with 0 by lia. replace (y - y) with 0 by lia.
    replace (z - z) with 0 by lia. reflexivity.
Qed.

Lemma distance_triangle (a b c : HexCoordinate.t) :
  HexCoordinate.distance_to a c
  <= HexCoordinate.distance_to a b + HexCoordinate.distance_to b c.
Proof.
  pose proof (cube_coords_sum a) as Ha. pose proof (cube_coords_sum b) as Hb.
  pose proof (cube_coords_sum c) as Hc.
  rewrite !distance_cube.
  destruct (HexCoordinate.cube_coords a) as [[x1 y1] z1].
  destruct (HexCoordinate.cube_coords b) as [[x2 y2] z2].
  destruct (HexCoordinate.cube_coords c) as [[x3 y3] z3].
  cbn [HexPath.cube_sub].
  pose proof (cube_norm_even (x1 - x3) (y1 - y3) (z1 - z3) ltac:(lia)) as E13.
  pose proof (cube_norm_even (x1 - x2) (y1 - y2) (z1 - z2) ltac:(lia)) as E12.
  pose proof (cube_norm_even (x2 - x3) (y2 - y3) (z2 - z3) ltac:(lia)) as E23.
  assert (Hn : HexPath.cube_norm (x1 - x3, y1 - y3, z1 - z3)
               <= HexPath.cube_norm (x1 - x2, y1 - y2, z1 - z2)
                  + HexPath.cube_norm (x2 - x3, y2 - y3, z2 - z3))
    by (unfold HexPath.cube_norm; lia).
  lia.
Qed.


Lemma in_neighbors_1_distance (c n : HexCoordinate.t) :
  In n (HexCoordinate.neighbors c 1) <-> HexCoordinate.distance_to c n = 1.
Proof.
  rewrite in_neighbors. split.
  - intros (k & d & Hk & Hd & ->). assert (k = 1) as -> by lia.
    by apply distance_of_neighbor.
  - intros (d & Hd & ->)%neighbor_of_distance. exists 1, d.
    repeat split; [lia | lia | done].
Qed.

Lemma neighbor_closer (c t : HexCoordinate.t) :
  c <> t ->
  exists n, In n (HexCoordinate.neighbors c 1) /\
            HexCoordinate.distance_to n t = HexCoordinate.distance_to c t - 1.
Proof.
  intros Hne.
  pose proof (cube_coords_sum c) as Hc. pose proof (cube_coords_sum t) as Ht.
  pose proof (cube_coords_neighbors c) as Hnb.
  assert (Hcube : HexCoordinate.cube_coords c <> HexCoordinate.cube_coords t)
    by (intros H; by apply Hne, cube_coords_inj).
  destruct (HexCoordinate.cube_coords c) as [[x1 y1] z1] eqn:Ec.
  destruct (HexCoordinate.cube_coords t) as [[x2 y2] z2] eqn:Et.
  destruct (cube_norm_descent (x1 - x2) (y1 - y2) (z1 - z2)) as (d & Hd & Hnorm);
    [lia | intros (? & ? & ?); apply Hcube; repeat f_equal; lia |].
  assert (Hin : In (HexPath.cube_add (x1, y1, z1) d)
                   (List.map HexCoordinate.cube_coords
                             (HexCoordinate.neighbors c 1))).
  { rewrite Hnb. by apply in_map. }
  apply in_map_iff in Hin as (n & Hn & Hnin).
  exists n. split; [exact Hnin |].
  rewrite !distance_cube, Hn, Ec, Et. destruct d as [[dx dy] dz].
  cbn [HexPath.cube_add HexPath.cube_sub] in *.
  replace (x1 + dx - x2) with (x1 - x2 + dx) by lia.
  replace (y1 + dy - y2) with (y1 - y2 + dy) by lia.
  replace (z1 + dz - z2) with (z1 - z2 + dz) by lia.
  rewrite Hnorm.
  pose proof (cube_norm_even (x1 - x2) (y1 - y2) (z1 - z2) ltac:(lia)) as He.
  set (h := HexPath.cube_norm (x1 - x2, y1 - y2, z1 - z2)) in *.
  Z.to_euclidean_division_equations; lia.
Qed.

Lemma py_min_by_spec {A : Type} (xs : list (Z * A)) (best : Z * A) :
  exists k, In (k, py_min_by best xs) (best :: xs) /\
            forall x, In x (best :: xs) -> k <= fst x.
Proof.
  revert best. induction xs as [| x xs IH]; intros best.
  - exists (fst best). cbn. split; [left; by destruct best |].
    intros y [<- | []]. lia.
  - cbn [py_min_by]. destruct (Z.ltb_spec (fst x) (fst best)) as [Hlt | Hge].
    + destruct (IH x) as (k & Hin & Hmin). exists k. split.
      * right. exact Hin.
      * intros y [<- | Hy]; [| by apply Hmin].
        specialize (Hmin x (or_introl eq_refl)). lia.
    + destruct (IH best) as (k & Hin & Hmin). exists k. split.
      * destruct Hin as [Hin | Hin]; [by left | right; by right].
      * intros y [<- | [<- | Hy]].
        -- apply Hmin. by left.
        -- specialize (Hmin best (or_introl eq_refl)). lia.
        -- apply Hmin. by right.
Qed.

Lemma hex_eqb_eq (a b : HexCoordinate.t) :
  AdvancedGameState.hex_eqb a b = true <-> a = b.
Proof.
  destruct a as [r q], b as [r' q']. unfold AdvancedGameState.hex_eqb.
  cbn [HexCoordinate.row HexCoordinate.col]. split.
  - intros H. f_equal; lia.
  - intros H. injection H as -> ->. lia.
Qed.

(** the greedy choice: a neighbour, one step closer to the target *)
Lemma closest_neighbor_spec (c t : HexCoordinate.t) :
  c <> t ->
  exists n, HexPath.closest_neighbor c t = Some n /\
            HexCoordinate.distance_to c n = 1 /\
            HexCoordinate.distance_to n t = HexCoordinate.distance_to c t - 1.
Proof.
  intros Hne. destruct (neighbor_closer c t Hne) as (m & Hm & Hmd).
  unfold HexPath.closest_neighbor.
  destruct (List.map _ (HexCoordinate.neighbors c 1)) as [| x xs] eqn:El.
  { apply (in_map (fun n => (HexCoordinate.distance_to n t, n))) in Hm.
    rewrite El in Hm. destruct Hm. }
  cbn [py_min_key]. destruct (py_min_by_spec xs x) as (k & Hin & Hmin).
  rewrite <- El in Hin, Hmin. exists (py_min_by x xs). split; [reflexivity |].
  apply in_map_iff in Hin as (n & Heq & Hn). injection Heq as Hk Hnn. subst n.
  apply in_neighbors_1_distance in Hn as Hadj. split; [exact Hadj |].
  assert (Hle : k <= HexCoordinate.distance_to c t - 1).
  { rewrite <- Hmd.
    apply (Hmin (HexCoordinate.distance_to m t, m)).
    by apply (in_map (fun n => (HexCoordinate.distance_to n t, n))). }
  pose proof (distance_triangle c (py_min_by x xs) t) as Htri. lia.
Qed.

Lemma path_to_loop_reaches (d : nat) :
  forall (c t : HexCoordinate.t) (fuel : nat),
    HexCoordinate.distance_to c t = Z.of_nat d -> (d <= fuel)%nat ->
    exists path,
      HexPath.path_to_loop fuel c t = Some path /\
      length path = d /\
      HexPath.is_walk c path /\
      last (c :: path) = Some t.
Proof.
  induction d as [| d IH]; intros c t fuel Hd Hfuel.
  - apply distance_zero_iff in Hd as ->. exists [].
    destruct fuel; cbn [HexPath.path_to_loop];
      rewrite (proj2 (hex_eqb_eq t t) eq_refl); by repeat split.
  - assert (Hne : c <> t).
    { intros ->. rewrite (proj2 (distance_zero_iff t t) eq_refl) in Hd. lia. }
    destruct fuel as [| fuel]; [lia |].
    destruct (closest_neighbor_spec c t Hne) as (n & Hclosest & Hadj & Hcloser).
    destruct (IH n t fuel) as (path & Hrun & Hlen & Hwalk & Hlast); [lia | lia |].
    exists (n :: path). cbn [HexPath.path_to_loop].
    destruct (AdvancedGameState.hex_eqb c t) eqn:Heq;
      [by apply hex_eqb_eq in Heq |].
    rewrite Hclosest, Hrun. cbn [option_map length HexPath.is_walk].
    repeat split; [by rewrite Hlen | exact Hadj | exact Hwalk |].
    rewrite last_cons, last_cons in *. by rewrite Hlast in *.
Qed.

(** X10: [path_to] terminates and returns a shortest path: after exactly
    [distance(self, target)] iterations of its loop the target is reached;
    the path has one coordinate per unit of distance, each adjacent to the
    one before (the first to [self]), and ends at the target; it is empty
    exactly when [self] is the target. *)
Theorem path_to_shortest (c t : HexCoordinate.t) (fuel : nat) :
  (Z.to_nat (HexCoordinate.distance_to c t) <= fuel)%nat ->
  exists path,
    HexPath.path_to_loop fuel c t = Some path /\
    Z.of_nat (length path) = HexCoordinate.distance_to c t /\
    HexPath.is_walk c path /\
    last (c :: path) = Some t /\
    (path = [] <-> c = t).
Proof.
  intros Hfuel. pose proof (distance_nonneg c t) as Hpos.
  destruct (path_to_loop_reaches (Z.to_nat (HexCoordinate.distance_to c t))
              c t fuel) as (path & Hrun & Hlen & Hwalk & Hlast); [lia | done |].
  exists path. split; [exact Hrun |]. split; [lia |].
  split; [exact Hwalk |]. split; [exact Hlast |]. split.
  - intros Hnil. apply distance_zero_iff. rewrite Hnil in Hlen.
    cbn [length] in Hlen. lia.
  - intros Heq. rewrite (proj2 (distance_zero_iff c t) Heq) in Hlen.
    by destruct path.
Qed.

Lemma path_to_shortest_witness :
  (Z.to_nat (HexCoordinate.distance_to (HexCoordinate.mk 0 0)
                                       (HexCoordinate.mk 2 3)) <= 5)%nat /\
  exists path,
    HexPath.path_to_loop 5 (HexCoordinate.mk 0 0) (HexCoordinate.mk 2 3)
    = Some path /\
    length path = 4%nat.
Proof.
  assert (Hfuel : (Z.to_nat (HexCoordinate.distance_to (HexCoordinate.mk 0 0)
                               (HexCoordinate.mk 2 3)) <= 5)%nat)
    by (vm_compute; lia).
  split; [exact Hfuel |].
  destruct (path_to_shortest (HexCoordinate.mk 0 0) (HexCoordinate.mk 2 3) 5 Hfuel)
    as (path & Hrun & Hlen & _).
  exists path. split; [exact Hrun |].
  apply Nat2Z.inj. rewrite Hlen. reflexivity.
Defined.

Lemma base_offsets_length (c : HexCoordinate.t) :
  length (HexCoordinate.base_offsets c) = 6%nat.
Proof. unfold HexCoordinate.base_offsets. by destruct (_ =? _). Qed.

Lemma cube_directions_NoDup : List.NoDup HexPath.cube_directions.
Proof.
  unfold HexPath.cube_directions.
  repeat (apply List.NoDup_cons; [cbn [In]; intuition discriminate |]).
  apply List.NoDup_nil.
Qed.

(** X11: the neighbour generator yields [6 * radius] coordinates (none for
    a radius below 1); for radius 1 they are six different coordinates,
    none of them the centre, and adjacency is symmetric: [n] is a
    neighbour of [c] exactly when [c] is a neighbour of [n], whatever the
    parities of their rows. *)
Theorem neighbors_count_and_symmetry (c n : HexCoordinate.t) (radius : Z) :
  length (HexCoordinate.neighbors c radius) = (6 * Z.to_nat radius)%nat /\
  List.NoDup (HexCoordinate.neighbors c 1) /\
  ~ In c (HexCoordinate.neighbors c 1) /\
  (In n (HexCoordinate.neighbors c 1) <-> In c (HexCoordinate.neighbors n 1)).
Proof.
  split; [| split; [| split]].
  - unfold HexCoordinate.neighbors, py_range.
    replace (radius + 1 - 1) with radius by lia.
    assert (Hlen : length (seqZ 1 radius) = Z.to_nat radius) by apply length_seqZ.
    revert Hlen. generalize (seqZ 1 radius) (Z.to_nat radius).
    intros l. induction l as [| k l IH]; intros m Hlen.
    + cbn in *. lia.
    + cbn [flat_map length] in *. destruct m as [| m]; [lia |].
      rewrite length_app, length_map, base_offsets_length, (IH m); lia.
  - apply (NoDup_map_inv HexCoordinate.cube_coords).
    rewrite cube_coords_neighbors. apply NoDup_map_NoDup_ForallPairs.
    + intros [[dx dy] dz] [[ex ey] ez] _ _.
      destruct (HexCoordinate.cube_coords c) as [[x y] z].
      cbn [HexPath.cube_add]. intros H. injection H as ? ? ?.
      repeat f_equal; lia.
    + apply cube_directions_NoDup.
  - intros Hin. apply in_neighbors_1_distance in Hin.
    rewrite (proj2 (distance_zero_iff c c) eq_refl) in Hin. lia.
  - rewrite !in_neighbors_1_distance, (distance_sym n c). reflexivity.
Qed.

(** ** Invariants of a run *)

(** what one operation may change, field by field *)
Lemma add_service_effect (dump : AdvancedGameState.t -> string) (w w' : World.t)
    (g g' : AdvancedGameState.t) (svc : Service.t) (b : bool) :
  AdvancedGameState.add_service dump w g svc = (b, w', g') ->
  AdvancedGameState.game_id g' = AdvancedGameState.game_id g /\
  AdvancedGameState.round g' = AdvancedGameState.round g /\
  AdvancedGameState.phase g' = AdvancedGameState.phase g /\
  AdvancedGameState.grid_width g' = AdvancedGameState.grid_width g /\
  AdvancedGameState.grid_height g' = AdvancedGameState.grid_height g /\
  AdvancedGameState.entropy g' = AdvancedGameState.entropy g /\
  AdvancedGameState.current_player_index g'
  = AdvancedGameState.current_player_index g /\
  (AdvancedGameState.services g' = AdvancedGameState.services g \/
   AdvancedGameState.services g'
   = <[Service.id svc := svc]> (AdvancedGameState.services g) /\
   AdvancedGameState.in_grid g (Service.location svc) = true /\
   AdvancedGameState.in_service_grid g (Service.location svc) = false) /\
  (AdvancedGameState.players g' = AdvancedGameState.players g \/
   exists i,
     AdvancedGameState.players g'
     = alter (fun p => Player.with_services p
                         (Player.services p ++ [Service.id svc]))
             i (AdvancedGameState.players g) /\
     AdvancedGameState.services g'
     = <[Service.id svc := svc]> (AdvancedGameState.services g)) /\
  (AdvancedGameState.metrics g' = AdvancedGameState.metrics g \/
   0 <= GameMetrics.services_built (AdvancedGameState.metrics g) + 1 /\
   AdvancedGameState.metrics g'
   = GameMetrics.mk
       (GameMetrics.total_requests (AdvancedGameState.metrics g))
       (GameMetrics.cascade_failures (AdvancedGameState.metrics g))
       (GameMetrics.chaos_events (AdvancedGameState.metrics g))
       (GameMetrics.services_built (AdvancedGameState.metrics g) + 1)
       (GameMetrics.connections_created (AdvancedGameState.metrics g))) /\
  (AdvancedGameState.action_log g' = AdvancedGameState.action_log g \/
   exists e, AdvancedGameState.action_log g'
             = AdvancedGameState.action_log g ++ [e]).
Proof.
  destruct g as [gid rnd ph ps svcs gw gh ent m l cpi].
  unfold AdvancedGameState.add_service.
  destruct (AdvancedGameState.in_grid _ (Service.location svc)) eqn:Hgrid;
    cbn [negb]; cbv iota; [| intros [= <- <- <-]; repeat split; by left].
  destruct (AdvancedGameState.in_service_grid _ (Service.location svc)) eqn:Hfree;
    [intros [= <- <- <-]; repeat split; by left |].
  cbn [AdvancedGameState.with_services AdvancedGameState.with_players
       AdvancedGameState.with_metrics AdvancedGameState.with_action_log
       AdvancedGameState.game_id AdvancedGameState.round
       AdvancedGameState.phase AdvancedGameState.players
       AdvancedGameState.services AdvancedGameState.grid_width
       AdvancedGameState.grid_height AdvancedGameState.entropy
       AdvancedGameState.metrics AdvancedGameState.action_log
       AdvancedGameState.current_player_index].
  destruct (py_index ps (Service.owner_id svc)) as [i |].
  - unfold GameMetrics.set_services_built.
    destruct (Z.leb_spec 0 (GameMetrics.services_built m + 1)) as [Hsb | Hsb].
    + unfold AdvancedGameState.log_action, World.now_isoformat.
      cbn [AdvancedGameState.with_metrics AdvancedGameState.with_action_log
           AdvancedGameState.action_log World.clock World.clock_reads
           World.str_hash].
      intros [= <- <- <-]. cbn. repeat split;
        first [ right; by repeat split | right; by eexists | by left ].
    + intros [= <- <- <-]. cbn. repeat split;
        first [ right; by repeat split | right; by eexists | by left ].
  - intros [= <- <- <-]. cbn. repeat split;
      first [ by left | right; by repeat split ].
Qed.

Lemma next_phase_effect (g g' : AdvancedGameState.t) :
  AdvancedGameState.next_phase g = Ok g' ->
  AdvancedGameState.game_id g' = AdvancedGameState.game_id g /\
  AdvancedGameState.services g' = AdvancedGameState.services g /\
  AdvancedGameState.grid_width g' = AdvancedGameState.grid_width g /\
  AdvancedGameState.grid_height g' = AdvancedGameState.grid_height g /\
  AdvancedGameState.entropy g' = AdvancedGameState.entropy g /\
  AdvancedGameState.metrics g' = AdvancedGameState.metrics g /\
  AdvancedGameState.action_log g' = AdvancedGameState.action_log g /\
  (AdvancedGameState.round g' = AdvancedGameState.round g \/
   AdvancedGameState.round g' = AdvancedGameState.round g + 1 /\
   1 <= AdvancedGameState.round g' <= 50) /\
  (AdvancedGameState.players g' = AdvancedGameState.players g \/
   AdvancedGameState.players g' = List.map reset_of (AdvancedGameState.players g)) /\
  (AdvancedGameState.current_player_index g'
   = AdvancedGameState.current_player_index g \/
   AdvancedGameState.current_player_index g' = 0) /\
  (g' = g \/ AdvancedGameState.validate_game_state g' = true).
Proof.
  destruct g as [gid rnd ph ps svcs gw gh ent m l cpi].
  unfold AdvancedGameState.next_phase. cbn [AdvancedGameState.phase].
  assert (Hassign : forall ok s s',
            AdvancedGameState.assign ok s = Ok s' ->
            s' = s /\ ok = true /\ AdvancedGameState.validate_game_state s = true).
  { intros ok s s'. unfold AdvancedGameState.assign.
    destruct ok, (AdvancedGameState.validate_game_state s); cbn;
      by intros [= <-]. }
  destruct ph.
  1-4: unfold AdvancedGameState.set_phase;
       intros (-> & _ & Hv)%Hassign; cbn; repeat split; auto.
  - unfold AdvancedGameState._end_round, AdvancedGameState.set_round.
    cbn [AdvancedGameState.game_id AdvancedGameState.round
         AdvancedGameState.phase AdvancedGameState.players
         AdvancedGameState.services AdvancedGameState.grid_width
         AdvancedGameState.grid_height AdvancedGameState.entropy
         AdvancedGameState.metrics AdvancedGameState.action_log
         AdvancedGameState.current_player_index].
    destruct (AdvancedGameState.assign _ _) as [s1 |] eqn:H1; [| discriminate].
    apply Hassign in H1 as (-> & Hr & _). cbn [bind].
    unfold AdvancedGameState.set_phase.
    cbn [AdvancedGameState.game_id AdvancedGameState.round
         AdvancedGameState.phase AdvancedGameState.players
         AdvancedGameState.services AdvancedGameState.grid_width
         AdvancedGameState.grid_height AdvancedGameState.entropy
         AdvancedGameState.metrics AdvancedGameState.action_log
         AdvancedGameState.current_player_index].
    destruct (AdvancedGameState.assign _ _) as [s2 |] eqn:H2; [| discriminate].
    apply Hassign in H2 as (-> & _ & _). cbn [bind].
    unfold AdvancedGameState.set_current_player_index.
    cbn [AdvancedGameState.game_id AdvancedGameState.round
         AdvancedGameState.phase AdvancedGameState.players
         AdvancedGameState.services AdvancedGameState.grid_width
         AdvancedGameState.grid_height AdvancedGameState.entropy
         AdvancedGameState.metrics AdvancedGameState.action_log
         AdvancedGameState.current_player_index].
    destruct (AdvancedGameState.assign _ _) as [s3 |] eqn:H3; [| discriminate].
    apply Hassign in H3 as (-> & _ & Hv). cbn [bind AdvancedGameState.players].
    rewrite reset_players_ok. cbn [bind]. intros [= <-].
    cbn. repeat split; auto; try lia.
    right. rewrite <- Hv. apply validate_game_state_ext; cbn; try done.
    apply length_map.
  - intros [= <-]. cbn. repeat split; auto.
Qed.

Lemma traffic_nonneg (ps : list Player.t) :
  0 <= fold_left Z.add
         (List.map (fun player => Z.of_nat (length (Player.services player)) * 2) ps)
         0.
Proof.
  assert (H : forall (zs : list Z) (a : Z),
            0 <= a -> Forall (fun z => 0 <= z) zs -> 0 <= fold_left Z.add zs a).
  { induction zs as [| z zs IH]; intros a Ha Hzs; [done |].
    inversion Hzs; subst. cbn. apply IH; [lia | done]. }
  apply H; [lia |]. apply List.Forall_forall. intros z (p & <- & _)%in_map_iff. lia.
Qed.

Lemma handle_traffic_phase_effect (g g' : AdvancedGameState.t) :
  handle_traffic_phase g = Ok g' ->
  exists traffic,
    0 <= traffic /\
    0 <= GameMetrics.total_requests (AdvancedGameState.metrics g) + traffic /\
    g' = AdvancedGameState.with_metrics g
           (GameMetrics.mk
              (GameMetrics.total_requests (AdvancedGameState.metrics g) + traffic)
              (GameMetrics.cascade_failures (AdvancedGameState.metrics g))
              (GameMetrics.chaos_events (AdvancedGameState.metrics g))
              (GameMetrics.services_built (AdvancedGameState.metrics g))
              (GameMetrics.connections_created (AdvancedGameState.metrics g))).
Proof.
  unfold handle_traffic_phase, GameMetrics.set_total_requests.
  set (traffic := fold_left Z.add _ 0).
  destruct (Z.leb_spec 0 (GameMetrics.total_requests (AdvancedGameState.metrics g)
                          + traffic)) as [Hok | Hbad]; [| discriminate].
  cbn [bind]. intros [= <-]. exists traffic.
  split; [apply traffic_nonneg |]. by split.
Qed.

Lemma handle_chaos_phase_effect (w : World.t) (g g' : AdvancedGameState.t) :
  handle_chaos_phase w g = Ok g' ->
  exists m' e',
    g' = AdvancedGameState.mk
           (AdvancedGameState.game_id g) (AdvancedGameState.round g)
           (AdvancedGameState.phase g) (AdvancedGameState.players g)
           (AdvancedGameState.services g) (AdvancedGameState.grid_width g)
           (AdvancedGameState.grid_height g) e' m'
           (AdvancedGameState.action_log g)
           (AdvancedGameState.current_player_index g) /\
    0 <= e' <= 20 /\
    AdvancedGameState.validate_game_state g' = true /\
    Invariants.metrics_le (AdvancedGameState.metrics g) m' /\
    (GameMetrics.valid (AdvancedGameState.metrics g) -> GameMetrics.valid m').
Proof.
  destruct g as [gid rnd ph ps svcs gw gh ent m l cpi].
  unfold handle_chaos_phase.
  cbn [AdvancedGameState.entropy AdvancedGameState.round AdvancedGameState.metrics].
  assert (Hfinal : forall m' g',
            AdvancedGameState.set_entropy
              (AdvancedGameState.mk gid rnd ph ps svcs gw gh ent m' l cpi)
              (Z.min 10 (ent + 1)) = Ok g' ->
            g' = AdvancedGameState.mk gid rnd ph ps svcs gw gh
                   (Z.min 10 (ent + 1)) m' l cpi /\
            0 <= Z.min 10 (ent + 1) <= 20 /\
            AdvancedGameState.validate_game_state g' = true).
  { intros m' g''. unfold AdvancedGameState.set_entropy, AdvancedGameState.assign.
    cbn [AdvancedGameState.game_id AdvancedGameState.round
         AdvancedGameState.phase AdvancedGameState.players
         AdvancedGameState.services AdvancedGameState.grid_width
         AdvancedGameState.grid_height AdvancedGameState.entropy
         AdvancedGameState.metrics AdvancedGameState.action_log
         AdvancedGameState.current_player_index].
    destruct (Z.leb_spec 0 (Z.min 10 (ent + 1))),
             (Z.leb_spec (Z.min 10 (ent + 1)) 20); cbn [andb]; try discriminate.
    destruct (AdvancedGameState.validate_game_state _) eqn:Hv; [| discriminate].
    intros [= <-]. repeat split; (done || lia). }
  destruct (3 <? ent).
  - set (roll := World.hash w _ mod 8 + 1).
    destruct ((roll =? 7) || (roll =? 8)).
    + unfold GameMetrics.set_cascade_failures.
      destruct (Z.leb_spec 0 (GameMetrics.cascade_failures m + 1)); [| discriminate].
      cbn [bind]. unfold GameMetrics.set_chaos_events.
      cbn [GameMetrics.total_requests GameMetrics.cascade_failures
           GameMetrics.chaos_events GameMetrics.services_built
           GameMetrics.connections_created].
      destruct (Z.leb_spec 0 (GameMetrics.chaos_events m + 1)); [| discriminate].
      cbn [bind AdvancedGameState.with_metrics AdvancedGameState.game_id
           AdvancedGameState.round AdvancedGameState.phase
           AdvancedGameState.players AdvancedGameState.services
           AdvancedGameState.grid_width AdvancedGameState.grid_height
           AdvancedGameState.entropy AdvancedGameState.action_log
           AdvancedGameState.current_player_index].
      intros (-> & He & Hv)%Hfinal. eexists _, _. split; [reflexivity |].
      split; [exact He |]. split; [exact Hv |].
      unfold Invariants.metrics_le, GameMetrics.valid. cbn. split; lia.
    + cbn [bind]. unfold GameMetrics.set_chaos_events.
      destruct (Z.leb_spec 0 (GameMetrics.chaos_events m + 1)); [| discriminate].
      cbn [bind AdvancedGameState.with_metrics AdvancedGameState.game_id
           AdvancedGameState.round AdvancedGameState.phase
           AdvancedGameState.players AdvancedGameState.services
           AdvancedGameState.grid_width AdvancedGameState.grid_height
           AdvancedGameState.entropy AdvancedGameState.action_log
           AdvancedGameState.current_player_index].
      intros (-> & He & Hv)%Hfinal. eexists _, _. split; [reflexivity |].
      split; [exact He |]. split; [exact Hv |].
      unfold Invariants.metrics_le, GameMetrics.valid. cbn. split; lia.
  - cbn [bind]. intros (-> & He & Hv)%Hfinal. eexists _, _.
    split; [reflexivity |]. split; [exact He |]. split; [exact Hv |].
    unfold Invariants.metrics_le, GameMetrics.valid. split; [lia | done].
Qed.

Lemma handle_resolution_phase_effect (w : World.t) (g : AdvancedGameState.t) :
  exists resolve,
    handle_resolution_phase w g
    = AdvancedGameState.with_players g
        (List.map resolve (AdvancedGameState.players g)) /\
    forall p, Player.services (resolve p) = Player.services p.
Proof.
  unfold handle_resolution_phase. eexists. split; [reflexivity |].
  intros p. cbv beta. by destruct (Player.services p) eqn:Hs.
Qed.

(** an invariant of every step is an invariant of every run *)
Lemma run_invariant (dump : AdvancedGameState.t -> string)
    (P : AdvancedGameState.t -> Prop) :
  (forall w g a w' g', P g -> step dump (w, g) a = Ok (w', g') -> P g') ->
  forall actions w g w' g',
    P g -> run dump (w, g) actions = Ok (w', g') -> P g'.
Proof.
  intros Hstep actions. induction actions as [| a rest IH];
    intros w g w' g' HP Hrun.
  - cbn in Hrun. by injection Hrun as _ <-.
  - cbn [run] in Hrun.
    destruct (step dump (w, g) a) as [[w1 g1] |] eqn:Hs; [| discriminate].
    cbn [bind] in Hrun. eapply IH; [| exact Hrun]. eapply Hstep; eauto.
Qed.

Lemma services_in_grid_insert (g g' : AdvancedGameState.t) (svc : Service.t) :
  AdvancedGameState.validate_game_state g = true ->
  AdvancedGameState.in_grid g (Service.location svc) = true ->
  AdvancedGameState.services g'
  = <[Service.id svc := svc]> (AdvancedGameState.services g) ->
  AdvancedGameState.grid_width g' = AdvancedGameState.grid_width g ->
  AdvancedGameState.grid_height g' = AdvancedGameState.grid_height g ->
  AdvancedGameState.current_player_index g'
  = AdvancedGameState.current_player_index g ->
  length (AdvancedGameState.players g') = length (AdvancedGameState.players g) ->
  AdvancedGameState.validate_game_state g' = true.
Proof.
  unfold AdvancedGameState.validate_game_state, AdvancedGameState.in_grid.
  intros [Hidx Hall]%andb_true_iff Hin -> -> -> -> ->.
  apply andb_true_iff. split; [exact Hidx |].
  rewrite forallb_forall in *. intros [id s] Hs.
  apply list_elem_of_In, elem_of_map_to_list in Hs.
  apply lookup_insert_Some in Hs as [[_ <-] | [_ Hs]]; [exact Hin |].
  apply (Hall (id, s)). by apply list_elem_of_In, elem_of_map_to_list.
Qed.

Lemma step_valid (dump : AdvancedGameState.t -> string) (w w' : World.t)
    (g g' : AdvancedGameState.t) (a : action) :
  AdvancedGameState.valid g /\ GameMetrics.valid (AdvancedGameState.metrics g) ->
  step dump (w, g) a = Ok (w', g') ->
  AdvancedGameState.valid g' /\ GameMetrics.valid (AdvancedGameState.metrics g').
Proof.
  intros [[(Hr & Hw & Hh & He & Hi) Hv] Hm] Hstep.
  destruct a as [svc | at_ pid params | | | |]; cbn [step] in Hstep.
  - destruct (AdvancedGameState.add_service dump w g svc) as [[b w1] g1] eqn:Hadd.
    injection Hstep as _ <-.
    apply add_service_effect in Hadd
      as (_ & Hr' & _ & Hw' & Hh' & He' & Hi' & Hsvc & Hps & Hmet & _).
    assert (Hlen : length (AdvancedGameState.players g1)
                   = length (AdvancedGameState.players g)).
    { destruct Hps as [-> | (i & -> & _)]; [done | apply length_alter]. }
    split; [split |].
    + unfold AdvancedGameState.fields_valid. rewrite Hr', Hw', Hh', He', Hi'.
      repeat split; lia.
    + destruct Hsvc as [Hsame | (Hins & Hgrid & _)].
      * rewrite <- Hv. by apply validate_game_state_ext.
      * by apply (services_in_grid_insert g g1 svc).
    + destruct Hmet as [-> | [Hsb ->]]; [done |].
      destruct Hm as (? & ? & ? & ? & ?). unfold GameMetrics.valid. cbn.
      repeat split; lia.
  - unfold AdvancedGameState.log_action, World.now_isoformat in Hstep.
    injection Hstep as _ <-. split; [split |]; [| | exact Hm].
    + unfold AdvancedGameState.fields_valid. cbn. repeat split; lia.
    + rewrite <- Hv. by apply validate_game_state_ext.
  - destruct (AdvancedGameState.next_phase g) as [g1 |] eqn:Hnext; [| discriminate].
    cbn [bind] in Hstep. injection Hstep as _ <-.
    apply next_phase_effect in Hnext
      as (_ & _ & Hw' & Hh' & He' & Hm' & _ & Hr' & _ & Hi' & Hv').
    split; [split |].
    + unfold AdvancedGameState.fields_valid. rewrite Hw', Hh', He'.
      repeat split; try lia.
      all: destruct Hr' as [-> | [-> ?]], Hi' as [-> | ->]; lia.
    + destruct Hv' as [-> | Hv']; done.
    + by rewrite Hm'.
  - destruct (handle_traffic_phase g) as [g1 |] eqn:Htraffic; [| discriminate].
    cbn [bind] in Hstep. injection Hstep as _ <-.
    apply handle_traffic_phase_effect in Htraffic as (traffic & Ht & Htot & ->).
    split; [split |].
    + unfold AdvancedGameState.fields_valid. cbn. repeat split; lia.
    + rewrite <- Hv. by apply validate_game_state_ext.
    + destruct Hm as (? & ? & ? & ? & ?). unfold GameMetrics.valid. cbn.
      repeat split; lia.
  - injection Hstep as _ <-.
    destruct (handle_resolution_phase_effect w g) as (resolve & -> & _).
    split; [split |]; [| | exact Hm].
    + unfold AdvancedGameState.fields_valid. cbn. repeat split; lia.
    + rewrite <- Hv. apply validate_game_state_ext; cbn; try done.
      apply length_map.
  - destruct (handle_chaos_phase w g) as [g1 |] eqn:Hchaos; [| discriminate].
    cbn [bind] in Hstep. injection Hstep as _ <-.
    apply handle_chaos_phase_effect in Hchaos
      as (m' & e' & -> & He' & Hv' & _ & Hm').
    split; [split |]; [| exact Hv' | by apply Hm'].
    unfold AdvancedGameState.fields_valid. cbn. repeat split; lia.
Qed.

Lemma step_frame (dump : AdvancedGameState.t -> string) (w w' : World.t)
    (g g' : AdvancedGameState.t) (a : action) :
  step dump (w, g) a = Ok (w', g') ->
  AdvancedGameState.game_id g' = AdvancedGameState.game_id g /\
  AdvancedGameState.grid_width g' = AdvancedGameState.grid_width g /\
  AdvancedGameState.grid_height g' = AdvancedGameState.grid_height g /\
  length (AdvancedGameState.players g') = length (AdvancedGameState.players g).
Proof.
  intros Hstep.
  destruct a as [svc | at_ pid params | | | |]; cbn [step] in Hstep.
  - destruct (AdvancedGameState.add_service dump w g svc) as [[b w1] g1] eqn:Hadd.
    injection Hstep as _ <-.
    apply add_service_effect in Hadd
      as (Hid & _ & _ & Hw' & Hh' & _ & _ & _ & Hps & _).
    repeat split; try done.
    destruct Hps as [-> | (i & -> & _)]; [done | apply length_alter].
  - unfold AdvancedGameState.log_action, World.now_isoformat in Hstep.
    by injection Hstep as _ <-.
  - destruct (AdvancedGameState.next_phase g) as [g1 |] eqn:Hnext; [| discriminate].
    cbn [bind] in Hstep. injection Hstep as _ <-.
    apply next_phase_effect in Hnext
      as (Hid & _ & Hw' & Hh' & _ & _ & _ & _ & Hps & _).
    repeat split; try done.
    destruct Hps as [-> | ->]; [done | apply length_map].
  - destruct (handle_traffic_phase g) as [g1 |] eqn:Htraffic; [| discriminate].
    cbn [bind] in Hstep. injection Hstep as _ <-.
    by apply handle_traffic_phase_effect in Htraffic as (traffic & _ & _ & ->).
  - injection Hstep as _ <-.
    destruct (handle_resolution_phase_effect w g) as (resolve & -> & _).
    cbn. repeat split. apply length_map.
  - destruct (handle_chaos_phase w g) as [g1 |] eqn:Hchaos; [| discriminate].
    cbn [bind] in Hstep. injection Hstep as _ <-.
    by apply handle_chaos_phase_effect in Hchaos as (m' & e' & -> & _).
Qed.

(** X12: a run never leaves the validated states.  From a game that
    satisfies its field constraints and its model validator, with
    non-negative counters, every run that completes ends in such a game
    again (round within 1..50, entropy within 0..20, current player index
    below the number of players, every service inside the grid), on the
    same grid, with the same game id and the same number of players. *)
Theorem run_preserves_validity (dump : AdvancedGameState.t -> string)
    (w w' : World.t) (g g' : AdvancedGameState.t) (actions : list action) :
  AdvancedGameState.valid g ->
  GameMetrics.valid (AdvancedGameState.metrics g) ->
  run dump (w, g) actions = Ok (w', g') ->
  AdvancedGameState.valid g' /\
  GameMetrics.valid (AdvancedGameState.metrics g') /\
  AdvancedGameState.game_id g' = AdvancedGameState.game_id g /\
  AdvancedGameState.grid_width g' = AdvancedGameState.grid_width g /\
  AdvancedGameState.grid_height g' = AdvancedGameState.grid_height g /\
  length (AdvancedGameState.players g') = length (AdvancedGameState.players g).
Proof.
  intros Hv Hm Hrun.
  pose proof (run_invariant dump
    (fun x => AdvancedGameState.valid x /\
              GameMetrics.valid (AdvancedGameState.metrics x))
    (fun w0 g0 a w1 g1 => step_valid dump w0 w1 g0 g1 a)
    actions w g w' g' (conj Hv Hm) Hrun) as [Hv' Hm'].
  pose proof (run_invariant dump
    (fun x => AdvancedGameState.game_id x = AdvancedGameState.game_id g /\
              AdvancedGameState.grid_width x = AdvancedGameState.grid_width g /\
              AdvancedGameState.grid_height x = AdvancedGameState.grid_height g /\
              length (AdvancedGameState.players x)
              = length (AdvancedGameState.players g))) as Hframe.
  split; [exact Hv' |]. split; [exact Hm' |].
  eapply Hframe; [| by repeat split | exact Hrun].
  intros w0 g0 a w1 g1 (E1 & E2 & E3 & E4) Hstep.
  apply step_frame in Hstep as (F1 & F2 & F3 & F4).
  repeat split; congruence.
Qed.

Lemma sample_run_final :
  run Samples.dump (Samples.morning, Samples.new_game) Samples2.actions
  = Ok (fst Samples2.final, snd Samples2.final).
Proof. vm_compute. reflexivity. Qed.

Lemma new_game_valid :
  AdvancedGameState.valid Samples.new_game /\
  GameMetrics.valid (AdvancedGameState.metrics Samples.new_game).
Proof.
  split; [split; [unfold AdvancedGameState.fields_valid; cbn; lia | reflexivity] |].
  unfold GameMetrics.valid; cbn; lia.
Qed.

Lemma run_preserves_validity_witness :
  AdvancedGameState.valid Samples.new_game /\
  GameMetrics.valid (AdvancedGameState.metrics Samples.new_game) /\
  run Samples.dump (Samples.morning, Samples.new_game) Samples2.actions
  = Ok (fst Samples2.final, snd Samples2.final) /\
  AdvancedGameState.valid (snd Samples2.final).
Proof.
  destruct new_game_valid as [Hv Hm].
  split; [exact Hv |]. split; [exact Hm |]. split; [exact sample_run_final |].
  exact (proj1 (run_preserves_validity Samples.dump Samples.morning
                  (fst Samples2.final) Samples.new_game (snd Samples2.final)
                  Samples2.actions Hv Hm sample_run_final)).
Defined.

Lemma in_service_grid_false (g : AdvancedGameState.t) (loc : HexCoordinate.t) :
  AdvancedGameState.in_service_grid g loc = false ->
  forall id s, AdvancedGameState.services g !! id = Some s ->
               Service.location s <> loc.
Proof.
  intros Hfree id s Hs Hloc.
  assert (Hocc : AdvancedGameState.in_service_grid g loc = true);
    [| by rewrite Hfree in Hocc].
  unfold AdvancedGameState.in_service_grid, AdvancedGameState.service_grid.
  apply existsb_exists. exists (Service.location s, id). split.
  - apply in_map_iff. exists (id, s). split; [done |].
    by apply list_elem_of_In, elem_of_map_to_list.
  - by apply hex_eqb_eq.
Qed.

Lemma in_service_grid_true (g : AdvancedGameState.t) (loc : HexCoordinate.t) :
  AdvancedGameState.in_service_grid g loc = true ->
  exists id s, AdvancedGameState.services g !! id = Some s /\
               Service.location s = loc.
Proof.
  unfold AdvancedGameState.in_service_grid, AdvancedGameState.service_grid.
  intros ([l i] & Hin & Heq)%existsb_exists.
  apply in_map_iff in Hin as ([id s] & [= <- <-] & Hs).
  apply list_elem_of_In, elem_of_map_to_list in Hs.
  exists id, s. split; [exact Hs | by apply hex_eqb_eq].
Qed.

(** only a build changes the services map, and then by one insertion on a
    free hex of the grid *)
Lemma step_services (dump : AdvancedGameState.t -> string) (w w' : World.t)
    (g g' : AdvancedGameState.t) (a : action) :
  step dump (w, g) a = Ok (w', g') ->
  AdvancedGameState.services g' = AdvancedGameState.services g \/
  exists svc,
    a = AddService svc /\
    AdvancedGameState.services g'
    = <[Service.id svc := svc]> (AdvancedGameState.services g) /\
    AdvancedGameState.in_grid g (Service.location svc) = true /\
    AdvancedGameState.in_service_grid g (Service.location svc) = false.
Proof.
  intros Hstep.
  destruct a as [svc | at_ pid params | | | |]; cbn [step] in Hstep.
  - destruct (AdvancedGameState.add_service dump w g svc) as [[b w1] g1] eqn:Hadd.
    injection Hstep as _ <-.
    apply add_service_effect in Hadd
      as (_ & _ & _ & _ & _ & _ & _ & [Hsame | Hins] & _); [by left | right].
    by exists svc.
  - unfold AdvancedGameState.log_action, World.now_isoformat in Hstep.
    injection Hstep as _ <-. by left.
  - destruct (AdvancedGameState.next_phase g) as [g1 |] eqn:Hnext; [| discriminate].
    cbn [bind] in Hstep. injection Hstep as _ <-.
    apply next_phase_effect in Hnext as (_ & Hs & _). by left.
  - destruct (handle_traffic_phase g) as [g1 |] eqn:Htraffic; [| discriminate].
    cbn [bind] in Hstep. injection Hstep as _ <-.
    apply handle_traffic_phase_effect in Htraffic as (traffic & _ & _ & ->).
    by left.
  - injection Hstep as _ <-. by left.
  - destruct (handle_chaos_phase w g) as [g1 |] eqn:Hchaos; [| discriminate].
    cbn [bind] in Hstep. injection Hstep as _ <-.
    apply handle_chaos_phase_effect in Hchaos as (m' & e' & -> & _). by left.
Qed.



Lemma in_alter {A : Type} (f : A -> A) (i : nat) (l : list A) (x : A) :
  In x (alter f i l) -> In x l \/ exists y, In y l /\ x = f y.
Proof.
  revert i. induction l as [| a l IH]; intros [| i]; cbn; try tauto.
  - intros [<- | Hin]; [right; exists a; tauto | tauto].
  - intros [<- | Hin]; [tauto |].
    destruct (IH i Hin) as [? | (y & ? & ?)]; [tauto | right; exists y; tauto].
Qed.

Lemma reset_of_services (p : Player.t) :
  Player.services (reset_of p) = Player.services p.
Proof. by destruct p. Qed.

(** a step leaves every player's service list alone, except that a build
    may append the id of the service it has just stored *)
Lemma step_players (dump : AdvancedGameState.t -> string) (w w' : World.t)
    (g g' : AdvancedGameState.t) (a : action) (p' : Player.t) :
  step dump (w, g) a = Ok (w', g') ->
  In p' (AdvancedGameState.players g') ->
  exists p,
    In p (AdvancedGameState.players g) /\
    (Player.services p' = Player.services p \/
     exists svc,
       Player.services p' = Player.services p ++ [Service.id svc] /\
       AdvancedGameState.services g'
       = <[Service.id svc := svc]> (AdvancedGameState.services g)).
Proof.
  intros Hstep Hin.
  destruct a as [svc | at_ pid params | | | |]; cbn [step] in Hstep.
  - destruct (AdvancedGameState.add_service dump w g svc) as [[b w1] g1] eqn:Hadd.
    injection Hstep as _ <-.
    apply add_service_effect in Hadd
      as (_ & _ & _ & _ & _ & _ & _ & _ & [Hsame | (i & Halter & Hins)] & _).
    + rewrite Hsame in Hin. exists p'. split; [done | by left].
    + rewrite Halter in Hin.
      apply in_alter in Hin as [Hin | (p & Hin & ->)].
      * exists p'. split; [done | by left].
      * exists p. split; [done |]. right. exists svc. split; [| done].
        by destruct p.
  - unfold AdvancedGameState.log_action, World.now_isoformat in Hstep.
    injection Hstep as _ <-. exists p'. split; [done | by left].
  - destruct (AdvancedGameState.next_phase g) as [g1 |] eqn:Hnext; [| discriminate].
    cbn [bind] in Hstep. injection Hstep as _ <-.
    apply next_phase_effect in Hnext
      as (_ & _ & _ & _ & _ & _ & _ & _ & [Hsame | Hreset] & _).
    + rewrite Hsame in Hin. exists p'. split; [done | by left].
    + rewrite Hreset in Hin. apply in_map_iff in Hin as (p & <- & Hin).
      exists p. split; [done |]. left. apply reset_of_services.
  - destruct (handle_traffic_phase g) as [g1 |] eqn:Htraffic; [| discriminate].
    cbn [bind] in Hstep. injection Hstep as _ <-.
    apply handle_traffic_phase_effect in Htraffic as (traffic & _ & _ & ->).
    exists p'. split; [by destruct g | by left].
  - injection Hstep as _ <-.
    destruct (handle_resolution_phase_effect w g) as (resolve & Heq & Hsvc).
    rewrite Heq in Hin. destruct g as [gid rnd ph ps svcs gw gh ent m l cpi].
    cbn in Hin. apply in_map_iff in Hin as (p & <- & Hin).
    exists p. split; [done |]. left. apply Hsvc.
  - destruct (handle_chaos_phase w g) as [g1 |] eqn:Hchaos; [| discriminate].
    cbn [bind] in Hstep. injection Hstep as _ <-.
    apply handle_chaos_phase_effect in Hchaos as (m' & e' & -> & _).
    exists p'. split; [done | by left].
Qed.

(** X14: a player's service list never names a service the game does not
    hold.  If every id listed by a player is a key of the services map, the
    same is true after every run that completes. *)
Theorem run_keeps_listed_services (dump : AdvancedGameState.t -> string)
    (w w' : World.t) (g g' : AdvancedGameState.t) (actions : list action) :
  Invariants.listed_services_exist g ->
  run dump (w, g) actions = Ok (w', g') ->
  Invariants.listed_services_exist g'.
Proof.
  intros Hlisted Hrun.
  apply (run_invariant dump Invariants.listed_services_exist)
    with (actions := actions) (w := w) (g := g) (w' := w');
    [| done | exact Hrun].
  clear. intros w0 g0 a w1 g1 Hlisted Hstep p' id Hin Hid.
  assert (Hkeep : forall k, is_Some (AdvancedGameState.services g0 !! k) ->
                            is_Some (AdvancedGameState.services g1 !! k)).
  { intros k [s Hs].
    destruct (step_services _ _ _ _ _ _ Hstep) as [-> | (svc & _ & -> & _)];
      [by eexists |].
    destruct (decide (Service.id svc = k)) as [<- | Hne].
    - rewrite lookup_insert_eq. by eexists.
    - rewrite lookup_insert_ne by done. by eexists. }
  destruct (step_players _ _ _ _ _ _ p' Hstep Hin)
    as (p & Hp & [Hsame | (svc & Happ & Hins)]).
  - rewrite Hsame in Hid. apply Hkeep. by apply (Hlisted p).
  - rewrite Happ in Hid. apply in_app_iff in Hid as [Hid | [<- | []]].
    + apply Hkeep. by apply (Hlisted p).
    + rewrite Hins, lookup_insert_eq. by eexists.
Qed.

Lemma run_keeps_listed_services_witness :
  Invariants.listed_services_exist Samples.new_game /\
  run Samples.dump (Samples.morning, Samples.new_game) Samples2.actions
  = Ok (fst Samples2.final, snd Samples2.final) /\
  Invariants.listed_services_exist (snd Samples2.final).
Proof.
  assert (Hlisted : Invariants.listed_services_exist Samples.new_game).
  { intros p id [<- | [<- | []]] []. }
  split; [exact Hlisted |]. split; [exact sample_run_final |].
  exact (run_keeps_listed_services Samples.dump Samples.morning
           (fst Samples2.final) Samples.new_game (snd Samples2.final)
           Samples2.actions Hlisted sample_run_final).
Defined.

Lemma metrics_le_refl (m : GameMetrics.t) : Invariants.metrics_le m m.
Proof. unfold Invariants.metrics_le. lia. Qed.

Lemma metrics_le_trans (m1 m2 m3 : GameMetrics.t) :
  Invariants.metrics_le m1 m2 -> Invariants.metrics_le m2 m3 ->
  Invariants.metrics_le m1 m3.
Proof. unfold Invariants.metrics_le. lia. Qed.

(** what one step does to the history of the game *)
Lemma step_history (dump : AdvancedGameState.t -> string) (w w' : World.t)
    (g g' : AdvancedGameState.t) (a : action) :
  step dump (w, g) a = Ok (w', g') ->
  AdvancedGameState.round g <= AdvancedGameState.round g' /\
  Invariants.metrics_le (AdvancedGameState.metrics g)
                        (AdvancedGameState.metrics g') /\
  exists more, AdvancedGameState.action_log g'
               = AdvancedGameState.action_log g ++ more.
Proof.
  intros Hstep.
  destruct a as [svc | at_ pid params | | | |]; cbn [step] in Hstep.
  - destruct (AdvancedGameState.add_service dump w g svc) as [[b w1] g1] eqn:Hadd.
    injection Hstep as <- <-.
    pose proof (add_service_effect _ _ _ _ _ _ _ Hadd)
      as (_ & Hr & _ & _ & _ & _ & _ & _ & _ & Hm & Hl).
    split; [lia |]. split.
    + destruct Hm as [-> | [_ ->]]; [apply metrics_le_refl |].
      unfold Invariants.metrics_le. cbn. lia.
    + destruct Hl as [-> | [e ->]]; [exists []; by rewrite app_nil_r | by eexists].
  - unfold AdvancedGameState.log_action, World.now_isoformat in Hstep.
    injection Hstep as <- <-. cbn. split; [lia |].
    split; [apply metrics_le_refl | by eexists].
  - destruct (AdvancedGameState.next_phase g) as [g1 |] eqn:Hnext; [| discriminate].
    cbn [bind] in Hstep. injection Hstep as <- <-.
    apply next_phase_effect in Hnext
      as (_ & _ & _ & _ & _ & -> & -> & Hr & _).
    split; [lia |]. split; [apply metrics_le_refl |].
    exists []. by rewrite app_nil_r.
  - destruct (handle_traffic_phase g) as [g1 |] eqn:Htraffic; [| discriminate].
    cbn [bind] in Hstep. injection Hstep as <- <-.
    apply handle_traffic_phase_effect in Htraffic as (traffic & Ht & _ & ->).
    destruct g as [gid rnd ph ps svcs gw gh ent m l cpi]. cbn.
    split; [lia |]. split; [unfold Invariants.metrics_le; cbn; lia |].
    exists []. by rewrite app_nil_r.
  - injection Hstep as <- <-.
    destruct (handle_resolution_phase_effect w g) as (resolve & -> & _).
    destruct g as [gid rnd ph ps svcs gw gh ent m l cpi]. cbn.
    split; [lia |]. split; [apply metrics_le_refl |].
    exists []. by rewrite app_nil_r.
  - destruct (handle_chaos_phase w g) as [g1 |] eqn:Hchaos; [| discriminate].
    cbn [bind] in Hstep. injection Hstep as <- <-.
    apply handle_chaos_phase_effect in Hchaos as (m' & e' & -> & _ & _ & Hm & _).
    cbn. split; [lia |]. split; [exact Hm |].
    exists []. by rewrite app_nil_r.
Qed.

(** X15: the history of a game only grows.  Over any run that completes,
    the round number never decreases, none of the five metrics counters
    decreases, and the action log of the final state is the action log of
    the initial state with entries appended: no entry is dropped, changed or
    reordered. *)
Theorem run_history_grows (dump : AdvancedGameState.t -> string)
    (w w' : World.t) (g g' : AdvancedGameState.t) (actions : list action) :
  run dump (w, g) actions = Ok (w', g') ->
  AdvancedGameState.round g <= AdvancedGameState.round g' /\
  Invariants.metrics_le (AdvancedGameState.metrics g)
                        (AdvancedGameState.metrics g') /\
  exists more, AdvancedGameState.action_log g'
               = AdvancedGameState.action_log g ++ more.
Proof.
  intros Hrun.
  apply (run_invariant dump
    (fun x => AdvancedGameState.round g <= AdvancedGameState.round x /\
              Invariants.metrics_le (AdvancedGameState.metrics g)
                                    (AdvancedGameState.metrics x) /\
              exists more, AdvancedGameState.action_log x
                           = AdvancedGameState.action_log g ++ more))
    with (actions := actions) (w := w) (g := g) (w' := w');
    [| | exact Hrun].
  - clear. intros w0 g0 a w1 g1 (Hr & Hm & more & Hl) Hstep.
    apply step_history in Hstep as (Hr' & Hm' & more' & Hl').
    split; [lia |]. split; [by apply (metrics_le_trans _ _ _ Hm) |].
    exists (more ++ more'). by rewrite Hl', Hl, app_assoc.
  - split; [lia |]. split; [apply metrics_le_refl |].
    exists []. by rewrite app_nil_r.
Qed.

Lemma run_history_grows_witness :
  run Samples.dump (Samples.morning, Samples.new_game) Samples2.actions
  = Ok (fst Samples2.final, snd Samples2.final) /\
  AdvancedGameState.round Samples.new_game
  <= AdvancedGameState.round (snd Samples2.final).
Proof.
  split; [exact sample_run_final |].
  exact (proj1 (run_history_grows Samples.dump Samples.morning
                  (fst Samples2.final) Samples.new_game (snd Samples2.final)
                  Samples2.actions sample_run_final)).
Defined.

(** ** The resolution phase, the winner and load *)

Lemma resolved_uptime_bounds (n : nat) (h : Z) :
  (1 <= n)%nat ->
  let s := (Qmin 100 (inject_Z (Z.of_nat n * 20)) + inject_Z (h mod 20 - 10))%Q in
  (Qmax 0 s == s)%Q /\ (10 <= s)%Q /\ (s <= 109)%Q.
Proof.
  intros Hn s.
  assert (Hnoise : -10 <= h mod 20 - 10 <= 9)
    by (pose proof (Z.mod_pos_bound h 20); lia).
  assert (Hbase : (20 <= Qmin 100 (inject_Z (Z.of_nat n * 20)))%Q).
  { apply Q.min_glb; [done |]. unfold Qle; cbn; lia. }
  assert (Hbase' : (Qmin 100 (inject_Z (Z.of_nat n * 20)) <= 100)%Q)
    by apply Q.le_min_l.
  assert (Hlo : (inject_Z (-10) <= inject_Z (h mod 20 - 10))%Q)
    by (unfold Qle; cbn; lia).
  assert (Hhi : (inject_Z (h mod 20 - 10) <= inject_Z 9)%Q)
    by (unfold Qle; cbn; lia).
  assert (H10 : (10 <= s)%Q).
  { unfold s. apply Qle_trans with (20 + inject_Z (-10))%Q; [done |].
    by apply Qplus_le_compat. }
  split; [| split].
  - apply Q.max_r. apply Qle_trans with 10%Q; [done | exact H10].
  - exact H10.
  - unfold s. apply Qle_trans with (100 + inject_Z 9)%Q; [| done].
    by apply Qplus_le_compat.
Qed.

(** X16: what a resolution phase does to each player.  A player who owns
    no service is left as they are.  A player who owns [n >= 1] services
    gets the uptime [min(100, 20 n) + noise], where
    [noise = hash(str(round)) % 20 - 10] is the same for every player: the
    clamp [max(0, ..)] never applies, the new uptime lies between 10 and
    109 (so it can exceed 100), and it is appended to the bounded
    history.  Nothing else of the player or of the game changes. *)
Theorem handle_resolution_phase_uptime (w : World.t)
    (g : AdvancedGameState.t) (i : nat) (p : Player.t) :
  AdvancedGameState.players g !! i = Some p ->
  let g' := handle_resolution_phase w g in
  let noise :=
    World.hash w (py_str_int (AdvancedGameState.round g)) mod 20 - 10 in
  g' = AdvancedGameState.with_players g (AdvancedGameState.players g') /\
  exists p',
    AdvancedGameState.players g' !! i = Some p' /\
    (Player.services p = [] -> p' = p) /\
    (Player.services p <> [] ->
     p' = Player.record_uptime p (Player.current_uptime p') /\
     (Player.current_uptime p'
      == Qmin 100 (inject_Z (Z.of_nat (length (Player.services p)) * 20))
         + inject_Z noise)%Q /\
     (10 <= Player.current_uptime p')%Q /\
     (Player.current_uptime p' <= 109)%Q).
Proof.
  intros Hp g' noise. subst g'. unfold handle_resolution_phase.
  destruct g as [gid rnd ph ps svcs gw gh ent m l cpi].
  cbn [AdvancedGameState.with_players AdvancedGameState.players
       AdvancedGameState.round] in *.
  split; [reflexivity |].
  rewrite list_lookup_fmap, Hp. cbn [fmap option_fmap option_map].
  eexists. split; [reflexivity |].
  destruct (Player.services p) as [| s ss] eqn:Hs; [by split |].
  split; [done |]. intros _.
  destruct (resolved_uptime_bounds (length (s :: ss))
              (World.hash w (py_str_int rnd))) as (Hmax & Hlo & Hhi);
    [cbn; lia |].
  cbn [Player.record_uptime Player.current_uptime].
  split; [reflexivity |]. subst noise.
  split; [exact Hmax |].
  split; [by rewrite Hmax | by rewrite Hmax].
Qed.

Lemma handle_resolution_phase_uptime_witness :
  AdvancedGameState.players Samples.game_with_service !! 0%nat
  = Some Samples.alice_with_service /\
  exists p',
    AdvancedGameState.players
      (handle_resolution_phase Samples.morning Samples.game_with_service)
    !! 0%nat = Some p' /\
    (10 <= Player.current_uptime p')%Q.
Proof.
  split; [reflexivity |].
  destruct (handle_resolution_phase_uptime Samples.morning
              Samples.game_with_service 0 Samples.alice_with_service eq_refl)
    as (_ & p' & Hp' & _ & Hbuilt).
  exists p'. split; [exact Hp' |].
  destruct Hbuilt as (_ & _ & Hlo & _); [discriminate | exact Hlo].
Defined.

(** the first maximum of a list of scored values *)
Lemma py_max_by_spec {A : Type} (xs : list (Q * A)) (best : Q * A) :
  exists (i : nat) (k : Q),
    (best :: xs) !! i = Some (k, py_max_by best xs) /\
    forall (j : nat) (y : Q * A),
      (best :: xs) !! j = Some y ->
      (fst y <= k)%Q /\ ((j < i)%nat -> (fst y < k)%Q).
Proof.
  revert best. induction xs as [| x xs IH]; intros best.
  - exists 0%nat, (fst best). split; [by destruct best |].
    intros [| j] y Hy; [| done]. injection Hy as <-.
    split; [apply Qle_refl | lia].
  - cbn [py_max_by].
    destruct (Qcompare_spec (fst x) (fst best)) as [Heq | Hlt | Hgt].
    + destruct (IH best) as (i & k & Hi & Hmax).
      assert (Hbest : (fst best <= k)%Q) by apply (Hmax 0%nat best eq_refl).
      destruct i as [| i].
      * exists 0%nat, k. split; [exact Hi |].
        intros [| [| j]] y Hy; cbn in Hy.
        -- injection Hy as <-. split; [done | lia].
        -- injection Hy as <-. split; [by rewrite Heq | lia].
        -- split; [apply (Hmax (S j) y Hy) | lia].
      * exists (S (S i)), k. split; [exact Hi |].
        intros [| [| j]] y Hy; cbn in Hy.
        -- injection Hy as <-. split; [done |]. intros _.
           apply (Hmax 0%nat best eq_refl). lia.
        -- injection Hy as <-.
           assert (Hlt : (fst best < k)%Q) by (apply (Hmax 0%nat best eq_refl); lia).
           split; [rewrite Heq; by apply Qlt_le_weak | intros _; by rewrite Heq].
        -- destruct (Hmax (S j) y Hy) as [Hle Hfirst].
           split; [done |]. intros Hj. apply Hfirst. lia.
    + destruct (IH best) as (i & k & Hi & Hmax).
      assert (Hbest : (fst best <= k)%Q) by apply (Hmax 0%nat best eq_refl).
      destruct i as [| i].
      * exists 0%nat, k. split; [exact Hi |].
        intros [| [| j]] y Hy; cbn in Hy.
        -- injection Hy as <-. split; [done | lia].
        -- injection Hy as <-. split; [| lia].
           apply Qlt_le_weak. by apply Qlt_le_trans with (fst best).
        -- split; [apply (Hmax (S j) y Hy) | lia].
      * exists (S (S i)), k. split; [exact Hi |].
        assert (Hlt' : (fst best < k)%Q) by (apply (Hmax 0%nat best eq_refl); lia).
        intros [| [| j]] y Hy; cbn in Hy.
        -- injection Hy as <-. split; [done | done].
        -- injection Hy as <-.
           assert (Hx : (fst x < k)%Q) by (by apply Qlt_trans with (fst best)).
           split; [by apply Qlt_le_weak | done].
        -- destruct (Hmax (S j) y Hy) as [Hle Hfirst].
           split; [done |]. intros Hj. apply Hfirst. lia.
    + destruct (IH x) as (i & k & Hi & Hmax).
      assert (Hx : (fst x <= k)%Q) by apply (Hmax 0%nat x eq_refl).
      exists (S i), k. split; [exact Hi |].
      intros [| j] y Hy; cbn in Hy.
      * injection Hy as <-.
        assert (Hlt : (fst best < k)%Q) by (by apply Qlt_le_trans with (fst x)).
        split; [by apply Qlt_le_weak | done].
      * destruct (Hmax j y Hy) as [Hle Hfirst].
        split; [done |]. intros Hj. apply Hfirst. lia.
Qed.



(** X18: loads add up.  On a validated service and for two non-negative
    loads [a] and [b], adding [a] and then [b] succeeds exactly when adding
    [a + b] at once succeeds, and both ways end in the same service. *)
Theorem add_load_twice (s s2 : Service.t) (a b : Z) :
  Service.valid s -> 0 <= a -> 0 <= b ->
  (exists s1, Service.add_load s a = Ok (true, s1) /\
              Service.add_load s1 b = Ok (true, s2))
  <-> Service.add_load s (a + b) = Ok (true, s2).
Proof.
  intros (Hload & Hbugs & Hup) Ha Hb.
  destruct s as [ty loc own sid load conns bugs ups].
  cbn [Service.current_load Service.bugs Service.upgrades] in *.
  unfold Service.add_load, Service.can_handle_load, Service.available_capacity,
    Service.max_capacity, Service.set_current_load.
  cbn [Service.current_load Service.bugs Service.upgrades Service.service_type
       Service.location Service.owner_id Service.id Service.connections].
  set (cap := ResourceCosts.capacity (ServiceType.costs ty) + ups * 2).
  split.
  - intros (s1 & H1 & H2).
    destruct (Z.leb_spec a (Z.max 0 (cap - load - bugs * 1))) as [Hfit |];
      [| discriminate].
    destruct (Z.leb_spec 0 (load + a)); [| lia].
    cbn [bind] in H1. injection H1 as <-.
    cbn [Service.current_load Service.bugs Service.upgrades Service.service_type
         Service.location Service.owner_id Service.id Service.connections] in H2.
    fold cap in H2.
    destruct (Z.leb_spec b (Z.max 0 (cap - (load + a) - bugs * 1))) as [Hfit' |];
      [| discriminate].
    destruct (Z.leb_spec 0 (load + a + b)); [| lia].
    cbn [bind] in H2. injection H2 as <-.
    destruct (Z.leb_spec (a + b) (Z.max 0 (cap - load - bugs * 1))); [| lia].
    destruct (Z.leb_spec 0 (load + (a + b))); [| lia].
    cbn [bind]. by rewrite Z.add_assoc.
  - intros H.
    destruct (Z.leb_spec (a + b) (Z.max 0 (cap - load - bugs * 1))) as [Hfit |];
      [| discriminate].
    destruct (Z.leb_spec 0 (load + (a + b))); [| lia].
    cbn [bind] in H. injection H as <-.
    eexists. split.
    + destruct (Z.leb_spec a (Z.max 0 (cap - load - bugs * 1))); [| lia].
      destruct (Z.leb_spec 0 (load + a)); [| lia].
      cbn [bind]. reflexivity.
    + cbn [Service.current_load Service.bugs Service.upgrades
           Service.service_type Service.location Service.owner_id Service.id
           Service.connections].
      fold cap.
      destruct (Z.leb_spec b (Z.max 0 (cap - (load + a) - bugs * 1))); [| lia].
      destruct (Z.leb_spec 0 (load + a + b)); [| lia].
      cbn [bind]. by rewrite Z.add_assoc.
Qed.

Lemma add_load_twice_witness :
  Service.valid Samples.compute_service /\ 0 <= 2 /\ 0 <= 3 /\
  Service.add_load Samples.compute_service (2 + 3)
  = Ok (true, Service.mk ServiceType.COMPUTE (HexCoordinate.mk 0 0) 0 "svc1"
                         5 ∅ 0 0) /\
  exists s1, Service.add_load Samples.compute_service 2 = Ok (true, s1).
Proof.
  assert (Hv : Service.valid Samples.compute_service)
    by (unfold Service.valid; cbn; lia).
  assert (Ha : 0 <= 2) by lia. assert (Hb : 0 <= 3) by lia.
  assert (Hsum : Service.add_load Samples.compute_service (2 + 3)
                 = Ok (true, Service.mk ServiceType.COMPUTE (HexCoordinate.mk 0 0)
                                0 "svc1" 5 ∅ 0 0)) by reflexivity.
  split; [exact Hv |]. split; [exact Ha |]. split; [exact Hb |].
  split; [exact Hsum |].
  destruct (proj2 (add_load_twice Samples.compute_service _ 2 3 Hv Ha Hb) Hsum)
    as (s1 & H1 & _).
  exists s1. exact H1.
Defined.

(** ** The simulation loops *)

Section SimulationFacts.

Variable dump : AdvancedGameState.t -> string.

(** [add_service] touches no player's resources, actions or uptime *)
Lemma add_service_player (w w' : World.t) (g g' : AdvancedGameState.t)
    (svc : Service.t) (b : bool) (k : nat) (p : Player.t) :
  AdvancedGameState.add_service dump w g svc = (b, w', g') ->
  AdvancedGameState.players g !! k = Some p ->
  exists p',
    AdvancedGameState.players g' !! k = Some p' /\
    Player.resources p' = Player.resources p /\
    Player.actions_remaining p' = Player.actions_remaining p /\
    Player.current_uptime p' = Player.current_uptime p.
Proof.
  intros Hadd Hp.
  apply add_service_effect in Hadd
    as (_ & _ & _ & _ & _ & _ & _ & _ & [-> | (i & -> & _)] & _).
  - by exists p.
  - destruct (decide (i = k)) as [-> | Hne].
    + rewrite list_lookup_alter_eq, Hp. cbn. eexists. split; [done |].
      by destruct p.
    + rewrite list_lookup_alter_ne by done. by exists p.
Qed.

(** one pass of the build loop for the player at position [k]: either no
    hex is built on and the game is as before, or the player pays for one
    compute service and loses one action *)
Lemma try_build_effect (coords : list (Z * Z)) (k : nat) (w : World.t)
    (u : Simulation.ids) (g : AdvancedGameState.t) (p : Player.t) :
  AdvancedGameState.players g !! k = Some p ->
  (exists u', Simulation.try_build dump coords k (w, u, g) = Ok (w, u', g)) \/
  (exists e, PlayerResources.spend (Player.resources p)
               (ServiceType.costs ServiceType.COMPUTE) = Raise e /\
             Simulation.try_build dump coords k (w, u, g) = Raise e) \/
  (exists r, PlayerResources.spend (Player.resources p)
               (ServiceType.costs ServiceType.COMPUTE) = Ok (true, r) /\
     ((exists e,
         Player.set_actions_remaining p (Player.actions_remaining p - 1)
         = Raise e /\
         Simulation.try_build dump coords k (w, u, g) = Raise e) \/
      (exists w' u' g' p',
         Simulation.try_build dump coords k (w, u, g) = Ok (w', u', g') /\
         AdvancedGameState.players g' !! k = Some p' /\
         Player.resources p' = r /\
         Player.actions_remaining p' = Player.actions_remaining p - 1 /\
         0 <= Player.actions_remaining p - 1 < 6 /\
         Player.current_uptime p' = Player.current_uptime p /\
         length (AdvancedGameState.players g')
         = length (AdvancedGameState.players g)))).
Proof.
  intros Hp. revert u.
  induction coords as [| [row col] rest IH]; intros u; [left; by eexists |].
  cbn [Simulation.try_build].
  destruct (AdvancedGameState.in_service_grid g _); [apply IH |].
  rewrite Hp. unfold Simulation.new_service, Simulation.fresh.
  cbn [Service.service_type].
  destruct (PlayerResources.spend (Player.resources p) _)
    as [[paid r] | e] eqn:Hspend; cbn [bind fst snd].
  2: { right; left. by exists e. }
  destruct paid.
  2: { assert (Hr : r = Player.resources p).
       { unfold PlayerResources.spend in Hspend.
         destruct (PlayerResources.can_afford _ _).
         - destruct (PlayerResources.set_cpu _ _) as [r1 |]; [| done].
           cbn [bind] in Hspend.
           destruct (PlayerResources.set_memory _ _) as [r2 |]; [| done].
           cbn [bind] in Hspend.
           by destruct (PlayerResources.set_storage _ _).
         - by injection Hspend as <-. }
       subst r.
       destruct (IH (Simulation.mk_ids (Simulation.uuid4 u)
                       (S (Simulation.drawn u))))
         as [Hsame | [Hraise | (r & Hpaid & _)]].
       - by left.
       - right; by left.
       - congruence. }
  right; right. exists r. split; [done |].
  set (g1 := AdvancedGameState.with_players g _).
  destruct (AdvancedGameState.add_service dump w g1 _) as [[b w1] g2] eqn:Hadd.
  assert (Hp1 : AdvancedGameState.players g1 !! k
                = Some (Simulation.with_resources p r)).
  { subst g1. destruct g. cbn in *. by rewrite list_lookup_alter_eq, Hp. }
  assert (Hlen1 : length (AdvancedGameState.players g1)
                  = length (AdvancedGameState.players g)).
  { subst g1. destruct g. cbn. by rewrite length_alter. }
  destruct (add_service_player _ _ _ _ _ _ _ _ Hadd Hp1)
    as (p2 & Hp2 & Hres & Hact & Hup).
  assert (Hlen2 : length (AdvancedGameState.players g2)
                  = length (AdvancedGameState.players g1)).
  { apply add_service_effect in Hadd
      as (_ & _ & _ & _ & _ & _ & _ & _ & [-> | (i & -> & _)] & _);
      [done | by rewrite length_alter]. }
  rewrite Hp2, Hact. cbn [Simulation.with_resources Player.actions_remaining].
  unfold Player.set_actions_remaining.
  destruct ((0 <=? Player.actions_remaining p - 1)
            && (Player.actions_remaining p - 1 <? 6)) eqn:Hrange.
  - right. cbn [bind]. eexists _, _, _, _. split; [reflexivity |].
    destruct g2. cbn in *.
    rewrite list_lookup_insert_eq by (by apply lookup_lt_Some in Hp2).
    split; [reflexivity |]. cbn.
    split; [by rewrite Hres |]. split; [done |].
    split; [lia |]. split; [by rewrite Hup |].
    rewrite length_insert. congruence.
  - left. eexists. split; reflexivity.
Qed.

(** a pass that builds nothing for want of resources costs nothing *)
Lemma try_build_cannot_afford (coords : list (Z * Z)) (k : nat) (w : World.t)
    (u : Simulation.ids) (g : AdvancedGameState.t) (p : Player.t) :
  AdvancedGameState.players g !! k = Some p ->
  PlayerResources.can_afford (Player.resources p)
    (ServiceType.costs ServiceType.COMPUTE) = false ->
  exists u', Simulation.try_build dump coords k (w, u, g) = Ok (w, u', g).
Proof.
  intros Hp Hpoor.
  assert (Hspend : PlayerResources.spend (Player.resources p)
                     (ServiceType.costs ServiceType.COMPUTE)
                   = Ok (false, Player.resources p))
    by (unfold PlayerResources.spend; by rewrite Hpoor).
  destruct (try_build_effect coords k w u g p Hp)
    as [Hsame | [(e & He & _) | (r & Hr & _)]]; [done | congruence ..].
Qed.

(** X19: the action phase can loop without end.  If the first player has
    an action left and holds at least 4 resources in total but cannot pay
    for a compute service (2 CPU, 2 memory, 1 storage), the [while] loop
    of [handle_action_phase] leaves the game as it is at every iteration:
    the phase returns for no number of iterations, whatever the game, the
    clock and the ids. *)
Theorem handle_action_phase_stuck (fuel : nat) (w : World.t)
    (u : Simulation.ids) (g : AdvancedGameState.t)
    (p : Player.t) (rest : list Player.t) :
  AdvancedGameState.players g = p :: rest ->
  0 < Player.actions_remaining p ->
  4 <= PlayerResources.total_resources (Player.resources p) ->
  PlayerResources.can_afford (Player.resources p)
    (ServiceType.costs ServiceType.COMPUTE) = false ->
  Simulation.handle_action_phase dump fuel (w, u, g) = None.
Proof.
  intros Hps Hact Htotal Hpoor.
  unfold Simulation.handle_action_phase. cbn [snd]. rewrite Hps.
  cbn [length seq Simulation.for_players].
  assert (Hp : AdvancedGameState.players g !! 0%nat = Some p)
    by (by rewrite Hps).
  assert (Hturn : Simulation.player_turn dump fuel 0 (w, u, g) = None);
    [| by rewrite Hturn].
  clear Hps. revert u. induction fuel as [| fuel IH]; intros u.
  - cbn [Simulation.player_turn]. rewrite Hp.
    destruct (Z.ltb_spec 0 (Player.actions_remaining p)); [| lia].
    by destruct (Z.leb_spec 4 (PlayerResources.total_resources
                                 (Player.resources p))); [| lia].
  - cbn [Simulation.player_turn]. rewrite Hp.
    destruct (Z.ltb_spec 0 (Player.actions_remaining p)); [| lia].
    destruct (Z.leb_spec 4 (PlayerResources.total_resources
                              (Player.resources p))); [| lia].
    destruct (try_build_cannot_afford
                (Simulation.product_range (AdvancedGameState.grid_height g)
                                          (AdvancedGameState.grid_width g))
                0 w u g p Hp Hpoor) as [u' ->].
    apply IH.
Qed.

Lemma doomed_inv (a : Z) (r : PlayerResources.t) :
  Simulation.doomed a r ->
  0 < a /\ 4 <= PlayerResources.total_resources r /\
  (PlayerResources.can_afford r (ServiceType.costs ServiceType.COMPUTE) = false \/
   exists r', a <= 6 /\
              PlayerResources.spend r (ServiceType.costs ServiceType.COMPUTE)
              = Ok (true, r') /\
              Simulation.doomed (a - 1) r').
Proof.
  intros [a0 r0 Ha Ht Hpoor | a0 r0 r' Ha Ht Hspend Hnext].
  - split; [lia |]. split; [lia | by left].
  - split; [lia |]. split; [lia |]. right. exists r'. split; [lia | done].
Qed.

(** a doomed player never leaves the [while] loop *)
Lemma player_turn_doomed (fuel : nat) (k : nat) (w : World.t)
    (u : Simulation.ids) (g : AdvancedGameState.t) (p : Player.t) :
  AdvancedGameState.players g !! k = Some p ->
  Simulation.doomed (Player.actions_remaining p) (Player.resources p) ->
  Simulation.player_turn dump fuel k (w, u, g) = None.
Proof.
  revert w u g p. induction fuel as [| fuel IH]; intros w u g p Hp Hdoomed;
    apply doomed_inv in Hdoomed as (Hact & Htotal & Hnext);
    cbn [Simulation.player_turn]; rewrite Hp;
    (destruct (Z.ltb_spec 0 (Player.actions_remaining p)); [| lia]);
    (destruct (Z.leb_spec 4 (PlayerResources.total_resources
                               (Player.resources p))); [| lia]);
    [done |].
  destruct (try_build_effect
              (Simulation.product_range (AdvancedGameState.grid_height g)
                                        (AdvancedGameState.grid_width g))
              k w u g p Hp)
    as [[u' ->] | [(e & He & _) | (r & Hr & Hbuilt)]].
  - apply (IH w u' g p Hp).
    destruct Hnext as [Hpoor | (r' & Ha & Hspend & Hd)].
    + by apply Simulation.doomed_now.
    + by apply Simulation.doomed_after_build with r'; [lia | ..].
  - exfalso. destruct Hnext as [Hpoor | (r' & _ & Hspend & _)].
    + unfold PlayerResources.spend in He. by rewrite Hpoor in He.
    + congruence.
  - destruct Hnext as [Hpoor | (r' & Ha & Hspend & Hd)].
    { unfold PlayerResources.spend in Hr. by rewrite Hpoor in Hr. }
    assert (r = r') as -> by congruence.
    destruct Hbuilt as [(e & He & _) | (w' & u' & g' & p' & -> & Hp' & Hres
                                        & Hact' & _)].
    + unfold Player.set_actions_remaining in He.
      destruct (Z.leb_spec 0 (Player.actions_remaining p - 1)); [| lia].
      destruct (Z.ltb_spec (Player.actions_remaining p - 1) 6); [done | lia].
    + apply (IH w' u' g' p' Hp'). by rewrite Hres, Hact'.
Qed.

Lemma fresh_player_doomed (p : Player.t) :
  Player.resources p = PlayerResources.default ->
  Player.actions_remaining p = 3 ->
  Simulation.doomed (Player.actions_remaining p) (Player.resources p).
Proof.
  intros -> ->.
  apply Simulation.doomed_after_build with (PlayerResources.mk 3 3 4);
    [lia | by apply Z.leb_le | reflexivity |].
  apply Simulation.doomed_after_build with (PlayerResources.mk 1 1 3);
    [lia | by apply Z.leb_le | reflexivity |].
  apply Simulation.doomed_now; [lia | by apply Z.leb_le | reflexivity].
Qed.

(** X20: a fresh player blocks the action phase.  If the first player of
    the game has the default resources (5 CPU, 5 memory, 5 storage) and
    the default 3 actions, [handle_action_phase] does not return: after at
    most two builds the player holds 1/1/3 with one action left, which is
    at least 4 in total and too little for a compute service; with no
    free hex the loop spins at once.  This holds for every grid, every
    set of services, every clock and every id source. *)
Theorem handle_action_phase_fresh_player (fuel : nat) (w : World.t)
    (u : Simulation.ids) (g : AdvancedGameState.t)
    (p : Player.t) (rest : list Player.t) :
  AdvancedGameState.players g = p :: rest ->
  Player.resources p = PlayerResources.default ->
  Player.actions_remaining p = 3 ->
  Simulation.handle_action_phase dump fuel (w, u, g) = None.
Proof.
  intros Hps Hres Hact.
  unfold Simulation.handle_action_phase. cbn [snd]. rewrite Hps.
  cbn [length seq Simulation.for_players].
  rewrite (player_turn_doomed fuel 0 w u g p);
    [done | by rewrite Hps | by apply fresh_player_doomed].
Qed.

(** the simulation loop in its action phase *)
Lemma game_loop_action (fuel : nat) (w : World.t) (u : Simulation.ids)
    (g : AdvancedGameState.t) (p : Player.t) (rest : list Player.t) :
  AdvancedGameState.is_game_over g = false ->
  AdvancedGameState.phase g = GamePhase.ACTION ->
  AdvancedGameState.players g = p :: rest ->
  Simulation.doomed (Player.actions_remaining p) (Player.resources p) ->
  Simulation.game_loop dump fuel (w, u, g) = None.
Proof.
  intros Hover Hphase Hps Hdoomed.
  destruct fuel as [| fuel]; cbn [Simulation.game_loop]; rewrite Hover;
    [done |].
  rewrite Hphase. unfold Simulation.handle_action_phase. cbn [snd].
  rewrite Hps. cbn [length seq Simulation.for_players].
  rewrite (player_turn_doomed fuel 0 w u g p); [done | by rewrite Hps | done].
Qed.

(** X21: the simulation loop does not return.  From a validated game in
    its Setup, Traffic or Action phase, not beyond round 20, whose first
    player has a positive uptime, the default resources and the default 3
    actions, the [while not game.is_game_over()] loop of
    [simulate_game_async] never ends and never raises: it reaches the
    action phase and stays in it. *)
Theorem game_loop_never_returns (fuel : nat) (w : World.t)
    (u : Simulation.ids) (g : AdvancedGameState.t)
    (p : Player.t) (rest : list Player.t) :
  AdvancedGameState.valid g ->
  GameMetrics.valid (AdvancedGameState.metrics g) ->
  AdvancedGameState.round g <= 20 ->
  AdvancedGameState.phase g = GamePhase.SETUP \/
  AdvancedGameState.phase g = GamePhase.TRAFFIC \/
  AdvancedGameState.phase g = GamePhase.ACTION ->
  AdvancedGameState.players g = p :: rest ->
  (0 < Player.current_uptime p)%Q ->
  Player.resources p = PlayerResources.default ->
  Player.actions_remaining p = 3 ->
  Simulation.game_loop dump fuel (w, u, g) = None.
Proof.
  intros [_ Hv] Hm Hround Hphase Hps Hup Hres Hact.
  pose proof (fresh_player_doomed p Hres Hact) as Hdoomed.
  assert (Hrunning : forall g0,
            AdvancedGameState.round g0 = AdvancedGameState.round g ->
            AdvancedGameState.players g0 = AdvancedGameState.players g ->
            AdvancedGameState.phase g0 <> GamePhase.END ->
            AdvancedGameState.is_game_over g0 = false).
  { intros g0 Hr0 Hp0 Hph0. unfold AdvancedGameState.is_game_over.
    rewrite Hr0, Hp0, Hps. cbn [forallb].
    destruct (Z.ltb_spec 20 (AdvancedGameState.round g)); [lia |].
    destruct (Qle_bool (Player.current_uptime p) 0) eqn:Hle.
    - apply Qle_bool_iff in Hle. by apply Qle_not_lt in Hle.
    - cbn. by destruct (AdvancedGameState.phase g0). }
  assert (Haction : forall fuel0 g0,
            AdvancedGameState.round g0 = AdvancedGameState.round g ->
            AdvancedGameState.players g0 = AdvancedGameState.players g ->
            AdvancedGameState.phase g0 = GamePhase.ACTION ->
            Simulation.game_loop dump fuel0 (w, u, g0) = None).
  { intros fuel0 g0 Hr0 Hp0 Hph0.
    apply (game_loop_action fuel0 w u g0 p rest);
      [apply Hrunning; [done | done | by rewrite Hph0] | done
      | by rewrite Hp0 | done]. }
  assert (Htraffic : forall fuel0 g0,
            AdvancedGameState.validate_game_state g0 = true ->
            GameMetrics.valid (AdvancedGameState.metrics g0) ->
            AdvancedGameState.round g0 = AdvancedGameState.round g ->
            AdvancedGameState.players g0 = AdvancedGameState.players g ->
            AdvancedGameState.phase g0 = GamePhase.TRAFFIC ->
            Simulation.game_loop dump fuel0 (w, u, g0) = None).
  { intros fuel0 g0 Hv0 Hm0 Hr0 Hp0 Hph0.
    destruct fuel0 as [| fuel0]; cbn [Simulation.game_loop];
      rewrite (Hrunning g0 Hr0 Hp0) by (by rewrite Hph0); [done |].
    rewrite Hph0. unfold handle_traffic_phase, GameMetrics.set_total_requests.
    pose proof (traffic_nonneg (AdvancedGameState.players g0)) as Ht.
    destruct Hm0 as (Hreq & _).
    destruct (Z.leb_spec 0 (GameMetrics.total_requests
                              (AdvancedGameState.metrics g0)
                            + fold_left Z.add
                                (List.map
                                   (fun player =>
                                      Z.of_nat (length (Player.services player)) * 2)
                                   (AdvancedGameState.players g0)) 0));
      [| lia].
    cbn [bind Simulation.and_then].
    unfold AdvancedGameState.next_phase.
    destruct g0 as [gid rnd ph ps svcs gw gh ent m l cpi].
    cbn [AdvancedGameState.with_metrics AdvancedGameState.phase
         AdvancedGameState.metrics AdvancedGameState.players] in *.
    subst ph. rewrite set_phase_ok by exact Hv0.
    by apply Haction. }
  destruct Hphase as [Hph | [Hph | Hph]].
  - destruct fuel as [| fuel]; cbn [Simulation.game_loop];
      rewrite (Hrunning g eq_refl eq_refl) by (by rewrite Hph); [done |].
    rewrite Hph. cbn [Simulation.and_then].
    unfold AdvancedGameState.next_phase. rewrite Hph.
    rewrite set_phase_ok by exact Hv.
    by apply Htraffic.
  - by apply Htraffic.
  - by apply Haction.
Qed.

(** X22: [simulate_game_async] raises before it simulates anything.  Its
    first statement builds [AdvancedGameState()] with the default empty
    player list and the default [current_player_index = 0]; the model
    validator rejects an index that is not below the number of players, so
    the call raises [ValidationError] for every list of names, every clock
    and every id source. *)
Theorem simulate_game_async_raises (fuel : nat) (player_names : list string)
    (w : World.t) (u : Simulation.ids) :
  Simulation.simulate_game_async dump fuel player_names w u
  = Some (Raise ValidationError).
Proof. reflexivity. Qed.

(** a successful build, as an equation *)
Lemma add_service_built (w : World.t) (g : AdvancedGameState.t)
    (svc : Service.t) (i : nat) :
  AdvancedGameState.in_grid g (Service.location svc) = true ->
  AdvancedGameState.in_service_grid g (Service.location svc) = false ->
  py_index (AdvancedGameState.players g) (Service.owner_id svc) = Some i ->
  0 <= GameMetrics.services_built (AdvancedGameState.metrics g) ->
  exists entry,
    AdvancedGameState.add_service dump w g svc
    = (true,
       World.mk (World.clock w) (S (World.clock_reads w)) (World.str_hash w),
       AdvancedGameState.mk
         (AdvancedGameState.game_id g) (AdvancedGameState.round g)
         (AdvancedGameState.phase g)
         (alter (fun p => Player.with_services p
                            (Player.services p ++ [Service.id svc]))
                i (AdvancedGameState.players g))
         (<[Service.id svc := svc]> (AdvancedGameState.services g))
         (AdvancedGameState.grid_width g) (AdvancedGameState.grid_height g)
         (AdvancedGameState.entropy g)
         (GameMetrics.mk
            (GameMetrics.total_requests (AdvancedGameState.metrics g))
            (GameMetrics.cascade_failures (AdvancedGameState.metrics g))
            (GameMetrics.chaos_events (AdvancedGameState.metrics g))
            (GameMetrics.services_built (AdvancedGameState.metrics g) + 1)
            (GameMetrics.connections_created (AdvancedGameState.metrics g)))
         (AdvancedGameState.action_log g ++ [entry])
         (AdvancedGameState.current_player_index g)) /\
    LogEntry.action_type entry = "build_service" /\
    LogEntry.player_id entry = Service.owner_id svc /\
    LogEntry.round entry = AdvancedGameState.round g.
Proof.
  intros Hgrid Hfree Howner Hbuilt. unfold AdvancedGameState.add_service.
  rewrite Hgrid, Hfree. cbn [negb].
  cbn [AdvancedGameState.with_services AdvancedGameState.players].
  rewrite Howner.
  cbn [AdvancedGameState.with_players AdvancedGameState.metrics].
  unfold GameMetrics.set_services_built.
  replace (0 <=? _) with true by (cbn; lia).
  unfold AdvancedGameState.log_action, World.now_isoformat.
  eexists. split; [reflexivity |]. by cbn.
Qed.

End SimulationFacts.

Lemma free_after_insert (g g' : AdvancedGameState.t) (svc : Service.t)
    (loc : HexCoordinate.t) :
  AdvancedGameState.services g'
  = <[Service.id svc := svc]> (AdvancedGameState.services g) ->
  AdvancedGameState.in_service_grid g loc = false ->
  Service.location svc <> loc ->
  AdvancedGameState.in_service_grid g' loc = false.
Proof.
  intros Hins Hfree Hne.
  destruct (AdvancedGameState.in_service_grid g' loc) eqn:Hocc; [| done].
  apply in_service_grid_true in Hocc as (id & s & Hs & Hloc).
  rewrite Hins in Hs.
  apply lookup_insert_Some in Hs as [[_ <-] | [_ Hs]]; [done |].
  by destruct (in_service_grid_false g loc Hfree id s Hs).
Qed.

Lemma py_index_length {A B : Type} (xs : list A) (ys : list B) (i : Z) :
  length xs = length ys -> py_index xs i = py_index ys i.
Proof. unfold py_index. by intros ->. Qed.

(** ** Starting services and the witnesses of the simulation facts *)

Lemma handle_action_phase_stuck_witness :
  AdvancedGameState.players Samples3.stuck_game
  = Samples3.spent_alice :: [Samples.bob] /\
  0 < Player.actions_remaining Samples3.spent_alice /\
  4 <= PlayerResources.total_resources (Player.resources Samples3.spent_alice) /\
  Simulation.handle_action_phase Samples.dump 7
    (Samples.morning, Samples3.ids, Samples3.stuck_game) = None.
Proof.
  assert (Hact : 0 < Player.actions_remaining Samples3.spent_alice)
    by (by apply Z.ltb_lt).
  assert (Htotal : 4 <= PlayerResources.total_resources
                          (Player.resources Samples3.spent_alice))
    by (by apply Z.leb_le).
  split; [reflexivity |]. split; [exact Hact |]. split; [exact Htotal |].
  exact (handle_action_phase_stuck Samples.dump 7 Samples.morning Samples3.ids
           Samples3.stuck_game Samples3.spent_alice [Samples.bob]
           eq_refl Hact Htotal eq_refl).
Defined.

Lemma handle_action_phase_fresh_player_witness :
  AdvancedGameState.players Samples.new_game = Samples.alice :: [Samples.bob] /\
  Player.resources Samples.alice = PlayerResources.default /\
  Player.actions_remaining Samples.alice = 3 /\
  Simulation.handle_action_phase Samples.dump 7
    (Samples.morning, Samples3.ids, Samples.new_game) = None.
Proof.
  split; [reflexivity |]. split; [reflexivity |]. split; [reflexivity |].
  exact (handle_action_phase_fresh_player Samples.dump 7 Samples.morning
           Samples3.ids Samples.new_game Samples.alice [Samples.bob]
           eq_refl eq_refl eq_refl).
Defined.

Lemma game_loop_never_returns_witness :
  AdvancedGameState.valid Samples.new_game /\
  GameMetrics.valid (AdvancedGameState.metrics Samples.new_game) /\
  AdvancedGameState.round Samples.new_game <= 20 /\
  AdvancedGameState.phase Samples.new_game = GamePhase.SETUP /\
  (0 < Player.current_uptime Samples.alice)%Q /\
  Simulation.game_loop Samples.dump 9
    (Samples.morning, Samples3.ids, Samples.new_game) = None.
Proof.
  destruct new_game_valid as [Hv Hm].
  assert (Hround : AdvancedGameState.round Samples.new_game <= 20)
    by (by apply Z.leb_le).
  assert (Hup : (0 < Player.current_uptime Samples.alice)%Q) by reflexivity.
  split; [exact Hv |]. split; [exact Hm |]. split; [exact Hround |].
  split; [reflexivity |]. split; [exact Hup |].
  exact (game_loop_never_returns Samples.dump 9 Samples.morning Samples3.ids
           Samples.new_game Samples.alice [Samples.bob]
           Hv Hm Hround (or_introl eq_refl) eq_refl Hup eq_refl eq_refl).
Defined.

(** X23: the starting services of a player inside the grid.  For a player
    id [n >= 0] that is a valid index, with [2 n < grid_height] and
    [grid_width > 4], and the three hexes [(2 n, 0)], [(2 n, 2)] and
    [(2 n, 4)] free, [initialize_player_services] builds a compute, a
    database and a load-balancer service there, in this order: their ids
    are the next three drawn, the owner's list gains them in order,
    [services_built] grows by 3 and the log gains three entries. *)
Theorem initialize_player_services_builds
    (dump : AdvancedGameState.t -> string) (w : World.t) (u : Simulation.ids)
    (g : AdvancedGameState.t) (player_id : Z) (i : nat) :
  0 <= player_id ->
  player_id * 2 < AdvancedGameState.grid_height g ->
  4 < AdvancedGameState.grid_width g ->
  py_index (AdvancedGameState.players g) player_id = Some i ->
  0 <= GameMetrics.services_built (AdvancedGameState.metrics g) ->
  (forall j, In j [0; 1; 2] ->
     AdvancedGameState.in_service_grid g
       (HexCoordinate.mk (player_id * 2) (j * 2)) = false) ->
  let id_ (j : nat) := Simulation.uuid4 u (Simulation.drawn u + j)%nat in
  let built (j : nat) (service_type : ServiceType.t) :=
    Service.mk service_type
               (HexCoordinate.mk (player_id * 2) (Z.of_nat j * 2))
               player_id (id_ j) 0 ∅ 0 0 in
  exists w' g',
    Simulation.initialize_player_services dump player_id (w, u, g)
    = (w', Simulation.mk_ids (Simulation.uuid4 u) (Simulation.drawn u + 3), g') /\
    AdvancedGameState.services g'
    = <[id_ 2%nat := built 2%nat ServiceType.LOAD_BALANCER]>
        (<[id_ 1%nat := built 1%nat ServiceType.DATABASE]>
           (<[id_ 0%nat := built 0%nat ServiceType.COMPUTE]>
              (AdvancedGameState.services g))) /\
    AdvancedGameState.players g'
    = alter (fun p => Player.with_services p
                        (Player.services p
                         ++ [id_ 0%nat; id_ 1%nat; id_ 2%nat]))
            i (AdvancedGameState.players g) /\
    GameMetrics.services_built (AdvancedGameState.metrics g')
    = GameMetrics.services_built (AdvancedGameState.metrics g) + 3 /\
    length (AdvancedGameState.action_log g')
    = (length (AdvancedGameState.action_log g) + 3)%nat /\
    World.clock_reads w' = (World.clock_reads w + 3)%nat.
Proof.
  intros Hid Hrow Hcol Howner Hbuilt Hfree id_ built.
  unfold Simulation.initialize_player_services, Simulation.starting_types.
  assert (Hin : forall g0 j,
            AdvancedGameState.grid_height g0 = AdvancedGameState.grid_height g ->
            AdvancedGameState.grid_width g0 = AdvancedGameState.grid_width g ->
            In j [0; 1; 2] ->
            AdvancedGameState.in_grid g0
              (HexCoordinate.mk (player_id * 2) (j * 2)) = true).
  { intros g0 j Hh Hw Hj. unfold AdvancedGameState.in_grid. rewrite Hh, Hw.
    cbn [HexCoordinate.row HexCoordinate.col].
    assert (0 <= j <= 2) by (cbn in Hj; lia).
    repeat (apply andb_true_iff; split); lia. }
  (* first build *)
  cbn [Simulation.initialize_from].
  unfold Simulation.new_service at 1. unfold Simulation.fresh at 1.
  destruct (add_service_built dump w g
              (Service.mk ServiceType.COMPUTE
                 (HexCoordinate.mk (player_id * 2) (0 * 2)) player_id
                 (Simulation.uuid4 u (Simulation.drawn u)) 0 ∅ 0 0) i)
    as (e0 & -> & _);
    [apply (Hin g 0); [done | done | cbn; tauto]
    | apply (Hfree 0); cbn; tauto | done | done |].
  set (g1 := AdvancedGameState.mk _ _ _ _ _ _ _ _ _ _ _).
  (* second build *)
  unfold Simulation.new_service at 1. unfold Simulation.fresh at 1.
  cbn [Simulation.uuid4 Simulation.drawn].
  destruct (add_service_built dump
              (World.mk (World.clock w) (S (World.clock_reads w)) (World.str_hash w))
              g1
              (Service.mk ServiceType.DATABASE
                 (HexCoordinate.mk (player_id * 2) ((0 + 1) * 2)) player_id
                 (Simulation.uuid4 u (S (Simulation.drawn u))) 0 ∅ 0 0) i)
    as (e1 & -> & _).
  { apply (Hin g1 1); [done | done | cbn; tauto]. }
  { apply (free_after_insert g g1 _ _ eq_refl); [apply (Hfree 1); cbn; tauto |].
    cbn. intros [= ?]. }
  { cbn [Service.owner_id]. rewrite <- Howner. apply py_index_length.
    subst g1. cbn. by rewrite length_alter. }
  { subst g1. cbn. lia. }
  set (g2 := AdvancedGameState.mk _ _ _ _ _ _ _ _ _ _ _).
  (* third build *)
  unfold Simulation.new_service at 1. unfold Simulation.fresh at 1.
  cbn [Simulation.uuid4 Simulation.drawn World.clock World.clock_reads
       World.str_hash].
  destruct (add_service_built dump
              (World.mk (World.clock w) (S (S (World.clock_reads w)))
                        (World.str_hash w))
              g2
              (Service.mk ServiceType.LOAD_BALANCER
                 (HexCoordinate.mk (player_id * 2) ((0 + 1 + 1) * 2)) player_id
                 (Simulation.uuid4 u (S (S (Simulation.drawn u)))) 0 ∅ 0 0) i)
    as (e2 & -> & _).
  { apply (Hin g2 2); [done | done | cbn; tauto]. }
  { apply (free_after_insert g1 g2 _ _ eq_refl);
      [apply (free_after_insert g g1 _ _ eq_refl);
         [apply (Hfree 2); cbn; tauto |] |]; cbn; intros [= ?]. }
  { cbn [Service.owner_id]. rewrite <- Howner. apply py_index_length.
    subst g2 g1. cbn. by rewrite !length_alter. }
  { subst g2 g1. cbn. lia. }
  cbn [Simulation.initialize_from World.clock World.clock_reads World.str_hash].
  eexists _, _. split.
  { do 3 f_equal. f_equal. lia. }
  subst id_ built g2 g1.
  cbn [AdvancedGameState.services AdvancedGameState.players
       AdvancedGameState.metrics AdvancedGameState.action_log
       GameMetrics.services_built Service.id World.clock_reads].
  rewrite !Nat.add_0_r, !Nat.add_1_r.
  replace (Simulation.drawn u + 2)%nat with (S (S (Simulation.drawn u))) by lia.
  split; [reflexivity |]. split; [| split; [lia | split; [| lia]]].
  - rewrite !list_alter_alter_eq. apply list_alter_ext; [| done].
    intros p _. destruct p. cbn. by rewrite <- !app_assoc.
  - rewrite !length_app. cbn. lia.
Qed.

Lemma initialize_player_services_builds_witness :
  0 <= 1 /\
  1 * 2 < AdvancedGameState.grid_height Samples.new_game /\
  4 < AdvancedGameState.grid_width Samples.new_game /\
  py_index (AdvancedGameState.players Samples.new_game) 1 = Some 1%nat /\
  exists w' g',
    Simulation.initialize_player_services Samples.dump 1
      (Samples.morning, Samples3.ids, Samples.new_game)
    = (w', Simulation.mk_ids (Simulation.uuid4 Samples3.ids) 3, g') /\
    GameMetrics.services_built (AdvancedGameState.metrics g') = 3.
Proof.
  assert (Hid : 0 <= 1) by lia.
  assert (Hrow : 1 * 2 < AdvancedGameState.grid_height Samples.new_game)
    by (by apply Z.ltb_lt).
  assert (Hcol : 4 < AdvancedGameState.grid_width Samples.new_game)
    by (by apply Z.ltb_lt).
  assert (Hbuilt : 0 <= GameMetrics.services_built
                          (AdvancedGameState.metrics Samples.new_game))
    by (by apply Z.leb_le).
  assert (Hfree : forall j, In j [0; 1; 2] ->
            AdvancedGameState.in_service_grid Samples.new_game
              (HexCoordinate.mk (1 * 2) (j * 2)) = false)
    by (intros j _; reflexivity).
  split; [exact Hid |]. split; [exact Hrow |]. split; [exact Hcol |].
  split; [reflexivity |].
  destruct (initialize_player_services_builds Samples.dump Samples.morning
              Samples3.ids Samples.new_game 1 1%nat Hid Hrow Hcol eq_refl
              Hbuilt Hfree) as (w' & g' & Hrun & _ & _ & Hcount & _).
  exists w', g'. split; [exact Hrun | exact Hcount].
Defined.

(** X24: a player whose row lies outside the grid starts with nothing.
    When [2 * player.id >= grid_height] (on the default grid of 6 rows:
    from the fourth player on) or the id is negative, each of the three
    builds of [initialize_player_services] is refused: three ids are drawn,
    and the game, its log and the clock are as before. *)
Theorem initialize_player_services_outside_grid
    (dump : AdvancedGameState.t -> string) (w : World.t) (u : Simulation.ids)
    (g : AdvancedGameState.t) (player_id : Z) :
  player_id < 0 \/ AdvancedGameState.grid_height g <= player_id * 2 ->
  Simulation.initialize_player_services dump player_id (w, u, g)
  = (w, Simulation.mk_ids (Simulation.uuid4 u) (Simulation.drawn u + 3), g).
Proof.
  intros Hout.
  assert (Hrejected : forall (svc : Service.t),
            HexCoordinate.row (Service.location svc) = player_id * 2 ->
            AdvancedGameState.add_service dump w g svc = (false, w, g)).
  { intros svc Hrow. unfold AdvancedGameState.add_service.
    replace (AdvancedGameState.in_grid g (Service.location svc)) with false;
      [done |].
    symmetry. unfold AdvancedGameState.in_grid. rewrite Hrow.
    destruct (Z.leb_spec 0 (player_id * 2)); [| done].
    by destruct (Z.ltb_spec (player_id * 2) (AdvancedGameState.grid_height g));
      [lia |]. }
  unfold Simulation.initialize_player_services, Simulation.starting_types.
  cbn [Simulation.initialize_from].
  unfold Simulation.new_service, Simulation.fresh.
  cbn [Simulation.uuid4 Simulation.drawn].
  rewrite !Hrejected by reflexivity.
  do 2 f_equal. f_equal. lia.
Qed.

Lemma initialize_player_services_outside_grid_witness :
  (3 < 0 \/ AdvancedGameState.grid_height Samples3.four_player_game <= 3 * 2) /\
  Simulation.initialize_player_services Samples.dump 3
    (Samples.morning, Samples3.ids, Samples3.four_player_game)
  = (Samples.morning, Simulation.mk_ids (Simulation.uuid4 Samples3.ids) 3,
     Samples3.four_player_game).
Proof.
  assert (Hout : 3 < 0 \/
                 AdvancedGameState.grid_height Samples3.four_player_game <= 3 * 2)
    by (right; by apply Z.leb_le).
  split; [exact Hout |].
  exact (initialize_player_services_outside_grid Samples.dump Samples.morning
           Samples3.ids Samples3.four_player_game 3 Hout).
Defined.

(** ** The basic engine: grid, services, turns *)

Lemma basic_neighbors_advanced (c : HexCoordinate.t) :
  BasicEngine.Hex.neighbors c = HexCoordinate.neighbors c 1.
Proof.
  unfold BasicEngine.Hex.neighbors, HexCoordinate.neighbors,
    HexCoordinate.base_offsets, HexCoordinate.shifted, py_range.
  change (seqZ 1 (1 + 1 - 1)) with [1]. cbn [flat_map]. rewrite app_nil_r.
  destruct (HexCoordinate.row c mod 2 =? 0); cbn [List.map fst snd];
    unfold HexCoordinate.even_row_offsets, HexCoordinate.odd_row_offsets;
    cbn [List.map fst snd]; by rewrite ?Z.mul_1_r.
Qed.

Lemma basic_distance_advanced (a b : HexCoordinate.t) :
  BasicEngine.Hex.distance a b = HexCoordinate.distance_to a b.
Proof. reflexivity. Qed.

(** X25: the adjacent services of a hex.  [get_adjacent_services(coord)]
    of the basic grid returns exactly the ids placed on the hexes at
    distance 1 from [coord], and at most six of them. *)
Theorem basic_get_adjacent_services (grid : BasicEngine.Grid.t)
    (coord : HexCoordinate.t) :
  (forall service_id,
     In service_id (BasicEngine.Grid.get_adjacent_services grid coord) <->
     exists loc,
       BasicEngine.Hex.distance coord loc = 1 /\
       BasicEngine.Grid.services grid !! BasicEngine.Hex.key loc
       = Some service_id) /\
  (length (BasicEngine.Grid.get_adjacent_services grid coord) <= 6)%nat.
Proof.
  split.
  - intros service_id. unfold BasicEngine.Grid.get_adjacent_services.
    rewrite in_flat_map. split.
    + intros (loc & Hloc & Hid). exists loc.
      rewrite basic_neighbors_advanced in Hloc.
      apply in_neighbors_1_distance in Hloc. split; [done |].
      destruct (BasicEngine.Grid.services grid !! BasicEngine.Hex.key loc);
        [| done].
      by destruct Hid as [-> | []].
    + intros (loc & Hloc & Hid). exists loc. split.
      * rewrite basic_neighbors_advanced. by apply in_neighbors_1_distance.
      * rewrite Hid. by left.
  - unfold BasicEngine.Grid.get_adjacent_services, BasicEngine.Hex.neighbors.
    destruct (HexCoordinate.row coord mod 2 =? 0); cbn [List.map flat_map];
      rewrite !length_app;
      repeat match goal with
             | |- context [match ?o with Some _ => _ | None => _ end] =>
                 destruct o
             end; cbn; lia.
Qed.

(** a successful [add_service] of the basic engine, as an equation *)
Lemma basic_add_service_ok (g : BasicEngine.GameState.t)
    (svc : BasicEngine.Service.t) (i : nat) :
  BasicEngine.Grid.is_valid_coordinate (BasicEngine.GameState.grid g)
    (BasicEngine.Service.location svc) = true ->
  BasicEngine.Grid.is_empty (BasicEngine.GameState.grid g)
    (BasicEngine.Service.location svc) = true ->
  py_index (BasicEngine.GameState.players g) (BasicEngine.Service.owner_id svc)
  = Some i ->
  BasicEngine.GameState.add_service g svc
  = (BasicEngine.GameState.mk
       (BasicEngine.GameState.game_id g) (BasicEngine.GameState.round g)
       (BasicEngine.GameState.phase g)
       (alter (fun p => BasicEngine.with_player_services p
                          (Basic.Player.services p
                           ++ [BasicEngine.Service.id svc]))
              i (BasicEngine.GameState.players g))
       (BasicEngine.Grid.mk
          (BasicEngine.Grid.width (BasicEngine.GameState.grid g))
          (BasicEngine.Grid.height (BasicEngine.GameState.grid g))
          (<[BasicEngine.Hex.key (BasicEngine.Service.location svc)
             := BasicEngine.Service.id svc]>
             (BasicEngine.Grid.services (BasicEngine.GameState.grid g))))
       (<[BasicEngine.Service.id svc := svc]> (BasicEngine.GameState.services g))
       (BasicEngine.Metrics.with_services_built (BasicEngine.GameState.metrics g)
          (BasicEngine.Metrics.services_built (BasicEngine.GameState.metrics g)
           + 1))
       (BasicEngine.GameState.entropy g)
       (BasicEngine.GameState.current_player_index g)
       (BasicEngine.GameState.action_log g),
     Ok true).
Proof.
  intros Hvalid Hempty Howner.
  unfold BasicEngine.GameState.add_service, BasicEngine.Grid.place_service.
  rewrite Hvalid, Hempty. cbn [andb].
  cbn [BasicEngine.GameState.with_grid BasicEngine.GameState.with_services
       BasicEngine.GameState.players BasicEngine.GameState.services].
  rewrite Howner. reflexivity.
Qed.

Lemma list_remove_last (x : string) (xs : list string) :
  ~ In x xs -> BasicEngine.list_remove x (xs ++ [x]) = xs.
Proof.
  induction xs as [| y ys IH]; intros Hnot; cbn.
  - by rewrite String.eqb_refl.
  - destruct (String.eqb_spec y x) as [-> | Hne].
    + destruct Hnot. by left.
    + rewrite IH; [done |]. intros Hin. apply Hnot. by right.
Qed.

Lemma list_mem_last (x : string) (xs : list string) :
  BasicEngine.list_mem x (xs ++ [x]) = true.
Proof.
  unfold BasicEngine.list_mem. rewrite existsb_app. cbn.
  rewrite String.eqb_refl. by rewrite orb_true_r.
Qed.

(** X26: building and removing a service is a round trip.  In the basic
    engine, after [add_service] has placed a service with a new id on a
    valid, empty hex for an existing owner who does not yet list that id,
    [remove_service] of that id returns true and restores the grid, the
    services dict and the owner's service list: the game is as before,
    except that [services_built] stays incremented. *)
Theorem basic_add_remove_round_trip (g : BasicEngine.GameState.t)
    (svc : BasicEngine.Service.t) (i : nat) (p : Basic.Player.t) :
  BasicEngine.Grid.is_valid_coordinate (BasicEngine.GameState.grid g)
    (BasicEngine.Service.location svc) = true ->
  BasicEngine.Grid.is_empty (BasicEngine.GameState.grid g)
    (BasicEngine.Service.location svc) = true ->
  BasicEngine.GameState.services g !! BasicEngine.Service.id svc = None ->
  py_index (BasicEngine.GameState.players g) (BasicEngine.Service.owner_id svc)
  = Some i ->
  BasicEngine.GameState.players g !! i = Some p ->
  ~ In (BasicEngine.Service.id svc) (Basic.Player.services p) ->
  exists g1,
    BasicEngine.GameState.add_service g svc = (g1, Ok true) /\
    BasicEngine.GameState.services g1 !! BasicEngine.Service.id svc = Some svc /\
    BasicEngine.GameState.remove_service g1 (BasicEngine.Service.id svc)
    = (BasicEngine.GameState.with_metrics g
         (BasicEngine.Metrics.with_services_built
            (BasicEngine.GameState.metrics g)
            (BasicEngine.Metrics.services_built
               (BasicEngine.GameState.metrics g) + 1)),
       Ok true).
Proof.
  intros Hvalid Hempty Hnew Howner Hp Hunlisted.
  rewrite (basic_add_service_ok g svc i Hvalid Hempty Howner).
  eexists. split; [reflexivity |].
  destruct g as [gid rnd ph ps [gw gh cells] svcs m ent cpi l].
  cbn [BasicEngine.GameState.game_id BasicEngine.GameState.round
       BasicEngine.GameState.phase BasicEngine.GameState.players
       BasicEngine.GameState.grid BasicEngine.GameState.services
       BasicEngine.GameState.metrics BasicEngine.GameState.entropy
       BasicEngine.GameState.current_player_index
       BasicEngine.GameState.action_log BasicEngine.Grid.width
       BasicEngine.Grid.height BasicEngine.Grid.services] in *.
  split; [by rewrite lookup_insert_eq |].
  unfold BasicEngine.GameState.remove_service.
  cbn [BasicEngine.GameState.services]. rewrite lookup_insert_eq.
  cbn [BasicEngine.GameState.with_grid BasicEngine.GameState.with_services
       BasicEngine.GameState.players BasicEngine.GameState.grid
       BasicEngine.GameState.services BasicEngine.Grid.remove_service snd
       BasicEngine.Grid.width BasicEngine.Grid.height
       BasicEngine.Grid.services].
  rewrite (py_index_length _ ps) by apply length_alter.
  rewrite Howner, list_lookup_alter_eq, Hp.
  cbn [fmap option_fmap option_map BasicEngine.with_player_services
       Basic.Player.services].
  rewrite list_mem_last, list_remove_last by done.
  unfold BasicEngine.Grid.is_empty in Hempty.
  cbn [BasicEngine.Grid.services] in Hempty.
  destruct (cells !! _) eqn:Hcell; [done |].
  rewrite !delete_insert_id by done.
  unfold BasicEngine.GameState.with_players, BasicEngine.GameState.with_metrics.
  cbn. do 2 f_equal.
  apply list_eq. intros j. destruct (decide (j = i)) as [-> | Hne].
  - rewrite list_lookup_insert_eq
      by (rewrite length_alter; by apply lookup_lt_Some in Hp).
    rewrite Hp. by destruct p.
  - rewrite list_lookup_insert_ne by done.
    by rewrite list_lookup_alter_ne.
Qed.

Lemma basic_add_remove_round_trip_witness :
  BasicEngine.Grid.is_valid_coordinate
    (BasicEngine.GameState.grid Samples4.basic_game)
    (BasicEngine.Service.location Samples4.basic_service) = true /\
  BasicEngine.GameState.services Samples4.basic_game
    !! BasicEngine.Service.id Samples4.basic_service = None /\
  exists g1,
    BasicEngine.GameState.add_service Samples4.basic_game Samples4.basic_service
    = (g1, Ok true) /\
    BasicEngine.GameState.services g1 !! "svc1" = Some Samples4.basic_service.
Proof.
  assert (Hunlisted : ~ In (BasicEngine.Service.id Samples4.basic_service)
                          (Basic.Player.services
                             (BasicEngine.new_player 0 "Alice")))
    by (intros []).
  split; [reflexivity |]. split; [reflexivity |].
  destruct (basic_add_remove_round_trip Samples4.basic_game
              Samples4.basic_service 0 (BasicEngine.new_player 0 "Alice")
              eq_refl eq_refl eq_refl eq_refl eq_refl Hunlisted)
    as (g1 & Hadd & Hstored & _).
  exists g1. split; [exact Hadd | exact Hstored].
Defined.

(** X27: grid and services dict stay in step.  In the basic engine, if a
    hex of the grid holds an id exactly when the service stored under that
    id stands on that hex, then this is still so after [add_service] of a
    service whose id is not yet in use, whether the call returns true,
    returns false or raises [IndexError] for an unknown owner, and after
    every [remove_service]. *)
Theorem basic_grid_stays_in_step (g : BasicEngine.GameState.t) :
  BasicEngine.grid_in_step g ->
  (forall svc,
     BasicEngine.GameState.services g !! BasicEngine.Service.id svc = None ->
     BasicEngine.grid_in_step (fst (BasicEngine.GameState.add_service g svc))) /\
  (forall service_id,
     BasicEngine.grid_in_step
       (fst (BasicEngine.GameState.remove_service g service_id))).
Proof.
  intros Hstep. split.
  - intros svc Hnew.
    unfold BasicEngine.GameState.add_service, BasicEngine.Grid.place_service.
    destruct (BasicEngine.Grid.is_valid_coordinate _ _
              && BasicEngine.Grid.is_empty _ _) eqn:Hplace; [| exact Hstep].
    apply andb_true_iff in Hplace as [_ Hempty].
    unfold BasicEngine.Grid.is_empty in Hempty.
    destruct (BasicEngine.Grid.services (BasicEngine.GameState.grid g)
              !! BasicEngine.Hex.key (BasicEngine.Service.location svc))
      eqn:Hcell; [done |].
    assert (Hgoal : forall g',
              BasicEngine.Grid.services (BasicEngine.GameState.grid g')
              = <[BasicEngine.Hex.key (BasicEngine.Service.location svc)
                  := BasicEngine.Service.id svc]>
                  (BasicEngine.Grid.services (BasicEngine.GameState.grid g)) ->
              BasicEngine.GameState.services g'
              = <[BasicEngine.Service.id svc := svc]>
                  (BasicEngine.GameState.services g) ->
              BasicEngine.grid_in_step g').
    { intros g' Hgrid Hsvcs loc sid. rewrite Hgrid, Hsvcs.
      rewrite lookup_insert_Some. split.
      - intros [[<- <-] | [Hne Hold]].
        + exists svc. by rewrite lookup_insert_eq.
        + apply Hstep in Hold as (s & Hs & Hloc). exists s. split; [| done].
          rewrite lookup_insert_ne; [done |]. intros <-. congruence.
      - intros (s & Hs & Hloc).
        apply lookup_insert_Some in Hs as [[<- <-] | [Hne Hs]].
        + by left.
        + right. split.
          * intros <-.
            assert (Hold : BasicEngine.Grid.services (BasicEngine.GameState.grid g)
                           !! BasicEngine.Hex.key (BasicEngine.Service.location svc)
                           = Some sid) by (apply Hstep; by exists s).
            congruence.
          * apply Hstep. by exists s. }
    cbn [BasicEngine.GameState.with_grid BasicEngine.GameState.with_services
         BasicEngine.GameState.players BasicEngine.GameState.services].
    destruct (py_index (BasicEngine.GameState.players g) _) as [i |];
      cbn [fst]; by apply Hgoal.
  - intros service_id. unfold BasicEngine.GameState.remove_service.
    destruct (BasicEngine.GameState.services g !! service_id) as [service |]
      eqn:Hservice; [| exact Hstep].
    assert (Hgoal : forall g',
              BasicEngine.Grid.services (BasicEngine.GameState.grid g')
              = delete (BasicEngine.Hex.key (BasicEngine.Service.location service))
                  (BasicEngine.Grid.services (BasicEngine.GameState.grid g)) ->
              BasicEngine.GameState.services g'
              = delete service_id (BasicEngine.GameState.services g) ->
              BasicEngine.grid_in_step g').
    { intros g' Hgrid Hsvcs loc sid. rewrite Hgrid, Hsvcs.
      rewrite lookup_delete_Some. split.
      - intros [Hne Hold]. apply Hstep in Hold as (s & Hs & Hloc).
        exists s. split; [| done]. apply lookup_delete_Some. split; [| done].
        intros <-. congruence.
      - intros (s & Hs & Hloc). apply lookup_delete_Some in Hs as [Hne Hs].
        split.
        + intros <-.
          assert (H1 : BasicEngine.Grid.services (BasicEngine.GameState.grid g)
                       !! BasicEngine.Hex.key (BasicEngine.Service.location service)
                       = Some service_id) by (apply Hstep; by exists service).
          assert (H2 : BasicEngine.Grid.services (BasicEngine.GameState.grid g)
                       !! BasicEngine.Hex.key (BasicEngine.Service.location service)
                       = Some sid) by (apply Hstep; by exists s).
          congruence.
        + apply Hstep. by exists s. }
    cbn [BasicEngine.GameState.with_grid BasicEngine.GameState.with_services
         BasicEngine.GameState.players BasicEngine.GameState.services
         BasicEngine.GameState.grid BasicEngine.Grid.remove_service snd].
    destruct (py_index (BasicEngine.GameState.players g) _) as [i |];
      [| cbn [fst]; by apply Hgoal].
    destruct (BasicEngine.GameState.players g !! i) as [p |];
      [| cbn [fst]; by apply Hgoal].
    destruct (BasicEngine.list_mem service_id (Basic.Player.services p));
      cbn [fst]; by apply Hgoal.
Qed.

Lemma basic_grid_stays_in_step_witness :
  BasicEngine.grid_in_step Samples4.basic_game /\
  BasicEngine.grid_in_step
    (fst (BasicEngine.GameState.add_service Samples4.basic_game
            Samples4.basic_service)).
Proof.
  assert (Hstep : BasicEngine.grid_in_step Samples4.basic_game).
  { intros loc sid. cbn. rewrite lookup_empty. split; [done |].
    intros (s & Hs & _). by rewrite lookup_empty in Hs. }
  split; [exact Hstep |].
  exact (proj1 (basic_grid_stays_in_step Samples4.basic_game Hstep)
           Samples4.basic_service eq_refl).
Defined.

Lemma basic_next_player_n_index (k : nat) (g : BasicEngine.GameState.t) :
  BasicEngine.GameState.players g <> [] ->
  0 <= BasicEngine.GameState.current_player_index g
     < Z.of_nat (length (BasicEngine.GameState.players g)) ->
  basic_next_player_n k g
  = Ok (BasicEngine.GameState.with_current_player_index g
          ((BasicEngine.GameState.current_player_index g + Z.of_nat k)
           mod Z.of_nat (length (BasicEngine.GameState.players g)))).
Proof.
  intros Hplayers Hindex.
  assert (Hn : 0 < Z.of_nat (length (BasicEngine.GameState.players g)))
    by (destruct (BasicEngine.GameState.players g); [done | cbn; lia]).
  induction k as [| k IH].
  - cbn [basic_next_player_n]. rewrite Z.add_0_r, Z.mod_small by lia.
    by destruct g.
  - cbn [basic_next_player_n]. rewrite IH. cbn [bind].
    unfold BasicEngine.GameState.next_player.
    destruct g as [gid rnd ph ps grid svcs m ent cpi l].
    cbn [BasicEngine.GameState.with_current_player_index
         BasicEngine.GameState.players
         BasicEngine.GameState.current_player_index] in *.
    destruct (Z.eqb_spec (Z.of_nat (length ps)) 0); [lia |].
    unfold BasicEngine.GameState.with_current_player_index. cbn.
    do 2 f_equal. rewrite Zplus_mod_idemp_l. f_equal. lia.
Qed.

(** X28: turns go round.  In the basic engine with at least one player
    and a current index inside the player list, [k] calls of
    [next_player] move the index to [(index + k) mod len(players)] and
    change nothing else: after [len(players)] calls it is back where it
    started, and [get_current_player] always finds a player.  With no
    player at all a call raises [ZeroDivisionError]. *)
Theorem basic_next_player_cycles (k : nat) (g : BasicEngine.GameState.t) :
  let n := Z.of_nat (length (BasicEngine.GameState.players g)) in
  (BasicEngine.GameState.players g = [] ->
   BasicEngine.GameState.next_player g = Raise ZeroDivisionError) /\
  (BasicEngine.GameState.players g <> [] ->
   0 <= BasicEngine.GameState.current_player_index g < n ->
   exists g',
     basic_next_player_n k g = Ok g' /\
     g' = BasicEngine.GameState.with_current_player_index g
            ((BasicEngine.GameState.current_player_index g + Z.of_nat k) mod n) /\
     (exists p, BasicEngine.GameState.get_current_player g' = Ok p) /\
     basic_next_player_n (length (BasicEngine.GameState.players g)) g = Ok g).
Proof.
  intros n. subst n. split.
  - intros Hnone. unfold BasicEngine.GameState.next_player. by rewrite Hnone.
  - intros Hplayers Hindex.
    assert (Hn : 0 < Z.of_nat (length (BasicEngine.GameState.players g)))
      by (destruct (BasicEngine.GameState.players g); [done | cbn; lia]).
    eexists. split; [by apply basic_next_player_n_index |].
    split; [reflexivity |]. split.
    + unfold BasicEngine.GameState.get_current_player.
      destruct g as [gid rnd ph ps grid svcs m ent cpi l].
      cbn [BasicEngine.GameState.with_current_player_index
           BasicEngine.GameState.players
           BasicEngine.GameState.current_player_index] in *.
      pose proof (Z.mod_pos_bound (cpi + Z.of_nat k) (Z.of_nat (length ps)) Hn)
        as Hbound.
      unfold py_index.
      destruct (Z.leb_spec 0 ((cpi + Z.of_nat k) mod Z.of_nat (length ps)));
        [| lia].
      destruct (Z.ltb_spec ((cpi + Z.of_nat k) mod Z.of_nat (length ps))
                           (Z.of_nat (length ps))); [| lia].
      cbn [andb].
      destruct (lookup_lt_is_Some_2 ps
                  (Z.to_nat ((cpi + Z.of_nat k) mod Z.of_nat (length ps))))
        as [p Hp]; [lia |].
      rewrite Hp. by exists p.
    + rewrite basic_next_player_n_index by done.
      rewrite <- (Z.mul_1_l (Z.of_nat (length _))) at 1.
      rewrite Z.mod_add, Z.mod_small by lia. by destruct g.
Qed.

(** ** Setting up a basic game *)

Lemma row_cells_column (r c : Z) (m : nat) (loc : Z * Z) :
  In loc (BasicEngine.row_cells r c m) -> fst loc = r /\ c <= snd loc.
Proof.
  revert c. induction m as [| m IH]; intros c; cbn; [done |].
  intros [<- | Hin]; [cbn; lia |]. apply IH in Hin. lia.
Qed.

Lemma post_init_fields (u : Simulation.ids) (s : BasicEngine.Service.t) :
  BasicEngine.Service.location (fst (BasicEngine.Service.post_init u s))
  = BasicEngine.Service.location s /\
  BasicEngine.Service.owner_id (fst (BasicEngine.Service.post_init u s))
  = BasicEngine.Service.owner_id s.
Proof.
  unfold BasicEngine.Service.post_init.
  by destruct (String.eqb (BasicEngine.Service.id s) "").
Qed.

Lemma place_starting_spec (types : list ServiceType.t) (j : Z)
    (base_coord : HexCoordinate.t) (owner_id : Z) (u : Simulation.ids)
    (g : BasicEngine.GameState.t) (i : nat) (cells : list (Z * Z)) :
  BasicEngine.Grid.width (BasicEngine.GameState.grid g) = 8 ->
  BasicEngine.Grid.height (BasicEngine.GameState.grid g) = 6 ->
  py_index (BasicEngine.GameState.players g) owner_id = Some i ->
  (forall loc,
     is_Some (BasicEngine.Grid.services (BasicEngine.GameState.grid g) !! loc) ->
     In loc cells) ->
  (forall loc,
     In loc (BasicEngine.row_cells (HexCoordinate.row base_coord)
               (HexCoordinate.col base_coord + j) (length types)) ->
     ~ In loc cells) ->
  exists u' g' ids,
    BasicEngine.place_starting j types base_coord owner_id (u, g)
    = Ok (u', g') /\
    length ids
    = length (List.filter BasicEngine.in_default_grid
                (BasicEngine.row_cells (HexCoordinate.row base_coord)
                   (HexCoordinate.col base_coord + j) (length types))) /\
    BasicEngine.placed_row g g' i ids /\
    (forall loc,
       is_Some (BasicEngine.Grid.services (BasicEngine.GameState.grid g') !! loc) ->
       In loc (cells
               ++ List.filter BasicEngine.in_default_grid
                    (BasicEngine.row_cells (HexCoordinate.row base_coord)
                       (HexCoordinate.col base_coord + j) (length types)))).
Proof.
  revert j u g cells.
  induction types as [| service_type rest IH];
    intros j u g cells Hw Hh Howner Hdom Hfree.
  - exists u, g, []. split; [reflexivity |]. split; [reflexivity |].
    split.
    + unfold BasicEngine.placed_row. cbn [length].
      rewrite Z.add_0_r. repeat split; try done.
      symmetry. apply list_alter_id. intros p. destruct p. cbn.
      by rewrite app_nil_r.
    + intros loc Hloc. rewrite app_nil_r. by apply Hdom.
  - cbn [BasicEngine.place_starting length BasicEngine.row_cells List.filter].
    set (coord := HexCoordinate.mk (HexCoordinate.row base_coord)
                                   (HexCoordinate.col base_coord + j)).
    assert (Hvalid : BasicEngine.Grid.is_valid_coordinate
                       (BasicEngine.GameState.grid g) coord
                     = BasicEngine.in_default_grid
                         (HexCoordinate.row base_coord,
                          HexCoordinate.col base_coord + j)).
    { unfold BasicEngine.Grid.is_valid_coordinate, BasicEngine.in_default_grid.
      by rewrite Hw, Hh. }
    rewrite Hvalid.
    assert (Hrest : forall cells',
              (forall loc, In loc cells' ->
                 In loc cells \/
                 loc = (HexCoordinate.row base_coord,
                        HexCoordinate.col base_coord + j)) ->
              forall loc,
                In loc (BasicEngine.row_cells (HexCoordinate.row base_coord)
                          (HexCoordinate.col base_coord + (j + 1))
                          (length rest)) ->
                ~ In loc cells').
    { intros cells' Hcells' loc Hloc Hin.
      rewrite Z.add_assoc in Hloc.
      destruct (Hcells' loc Hin) as [Hold | ->].
      - apply (Hfree loc); [| done]. cbn [length BasicEngine.row_cells].
        by right.
      - apply row_cells_column in Hloc. cbn in Hloc. lia. }
    destruct (BasicEngine.in_default_grid _) eqn:Hin_grid.
    + unfold Simulation.fresh.
      set (made := BasicEngine.Service.post_init _ _).
      destruct (post_init_fields
                  (Simulation.mk_ids (Simulation.uuid4 u) (S (Simulation.drawn u)))
                  (BasicEngine.Service.mk
                     (Simulation.uuid4 u (Simulation.drawn u)) service_type coord
                     owner_id
                     (Basic.ServiceCosts.capacity
                        (BasicEngine.get_costs service_type))
                     (Basic.ServiceCosts.capacity
                        (BasicEngine.get_costs service_type)) ∅ 0 0))
        as [Hloc Hown].
      fold made in Hloc, Hown. destruct made as [service u2].
      cbn [fst BasicEngine.Service.location BasicEngine.Service.owner_id]
        in Hloc, Hown.
      assert (Hempty : BasicEngine.Grid.is_empty (BasicEngine.GameState.grid g)
                         (BasicEngine.Service.location service) = true).
      { unfold BasicEngine.Grid.is_empty. rewrite Hloc.
        destruct (BasicEngine.Grid.services (BasicEngine.GameState.grid g)
                  !! BasicEngine.Hex.key coord) eqn:Hcell; [| done].
        exfalso. apply (Hfree (BasicEngine.Hex.key coord)).
        - cbn [length BasicEngine.row_cells]. by left.
        - apply Hdom. by eexists. }
      rewrite (basic_add_service_ok g service i);
        [| by rewrite Hloc, Hvalid | exact Hempty | by rewrite Hown].
      set (g1 := BasicEngine.GameState.mk _ _ _ _ _ _ _ _ _ _).
      destruct (IH (j + 1) u2 g1
                  (cells ++ [(HexCoordinate.row base_coord,
                              HexCoordinate.col base_coord + j)]))
        as (u' & g' & ids & Hrun & Hlen & Hrow & Hdom').
      * by subst g1.
      * by subst g1.
      * subst g1. cbn [BasicEngine.GameState.players].
        rewrite <- Howner. apply py_index_length. apply length_alter.
      * subst g1. cbn [BasicEngine.GameState.grid BasicEngine.Grid.services].
        intros loc [v Hv]. rewrite Hloc in Hv.
        apply lookup_insert_Some in Hv as [[<- _] | [_ Hv]].
        -- apply in_app_iff. right. by left.
        -- apply in_app_iff. left. apply Hdom. by eexists.
      * apply Hrest. intros loc [Hold | [<- | []]]%in_app_iff; [by left | by right].
      * exists u', g', (BasicEngine.Service.id service :: ids).
        split; [exact Hrun |]. split.
        { cbn [length]. rewrite Hlen. by rewrite Z.add_assoc. }
        split.
        { destruct Hrow as (Hps & Hbuilt & Hw' & Hh' & Hid & Hr & Hph & He
                            & Hc & Hl).
          subst g1. cbn in Hps, Hbuilt, Hw', Hh', Hid, Hr, Hph, He, Hc, Hl.
          unfold BasicEngine.placed_row.
          repeat split; try done.
          - rewrite Hps, list_alter_alter_eq. apply list_alter_ext; [| done].
            intros p _. destruct p. cbn. by rewrite <- app_assoc.
          - rewrite Hbuilt. cbn [length]. lia. }
        { intros loc Hsome. apply Hdom' in Hsome.
          rewrite <- app_assoc in Hsome. cbn [app] in Hsome.
          by rewrite Z.add_assoc in Hsome. }
    + destruct (IH (j + 1) u g cells Hw Hh Howner Hdom) as
        (u' & g' & ids & Hrun & Hlen & Hrow & Hdom').
      * apply Hrest. intros loc Hold. by left.
      * exists u', g', ids. split; [exact Hrun |].
        split; [by rewrite Hlen, Z.add_assoc |]. split; [exact Hrow |].
        intros loc Hsome. apply Hdom' in Hsome.
        by rewrite Z.add_assoc in Hsome.
Qed.

Lemma starting_cells_beyond (k : nat) :
  (4 <= k)%nat -> BasicEngine.starting_cells k = [].
Proof.
  intros Hk. unfold BasicEngine.starting_cells.
  do 4 (destruct k as [| k]; [lia |]). reflexivity.
Qed.

Lemma starting_cells_free (i : nat) (base_coord : HexCoordinate.t) :
  BasicEngine.starting_positions !! i = Some base_coord ->
  forall loc,
    In loc (BasicEngine.row_cells (HexCoordinate.row base_coord)
              (HexCoordinate.col base_coord + 0)
              (length BasicEngine.starting_services)) ->
    ~ In loc (flat_map BasicEngine.starting_cells (seq 0 i)).
Proof.
  intros Hbase loc Hloc Hin.
  do 4 (destruct i as [| i];
        [injection Hbase as <-; vm_compute in Hloc, Hin;
         repeat (destruct Hloc as [<- | Hloc]; [intuition congruence |]);
         done |]).
  discriminate.
Qed.

(** the set-up loop over the players from position [i] on *)
Lemma place_all_spec (owners : list Z) (i : nat) (u : Simulation.ids)
    (g : BasicEngine.GameState.t) :
  BasicEngine.Grid.width (BasicEngine.GameState.grid g) = 8 ->
  BasicEngine.Grid.height (BasicEngine.GameState.grid g) = 6 ->
  (forall loc,
     is_Some (BasicEngine.Grid.services (BasicEngine.GameState.grid g) !! loc) ->
     In loc (flat_map BasicEngine.starting_cells (seq 0 i))) ->
  (forall t o, owners !! t = Some o ->
     py_index (BasicEngine.GameState.players g) o = Some (i + t)%nat) ->
  exists u' g',
    BasicEngine.place_all i owners (u, g) = Ok (u', g') /\
    length (BasicEngine.GameState.players g')
    = length (BasicEngine.GameState.players g) /\
    (forall k p,
       BasicEngine.GameState.players g !! k = Some p ->
       exists p',
         BasicEngine.GameState.players g' !! k = Some p' /\
         p' = BasicEngine.with_player_services p (Basic.Player.services p') /\
         length (Basic.Player.services p')
         = (length (Basic.Player.services p)
            + if decide (i <= k < i + length owners)%nat
              then length (BasicEngine.starting_cells k) else 0)%nat) /\
    BasicEngine.Metrics.services_built (BasicEngine.GameState.metrics g')
    = BasicEngine.Metrics.services_built (BasicEngine.GameState.metrics g)
      + Z.of_nat (length (flat_map BasicEngine.starting_cells
                            (seq i (length owners)))) /\
    BasicEngine.Grid.width (BasicEngine.GameState.grid g') = 8 /\
    BasicEngine.Grid.height (BasicEngine.GameState.grid g') = 6 /\
    BasicEngine.GameState.game_id g' = BasicEngine.GameState.game_id g /\
    BasicEngine.GameState.round g' = BasicEngine.GameState.round g /\
    BasicEngine.GameState.phase g' = BasicEngine.GameState.phase g /\
    BasicEngine.GameState.entropy g' = BasicEngine.GameState.entropy g /\
    BasicEngine.GameState.current_player_index g'
    = BasicEngine.GameState.current_player_index g /\
    BasicEngine.GameState.action_log g' = BasicEngine.GameState.action_log g.
Proof.
  revert i u g.
  induction owners as [| owner rest IH]; intros i u g Hw Hh Hdom Howners.
  - exists u, g. split; [reflexivity |]. split; [done |]. split.
    + intros k p Hp. exists p. split; [done |]. split; [by destruct p |].
      cbn [length]. destruct (decide _); lia.
    + cbn [length seq flat_map]. rewrite Z.add_0_r. by repeat split.
  - cbn [BasicEngine.place_all].
    assert (Hstep : exists u1 g1 ids,
              match BasicEngine.starting_positions !! i with
              | Some base_coord =>
                  BasicEngine.place_starting 0 BasicEngine.starting_services
                    base_coord owner (u, g)
              | None => Ok (u, g)
              end = Ok (u1, g1) /\
              length ids = length (BasicEngine.starting_cells i) /\
              BasicEngine.placed_row g g1 i ids /\
              (forall loc,
                 is_Some (BasicEngine.Grid.services
                            (BasicEngine.GameState.grid g1) !! loc) ->
                 In loc (flat_map BasicEngine.starting_cells (seq 0 (S i))))).
    { assert (Hseq : forall loc,
                In loc (flat_map BasicEngine.starting_cells (seq 0 i)
                        ++ BasicEngine.starting_cells i) ->
                In loc (flat_map BasicEngine.starting_cells (seq 0 (S i)))).
      { intros loc Hloc. rewrite seq_S, flat_map_app. cbn [flat_map Nat.add].
        by rewrite app_nil_r. }
      destruct (BasicEngine.starting_positions !! i) as [base_coord |] eqn:Hbase.
      - destruct (place_starting_spec BasicEngine.starting_services 0 base_coord
                    owner u g i (flat_map BasicEngine.starting_cells (seq 0 i))
                    Hw Hh) as (u1 & g1 & ids & Hrun & Hlen & Hrow & Hdom1).
        + rewrite (Howners 0%nat owner eq_refl). f_equal. lia.
        + exact Hdom.
        + by apply starting_cells_free.
        + exists u1, g1, ids. split; [exact Hrun |].
          unfold BasicEngine.starting_cells. rewrite Hbase.
          rewrite Z.add_0_r in Hlen, Hdom1. split; [exact Hlen |].
          split; [exact Hrow |]. intros loc Hsome. apply Hseq.
          unfold BasicEngine.starting_cells at 2. rewrite Hbase.
          by apply Hdom1.
      - exists u, g, []. split; [reflexivity |].
        unfold BasicEngine.starting_cells. rewrite Hbase.
        split; [reflexivity |]. split.
        + unfold BasicEngine.placed_row. cbn [length]. rewrite Z.add_0_r.
          repeat split; try done.
          symmetry. apply list_alter_id. intros p. destruct p. cbn.
          by rewrite app_nil_r.
        + intros loc Hsome. apply Hseq. apply in_app_iff. left.
          by apply Hdom. }
    destruct Hstep as (u1 & g1 & ids & -> & Hlen & Hrow & Hdom1).
    cbn [bind].
    destruct Hrow as (Hps & Hbuilt & Hw1 & Hh1 & Hid & Hr & Hph & He & Hc & Hl).
    assert (Hlen1 : length (BasicEngine.GameState.players g1)
                    = length (BasicEngine.GameState.players g))
      by (rewrite Hps; apply length_alter).
    destruct (IH (S i) u1 g1) as (u' & g' & Hrun & Hlen' & Hplayers & Hbuilt'
                                  & Hw' & Hh' & Hid' & Hr' & Hph' & He' & Hc'
                                  & Hl'); [congruence | congruence | exact Hdom1 | |].
    { intros t o Ho.
      rewrite (py_index_length _ (BasicEngine.GameState.players g)) by done.
      rewrite (Howners (S t) o Ho). f_equal. lia. }
    exists u', g'. split; [exact Hrun |]. split; [congruence |]. split.
    + intros k p Hp.
      assert (Hp1 : exists p1,
                BasicEngine.GameState.players g1 !! k = Some p1 /\
                p1 = BasicEngine.with_player_services p (Basic.Player.services p1) /\
                length (Basic.Player.services p1)
                = (length (Basic.Player.services p)
                   + if decide (k = i) then length (BasicEngine.starting_cells i)
                     else 0)%nat).
      { rewrite Hps. destruct (decide (k = i)) as [-> | Hne].
        - rewrite list_lookup_alter_eq, Hp. cbn. eexists. split; [done |].
          split; [by destruct p |]. cbn. rewrite length_app. lia.
        - rewrite list_lookup_alter_ne by done. exists p.
          split; [done |]. split; [by destruct p | lia]. }
      destruct Hp1 as (p1 & Hp1 & Hsame1 & Hcount1).
      destruct (Hplayers k p1 Hp1) as (p' & Hp' & Hsame' & Hcount').
      exists p'. split; [exact Hp' |]. split.
      * rewrite Hsame', Hsame1. by destruct p.
      * rewrite Hcount', Hcount1. cbn [length].
        destruct (decide (k = i)) as [-> | Hne];
          repeat destruct (decide _); lia.
    + cbn [length seq flat_map]. rewrite length_app, Hbuilt', Hbuilt, Hlen.
      repeat split; try congruence. lia.
Qed.

Lemma new_players_lookup (names : list string) (i0 : Z) (t : nat)
    (p : Basic.Player.t) :
  BasicEngine.new_players i0 names !! t = Some p ->
  exists name,
    names !! t = Some name /\
    p = BasicEngine.new_player (i0 + Z.of_nat t) name.
Proof.
  revert i0 t. induction names as [| name rest IH]; intros i0 t; [done |].
  destruct t as [| t]; cbn.
  - intros [= <-]. exists name. split; [done |]. by rewrite Z.add_0_r.
  - intros Hp. apply IH in Hp as (name' & Hname & ->). exists name'.
    split; [done |]. f_equal. lia.
Qed.

Lemma new_players_length (names : list string) (i0 : Z) :
  length (BasicEngine.new_players i0 names) = length names.
Proof.
  revert i0. induction names as [| name rest IH]; intros i0; [done |].
  cbn. by rewrite IH.
Qed.

(** X29: the starting services of a basic game.
    [create_initial_game_state] returns for every list of names and never
    raises.  It creates one player per name, numbered from 0 with the
    default resources, and places starting services for the first four
    only: three for players 0 and 2, but two for players 1 and 3, whose
    third hex, in column 8, lies outside the 8 columns of the grid; later
    players get none.  [services_built] counts them and the action log
    holds the one entry ["game_start"] of player [-1]. *)
Theorem create_initial_game_state_services (player_names : list string)
    (w : World.t) (u : Simulation.ids) :
  exists w' u' g,
    BasicEngine.create_initial_game_state player_names w u = Ok (w', u', g) /\
    length (BasicEngine.GameState.players g) = length player_names /\
    (forall i p,
       BasicEngine.GameState.players g !! i = Some p ->
       Basic.Player.id p = Z.of_nat i /\
       player_names !! i = Some (Basic.Player.name p) /\
       Basic.Player.actions_remaining p = 3 /\
       (forall k, Basic.Player.resources p k = 5) /\
       length (Basic.Player.services p)
       = match i with
         | 0 | 2 => 3
         | 1 | 3 => 2
         | _ => 0
         end%nat) /\
    BasicEngine.Metrics.services_built (BasicEngine.GameState.metrics g)
    = match length player_names with
      | 0%nat => 0
      | 1%nat => 3
      | 2%nat => 5
      | 3%nat => 8
      | _ => 10
      end /\
    BasicEngine.GameState.round g = 1 /\
    BasicEngine.GameState.phase g = GamePhase.SETUP /\
    exists entry,
      BasicEngine.GameState.action_log g = [entry] /\
      BasicEngine.LogEntry.action_type entry = "game_start" /\
      BasicEngine.LogEntry.player_id entry = -1 /\
      BasicEngine.LogEntry.parameters entry
      = ODict [("players", OList (List.map OStr player_names))].
Proof.
  unfold BasicEngine.create_initial_game_state, Simulation.fresh.
  set (g0 := BasicEngine.GameState.mk _ _ _ _ _ _ _ _ _ _).
  destruct (place_all_spec
              (List.map Basic.Player.id (BasicEngine.GameState.players g0)) 0
              (Simulation.mk_ids (Simulation.uuid4 u) (S (Simulation.drawn u)))
              g0)
    as (u' & g' & -> & Hlen & Hplayers & Hbuilt & _ & _ & _ & Hr & Hph & _ & _
        & Hl); [done | done | | |].
  { intros loc [v Hv]. subst g0. cbn in Hv. by rewrite lookup_empty in Hv. }
  { intros t o Ho. subst g0. cbn [BasicEngine.GameState.players] in *.
    change (List.map Basic.Player.id (BasicEngine.new_players 0 player_names))
      with (Basic.Player.id <$> BasicEngine.new_players 0 player_names) in Ho.
    rewrite list_lookup_fmap in Ho.
    destruct (BasicEngine.new_players 0 player_names !! t) as [p |] eqn:Hp;
      [| done].
    injection Ho as <-.
    pose proof (lookup_lt_Some _ _ _ Hp) as Hlt.
    apply new_players_lookup in Hp as (name & _ & ->).
    cbn [BasicEngine.new_player Basic.Player.id]. unfold py_index.
    destruct (Z.leb_spec 0 (0 + Z.of_nat t)); [| lia].
    destruct (Z.ltb_spec (0 + Z.of_nat t)
                (Z.of_nat (length (BasicEngine.new_players 0 player_names))));
      [| lia].
    cbn [andb Nat.add]. f_equal. lia. }
  cbn [bind snd fst].
  unfold BasicEngine.GameState.log_action, World.now_isoformat.
  eexists _, _, _. split; [reflexivity |].
  cbn [BasicEngine.GameState.players BasicEngine.GameState.metrics
       BasicEngine.GameState.round BasicEngine.GameState.phase
       BasicEngine.GameState.action_log].
  subst g0. cbn [BasicEngine.GameState.players BasicEngine.GameState.metrics
                 BasicEngine.GameState.round BasicEngine.GameState.phase
                 BasicEngine.GameState.action_log
                 BasicEngine.Metrics.services_built
                 BasicEngine.Metrics.default] in *.
  rewrite new_players_length in Hlen. rewrite length_map, new_players_length in *.
  split; [exact Hlen |]. split; [| split; [| split; [done | split; [done |]]]].
  - intros i p' Hp'.
    pose proof (lookup_lt_Some _ _ _ Hp') as Hlt. rewrite Hlen in Hlt.
    destruct (lookup_lt_is_Some_2 (BasicEngine.new_players 0 player_names) i)
      as [p Hp]; [by rewrite new_players_length |].
    destruct (Hplayers i p Hp) as (p'' & Hp'' & Hsame & Hcount).
    assert (p'' = p') as -> by congruence.
    apply new_players_lookup in Hp as (name & Hname & ->).
    rewrite Hsame. cbn. split; [done |]. split; [done |]. split; [done |].
    split; [done |].
    rewrite Hcount. cbn [BasicEngine.new_player Basic.Player.services length].
    destruct (decide _) as [_ | Hout]; [| lia].
    do 4 (destruct i as [| i]; [reflexivity |]).
    rewrite starting_cells_beyond by lia. reflexivity.
  - rewrite Hbuilt. clear. generalize (length player_names). intros n.
    do 4 (destruct n as [| n]; [reflexivity |]).
    replace (seq 0 (S (S (S (S n))))) with (seq 0 4 ++ seq 4 n)
      by (by rewrite <- seq_app).
    rewrite flat_map_app, length_app.
    assert (Hnone : forall m a, (4 <= a)%nat ->
              flat_map BasicEngine.starting_cells (seq a m) = []).
    { induction m as [| m IHm]; intros a Ha; [done |]. cbn [seq flat_map].
      rewrite starting_cells_beyond by lia. by rewrite IHm by lia. }
    rewrite (Hnone n 4%nat) by lia. reflexivity.
  - rewrite Hl. eexists. split; [reflexivity |]. by cbn.
Qed.

(** ** The competitive winner of the basic engine *)

Lemma best_of_spec (ps : list Basic.Player.t) (best_player : option Basic.Player.t)
    (best_score : Q) :
  let score (q : Basic.Player.t) :=
    (Basic.Player.current_uptime q
     * inject_Z (Z.of_nat (length (Basic.Player.services q))))%Q in
  (Basic.GameState.best_of best_player best_score ps = best_player /\
   forall q, In q ps -> (score q <= best_score)%Q) \/
  exists (i : nat) (p : Basic.Player.t),
    ps !! i = Some p /\
    Basic.GameState.best_of best_player best_score ps = Some p /\
    (best_score < score p)%Q /\
    forall (j : nat) (q : Basic.Player.t),
      ps !! j = Some q ->
      (score q <= score p)%Q /\ ((j < i)%nat -> (score q < score p)%Q).
Proof.
  intros score. revert best_player best_score.
  induction ps as [| x ps IH]; intros best_player best_score.
  - left. split; [reflexivity | intros q []].
  - cbn [Basic.GameState.best_of]. fold (score x).
    destruct (Qcompare_spec (score x) best_score) as [Heq | Hlt | Hgt].
    + destruct (IH best_player best_score)
        as [[Hsame Hall] | (i & p & Hp & Hbest & Hbetter & Hmax)].
      * left. split; [exact Hsame |]. intros q [<- | Hq]; [| by apply Hall].
        rewrite Heq. apply Qle_refl.
      * right. exists (S i), p. split; [exact Hp |]. split; [exact Hbest |].
        split; [exact Hbetter |]. intros [| j] q Hq; cbn in Hq.
        -- injection Hq as <-. rewrite Heq.
           split; [by apply Qlt_le_weak | done].
        -- destruct (Hmax j q Hq) as [Hle Hfirst].
           split; [done |]. intros Hj. apply Hfirst. lia.
    + destruct (IH best_player best_score)
        as [[Hsame Hall] | (i & p & Hp & Hbest & Hbetter & Hmax)].
      * left. split; [exact Hsame |]. intros q [<- | Hq]; [| by apply Hall].
        by apply Qlt_le_weak.
      * right. exists (S i), p. split; [exact Hp |]. split; [exact Hbest |].
        split; [exact Hbetter |]. intros [| j] q Hq; cbn in Hq.
        -- injection Hq as <-.
           assert (Hx : (score x < score p)%Q)
             by (by apply Qlt_trans with best_score).
           split; [by apply Qlt_le_weak | done].
        -- destruct (Hmax j q Hq) as [Hle Hfirst].
           split; [done |]. intros Hj. apply Hfirst. lia.
    + right.
      destruct (IH (Some x) (score x))
        as [[Hsame Hall] | (i & p & Hp & Hbest & Hbetter & Hmax)].
      * exists 0%nat, x. split; [reflexivity |]. split; [exact Hsame |].
        split; [exact Hgt |]. intros [| j] q Hq; cbn in Hq.
        -- injection Hq as <-. split; [apply Qle_refl | lia].
        -- split; [| lia]. apply Hall.
           apply list_elem_of_In. by apply (list_elem_of_lookup_2 _ j).
      * exists (S i), p. split; [exact Hp |]. split; [exact Hbest |].
        split; [by apply Qlt_trans with (score x) |].
        intros [| j] q Hq; cbn in Hq.
        -- injection Hq as <-. split; [by apply Qlt_le_weak | done].
        -- destruct (Hmax j q Hq) as [Hle Hfirst].
           split; [done |]. intros Hj. apply Hfirst. lia.
Qed.



(** ** The action log *)

(** what [add_service] writes to the log *)
Lemma add_service_log (dump : AdvancedGameState.t -> string) (w w' : World.t)
    (g g' : AdvancedGameState.t) (svc : Service.t) (b : bool) :
  AdvancedGameState.add_service dump w g svc = (b, w', g') ->
  AdvancedGameState.action_log g' = AdvancedGameState.action_log g \/
  exists e,
    AdvancedGameState.action_log g' = AdvancedGameState.action_log g ++ [e] /\
    LogEntry.round e = AdvancedGameState.round g /\
    LogEntry.phase e = AdvancedGameState.phase g /\
    LogEntry.action_type e = "build_service" /\
    LogEntry.player_id e = Service.owner_id svc.
Proof.
  destruct g as [gid rnd ph ps svcs gw gh ent m l cpi].
  unfold AdvancedGameState.add_service.
  destruct (AdvancedGameState.in_grid _ (Service.location svc));
    cbn [negb]; cbv iota; [| intros [= <- <- <-]; by left].
  destruct (AdvancedGameState.in_service_grid _ (Service.location svc));
    [intros [= <- <- <-]; by left |].
  cbn [AdvancedGameState.with_services AdvancedGameState.with_players
       AdvancedGameState.with_metrics AdvancedGameState.players
       AdvancedGameState.metrics].
  destruct (py_index ps (Service.owner_id svc)) as [i |];
    [| intros [= <- <- <-]; by left].
  destruct (GameMetrics.set_services_built m _) as [m' |];
    [| intros [= <- <- <-]; by left].
  unfold AdvancedGameState.log_action, World.now_isoformat.
  intros [= <- <- <-]. right. eexists. split; [reflexivity |]. by cbn.
Qed.

(** what one step writes to the log *)
Lemma step_log (dump : AdvancedGameState.t -> string) (w w' : World.t)
    (g g' : AdvancedGameState.t) (a : action) :
  step dump (w, g) a = Ok (w', g') ->
  AdvancedGameState.round g <= AdvancedGameState.round g' /\
  (AdvancedGameState.action_log g' = AdvancedGameState.action_log g \/
   exists e,
     AdvancedGameState.action_log g' = AdvancedGameState.action_log g ++ [e] /\
     LogEntry.round e = AdvancedGameState.round g /\
     AdvancedGameState.round g' = AdvancedGameState.round g).
Proof.
  intros Hstep.
  split; [by destruct (step_history _ _ _ _ _ _ Hstep) as (Hr & _) |].
  destruct a as [svc | at_ pid params | | | |]; cbn [step] in Hstep.
  - destruct (AdvancedGameState.add_service dump w g svc) as [[b w1] g1] eqn:Hadd.
    injection Hstep as _ <-.
    pose proof (add_service_effect _ _ _ _ _ _ _ Hadd) as (_ & Hr & _).
    apply add_service_log in Hadd as [Hsame | (e & Hl & He & _)];
      [by left | right]. by exists e.
  - unfold AdvancedGameState.log_action, World.now_isoformat in Hstep.
    injection Hstep as _ <-. right. eexists. by cbn.
  - destruct (AdvancedGameState.next_phase g) as [g1 |] eqn:Hnext; [| discriminate].
    cbn [bind] in Hstep. injection Hstep as _ <-.
    apply next_phase_effect in Hnext as (_ & _ & _ & _ & _ & _ & Hl & _).
    by left.
  - destruct (handle_traffic_phase g) as [g1 |] eqn:Htraffic; [| discriminate].
    cbn [bind] in Hstep. injection Hstep as _ <-.
    apply handle_traffic_phase_effect in Htraffic as (traffic & _ & _ & ->).
    left. by destruct g.
  - injection Hstep as _ <-.
    destruct (handle_resolution_phase_effect w g) as (resolve & -> & _).
    left. by destruct g.
  - destruct (handle_chaos_phase w g) as [g1 |] eqn:Hchaos; [| discriminate].
    cbn [bind] in Hstep. injection Hstep as _ <-.
    apply handle_chaos_phase_effect in Hchaos as (m' & e' & -> & _). by left.
Qed.

(** X1: the action log is ordered by round.  If the entries of the log
    carry non-decreasing round numbers, none beyond the current round, the
    same holds after any sequence of engine calls that completes: an entry
    is stamped with the round in which it was written, and rounds only
    advance. *)
Theorem run_log_by_round (dump : AdvancedGameState.t -> string)
    (w w' : World.t) (g g' : AdvancedGameState.t) (actions : list action) :
  Invariants.log_by_round g ->
  run dump (w, g) actions = Ok (w', g') ->
  Invariants.log_by_round g'.
Proof.
  intros Hlog Hrun.
  apply (run_invariant dump Invariants.log_by_round)
    with (actions := actions) (w := w) (g := g) (w' := w');
    [| done | exact Hrun].
  clear. intros w0 g0 a w1 g1 [Hsorted Hbound] Hstep.
  apply step_log in Hstep as [Hround [Hsame | (e & Hl & He & Hr)]].
  - unfold Invariants.log_by_round. rewrite Hsame. split; [exact Hsorted |].
    intros e He. specialize (Hbound e He). lia.
  - unfold Invariants.log_by_round. rewrite Hl, Hr. split.
    + intros i j e1 e2 Hij H1 H2.
      apply lookup_app_Some in H2 as [H2 | [Hj H2]].
      * apply lookup_app_Some in H1 as [H1 | [Hi _]].
        -- by apply (Hsorted i j).
        -- apply lookup_lt_Some in H2. lia.
      * apply list_lookup_singleton_Some in H2 as [_ <-]. rewrite He.
        apply lookup_app_Some in H1 as [H1 | [_ H1]].
        -- apply Hbound. apply list_elem_of_In.
           by apply (list_elem_of_lookup_2 _ i).
        -- apply list_lookup_singleton_Some in H1 as [_ <-]. lia.
    + intros e0 [Hold | [<- | []]]%in_app_iff; [by apply Hbound | lia].
Qed.

Lemma run_log_by_round_witness :
  Invariants.log_by_round Samples.new_game /\
  run Samples.dump (Samples.morning, Samples.new_game) Samples2.actions
  = Ok (fst Samples2.final, snd Samples2.final) /\
  Invariants.log_by_round (snd Samples2.final).
Proof.
  assert (Hlog : Invariants.log_by_round Samples.new_game).
  { split; [intros i j e1 e2 _ H1; by destruct i | intros e []]. }
  split; [exact Hlog |]. split; [exact sample_run_final |].
  exact (run_log_by_round Samples.dump Samples.morning (fst Samples2.final)
           Samples.new_game (snd Samples2.final) Samples2.actions Hlog
           sample_run_final).
Defined.
